(** * Legal-case GraphRAG engine: a shallow embedding and its properties

    The development follows the Python sources

      - [src/graphrag/knowledge_graph.py]   (class [LegalKnowledgeGraph])
      - [src/graphrag/graph_retriever.py]   (class [GraphRAGRetriever])
      - [src/search/graphrag_search.py]     (class [GraphRAGSearchEngine])
      - [src/search/traditional_search.py]  (class [TraditionalSearchEngine])
      - [src/search/search_manager.py]      (class [SearchManager])
      - [src/processing/text_utils.py], [src/processing/legal_utils.py]

    Modelling conventions.

      - A Python [str] is a Rocq [string] holding its UTF-8 bytes; equality
        and the substring test [in] on code points coincide with the same
        tests on the UTF-8 bytes.
      - A Python [dict] is an association list with unique keys kept in
        insertion order ([OrderedDict]); a [set] of strings is a
        duplicate-free list enumerated in insertion order.
      - A Python [float] (and the [int] weights mixed with them) is an exact
        rational of [Q].
      - The [networkx.Graph] object is the pair of its node table and its
        dict-of-dict adjacency ([Nx]).
      - A record handed to the graph builder is a [case_data] when its
        [related_sections] is a dict of lists, which is what the builder
        expects; a [case_record] is a record as it arrives from the
        loader, where that value, or the sections of one law, may be null.
        The builder on received records ([build_graph_records]) raises
        where the source does, and on records with dicts of lists it is
        [build_graph].  Writing the snapshot can fail as well
        ([save_graph_to_disk]).
      - Functions of the Python runtime and of third-party libraries
        ([str.lower], [re.sub], [difflib], scikit-learn, python-louvain,
        [pickle], the FAISS engine) are the fields of the class [Env]: every
        general theorem holds for all their behaviours.  A concrete
        instance [py] is used only to run the code on closed examples. *)

From Stdlib Require Import String Ascii List Bool Arith ZArith QArith Lia.
From Stdlib Require Import Permutation Sorted Lqa.
Import ListNotations.

Close Scope Q_scope.
Open Scope string_scope.
Open Scope list_scope.
Open Scope nat_scope.

Set Implicit Arguments.

(* ================================================================== *)
(** * Keys with decidable equality *)

Class EqKey (K : Type) := {
  keqb : K -> K -> bool;
  keqb_spec : forall a b, reflect (a = b) (keqb a b)
}.

#[export] Instance EqKey_string : EqKey string :=
  {| keqb := String.eqb; keqb_spec := String.eqb_spec |}.

#[export] Instance EqKey_Z : EqKey Z :=
  {| keqb := Z.eqb; keqb_spec := Z.eqb_spec |}.

(* ================================================================== *)
(** * Python dictionaries: insertion-ordered, unique keys *)

Module OrderedDict.
Section Dict.
Context {K V : Type} `{EqKey K}.

Definition t := list (K * V).

(** [d.get(k)] *)
Fixpoint get (d : t) (k : K) : option V :=
  match d with
  | [] => None
  | (k', v) :: d' => if keqb k' k then Some v else get d' k
  end.

(** [k in d] *)
Definition contains (d : t) (k : K) : bool :=
  match get d k with Some _ => true | None => false end.

(** [d.get(k, dflt)] *)
Definition get_default (d : t) (k : K) (dflt : V) : V :=
  match get d k with Some v => v | None => dflt end.

(** [d[k] = v]: an existing key keeps its position, a new key goes last. *)
Fixpoint set (d : t) (k : K) (v : V) : t :=
  match d with
  | [] => [(k, v)]
  | (k', v') :: d' =>
      if keqb k' k then (k', v) :: d' else (k', v') :: set d' k v
  end.

Definition keys (d : t) : list K := map fst d.
Definition values (d : t) : list V := map snd d.

End Dict.
Arguments t : clear implicits.
End OrderedDict.

Abbreviation dict := OrderedDict.t.

(* ================================================================== *)
(** * Python sets of strings *)

Module PySet.

Definition t := list string.

Definition mem (x : string) (s : t) : bool := existsb (String.eqb x) s.

(** [s.add(x)] *)
Definition add (s : t) (x : string) : t := if mem x s then s else s ++ [x].

(** [s.update(xs)] *)
Definition update (s : t) (xs : list string) : t := fold_left add xs s.

End PySet.

(* ================================================================== *)
(** * Strings *)

(** [needle in hay] *)
Fixpoint str_in (needle hay : string) : bool :=
  String.prefix needle hay ||
  match hay with
  | EmptyString => false
  | String _ hay' => str_in needle hay'
  end.

(** [s.replace(a, b)] for one-character [a] and [b]. *)
Fixpoint str_replace (a b : ascii) (s : string) : string :=
  match s with
  | EmptyString => EmptyString
  | String c s' => String (if Ascii.eqb c a then b else c) (str_replace a b s')
  end.

(** Truth value of a string: [bool(s)]. *)
Definition truthy (s : string) : bool :=
  match s with EmptyString => false | _ => true end.

(* ================================================================== *)
(** * Floats as rationals *)

Definition qleb (a b : Q) : bool := Qle_bool a b.
Definition qltb (a b : Q) : bool := negb (Qle_bool b a).

(** [min(a, b)] *)
Definition qmin (a b : Q) : Q := if qleb a b then a else b.

Definition Q_of_nat (n : nat) : Q := inject_Z (Z.of_nat n).

(** [l.sort(key=key, reverse=True)]: stable, largest key first. *)
Section SortDesc.
Variable A : Type.
Variable key : A -> Q.

Fixpoint insert_desc (x : A) (l : list A) : list A :=
  match l with
  | [] => [x]
  | y :: l' => if qltb (key x) (key y) then y :: insert_desc x l' else x :: l
  end.

Fixpoint sort_desc (l : list A) : list A :=
  match l with
  | [] => []
  | x :: l' => insert_desc x (sort_desc l')
  end.

End SortDesc.

(* ================================================================== *)
(** * The networkx graph object

    [networkx.Graph] keeps [_node : node -> attribute dict] and
    [_adj : node -> (neighbour -> edge attribute dict)]; the edge attribute
    dict of [u, v] is the same object under [_adj[u][v]] and [_adj[v][u]].
    Only the attributes the program uses are kept: [type] on nodes,
    [relation] and [weight] on edges. *)

Module Nx.
Import OrderedDict.

Record node_attr := { na_type : option string }.
Record edge_attr := { relation : option string; weight : option Q }.

Record Graph := {
  g_node : dict string node_attr;
  g_adj : dict string (dict string edge_attr)
}.

(** [nx.Graph()] *)
Definition empty : Graph := {| g_node := []; g_adj := [] |}.

(** [n in G] *)
Definition has_node (g : Graph) (n : string) : bool := contains (g_node g) n.

(** [G.add_node(n, type=ty)]: a new node gets an empty adjacency; an
    existing node has its attribute dict updated. *)
Definition add_node (g : Graph) (n ty : string) : Graph :=
  if has_node g n
  then {| g_node := set (g_node g) n {| na_type := Some ty |}; g_adj := g_adj g |}
  else {| g_node := set (g_node g) n {| na_type := Some ty |};
          g_adj := set (g_adj g) n [] |}.

(** The implicit node creation of [add_edge]: no attribute. *)
Definition touch_node (g : Graph) (n : string) : Graph :=
  if has_node g n then g
  else {| g_node := set (g_node g) n {| na_type := None |};
          g_adj := set (g_adj g) n [] |}.

(** [datadict.update(relation=rel)] or
    [datadict.update(relation=rel, weight=w)]. *)
Definition update_attr (old : edge_attr) (rel : string) (w : option Q) : edge_attr :=
  {| relation := Some rel;
     weight := match w with Some x => Some x | None => weight old end |}.

Definition no_attr : edge_attr := {| relation := None; weight := None |}.

(** [G.add_edge(u, v, relation=rel[, weight=w])] *)
Definition add_edge (g : Graph) (u v rel : string) (w : option Q) : Graph :=
  let g1 := touch_node (touch_node g u) v in
  let datadict :=
    update_attr (get_default (get_default (g_adj g1) u []) v no_attr) rel w in
  let adj1 := set (g_adj g1) u (set (get_default (g_adj g1) u []) v datadict) in
  let adj2 := set adj1 v (set (get_default adj1 v []) u datadict) in
  {| g_node := g_node g1; g_adj := adj2 |}.

(** [G.get_edge_data(u, v)], [None] when there is no such edge. *)
Definition get_edge_data (g : Graph) (u v : string) : option edge_attr :=
  match get (g_adj g) u with
  | Some nbrs => get nbrs v
  | None => None
  end.

(** [G.neighbors(n)] *)
Definition neighbors (g : Graph) (n : string) : list string :=
  keys (get_default (g_adj g) n []).

(** [G.nodes[n].get('type', dflt)] *)
Definition node_type (g : Graph) (n dflt : string) : string :=
  match get (g_node g) n with
  | Some {| na_type := Some ty |} => ty
  | _ => dflt
  end.

(** [G.nodes[n].get('type')] when [n] is a node. *)
Definition node_type_opt (g : Graph) (n : string) : option string :=
  match get (g_node g) n with
  | Some a => na_type a
  | None => None
  end.

End Nx.

(* ================================================================== *)
(** * Data carried by the program *)

(** A value found under a dict key that the code goes on to use as a
    number. *)
Inductive pyval :=
| PyNum (q : Q)
| PyNone
| PyStr (s : string).

(** Exceptions (all of them subclasses of [Exception]). *)
Inductive exn :=
| ValueError (msg : string)
| RuntimeError (msg : string)
| TypeError (msg : string)
| AttributeError (msg : string)
| OSError (msg : string).

(** A computation that returns or raises. *)
Inductive outcome (A : Type) :=
| Return (a : A)
| Raise (e : exn).
Arguments Return {A} a.
Arguments Raise {A} e.

Definition bind {A B : Type} (m : outcome A) (k : A -> outcome B) : outcome B :=
  match m with
  | Return a => k a
  | Raise e => Raise e
  end.

Notation "x <- m ;; k" := (bind m (fun x => k))
  (at level 61, m at next level, right associativity).

(** [related_sections] as the loader reads it from JSON and passes it on
    unchecked: the value itself, or the sections of one law, may be null
    ([None]). *)
Definition json_sections : Type := option (dict string (option (list string))).

(** One case record whose [related_sections] is a dict of lists, which is
    what the builder expects ([cases_data] items); a missing key and its
    [.get] default are the same value here. *)
Record case_data := {
  cd_decision_id : string;
  cd_title : string;
  cd_summary : string;
  cd_full_text : string;
  cd_judges : list string;
  cd_case_type : string;
  cd_litigants : dict string string;
  cd_related_sections : dict string (list string)
}.

(** One case record as [_convert_metadata_to_cases] builds it and
    [load_or_build_graph] receives it: [related_sections] is whatever the
    chunk's metadata holds. *)
Record case_record := {
  cr_decision_id : string;
  cr_title : string;
  cr_summary : string;
  cr_full_text : string;
  cr_judges : list string;
  cr_case_type : string;
  cr_litigants : dict string string;
  cr_related_sections : json_sections
}.

(** One chunk's metadata, as [load_documents_from_folder] builds it. *)
Record metadata := {
  m_source : string;
  m_title : string;
  m_decision_id : string;
  m_case_type : option string;
  m_judges : list string;
  m_judges_normalized : list string;
  m_keywords : list string;
  m_litigants : dict string string;
  m_related_sections : json_sections;
  m_full_summary : string
}.

(** Entries of a graph context. *)
Record entity_info := {
  ei_entity : string;
  ei_type : string;
  ei_relevance_score : Q
}.

Record member_info := {
  mi_entity : string;
  mi_type : string
}.

Record graph_context := {
  related_entities : list entity_info;
  community_members : list member_info;
  similar_cases : list entity_info;
  related_judges : list entity_info;
  related_concepts : list entity_info
}.

(** A search result (a Python dict); [None] is an absent key. *)
Record result := {
  r_text : string;
  r_title : string;
  r_source : string;
  r_decision_id : string;
  r_case_type : string;
  r_judges : list string;
  r_similarity : option pyval;
  r_keywords : list string;
  r_litigants : dict string string;
  r_related_sections : json_sections;
  r_full_summary : string;
  r_graph_context : option graph_context;
  r_enhanced_similarity : option Q;
  r_graph_relevance : option Q
}.

(** What [save_graph] pickles: a dict with four keys (any of which a file
    found on disk may lack). *)
Record graph_data := {
  gd_graph : option Nx.Graph;
  gd_communities : option (dict Z (list string));
  gd_entity_types : option (dict string PySet.t);
  gd_case_documents : option (dict string string)
}.

(* ================================================================== *)
(** * The environment: runtime, libraries and configuration *)

Class Env := {
  (** [str.lower], [str.strip], [str.split] (no argument) *)
  str_lower : string -> string;
  str_strip : string -> string;
  str_split : string -> list string;
  (** [unicodedata.normalize(form, s)] *)
  unicodedata_normalize : string -> string -> string;
  (** [re.sub(pattern, repl, s)] *)
  re_sub : string -> string -> string -> string;
  (** [re.search(pattern, s)]: the groups of the match, group 0 first *)
  re_search : string -> string -> option (list string);
  (** [re.findall(pattern, s)] *)
  re_findall : string -> string -> list string;
  (** [difflib.SequenceMatcher(None, a, b).ratio()] *)
  SequenceMatcher_ratio : string -> string -> Q;
  (** [cosine_similarity(TfidfVectorizer(...).fit_transform(documents))];
      [None] when either call raises *)
  tfidf_cosine_similarity : list string -> option (list (list Q));
  (** [community_louvain.best_partition(G)]; [None] when it raises *)
  best_partition : Nx.Graph -> option (list (string * Z));
  (** [pickle.dump] and [pickle.load]; [None] when loading raises or the
      object read is not a dict *)
  file_content : Type;
  pickle_dump : graph_data -> file_content;
  pickle_load : file_content -> option graph_data;
  (** [VectorSearchEngine.search_similar(query, k)] (FAISS) *)
  search_similar : string -> nat -> list result;
  (** The settings of [config.py] that the program reads *)
  EMBEDDINGS_FOLDER : string;
  GRAPHS_FOLDER : string;
  MAX_CONTEXT : nat;
  MAX_GRAPH_DEPTH : nat;
  MAX_DISPLAY_LENGTH : nat
}.

(** The files under the graphs folder. *)
Definition filesystem {E : Env} := string -> option file_content.

Definition fs_write {E : Env} (fs : filesystem) (path : string) (c : file_content)
  : filesystem :=
  fun p => if String.eqb p path then Some c else fs p.

(** [os.path.join(folder, filename)] for a relative [filename]. *)
Definition path_join (folder filename : string) : string :=
  match folder with
  | EmptyString => filename
  | _ => if str_in "/" (String.substring (String.length folder - 1) 1 folder)
         then folder ++ filename
         else folder ++ "/" ++ filename
  end.

(** [enumerate(l)] *)
Definition enumerate {A : Type} (l : list A) : list (nat * A) :=
  combine (seq 0 (length l)) l.

(* ================================================================== *)
(** * knowledge_graph.py: class LegalKnowledgeGraph *)

Section KnowledgeGraph.
Context {E : Env}.
Import OrderedDict.

Record LegalKnowledgeGraph := {
  embeddings_folder : string;
  graphs_folder : string;
  graph : Nx.Graph;
  communities : dict Z (list string);
  case_documents : dict string string;
  entity_types : dict string PySet.t
}.

(** [LegalKnowledgeGraph.__init__] *)
Definition new_knowledge_graph (emb graphs : string) : LegalKnowledgeGraph :=
  {| embeddings_folder := emb;
     graphs_folder := graphs;
     graph := Nx.empty;
     communities := [];
     case_documents := [];
     entity_types := [("case", []); ("judge", []); ("legal_concept", []);
                      ("case_type", []); ("law_section", [])] |}.

Definition set_graph (kg : LegalKnowledgeGraph) (g : Nx.Graph) : LegalKnowledgeGraph :=
  {| embeddings_folder := embeddings_folder kg;
     graphs_folder := graphs_folder kg;
     graph := g;
     communities := communities kg;
     case_documents := case_documents kg;
     entity_types := entity_types kg |}.

(** [d[k].add(x)] and [d[k].update(xs)] on a [defaultdict(set)]. *)
Definition dd_add (d : dict string PySet.t) (k x : string) : dict string PySet.t :=
  set d k (PySet.add (get_default d k []) x).

Definition dd_update (d : dict string PySet.t) (k : string) (xs : list string)
  : dict string PySet.t :=
  set d k (PySet.update (get_default d k []) xs).

Definition legal_terms : list string :=
  ["ลักทรัพย์"; "บุกรุก"; "เคหสถาน"; "พยายาม"; "ฆ่า"; "ทำร้าย"; "โจรกรรม";
   "ฉ้อโกง"; "ยักยอก"; "ข่มขืน"; "ลูกหนี้"; "เจ้าหนี้"; "สัญญา"; "ผิดสัญญา";
   "ค่าเสียหาย"; "ดอกเบี้ย"; "จำนอง"; "จำนำ"; "หย่า"; "อุปการะ"; "มรดก";
   "ที่ดิน"; "กรรมสิทธิ์"; "ข้าราชการ"; "ทุจริต"; "ประมูล"; "ภาษี"; "อากร";
   "ครอบครัว"; "บุตร"; "สมรส"; "แรงงาน"; "ลูกจ้าง"; "นายจ้าง"].

Definition _extract_legal_concepts (text : string) : PySet.t :=
  let text_lower := str_lower text in
  fold_left
    (fun legal_concepts term =>
       if str_in term text_lower then PySet.add legal_concepts term
       else legal_concepts)
    legal_terms [].

(** [a or b] on strings *)
Definition str_or (a b : string) : string := if truthy a then a else b.

Definition extract_entities (c : case_data) : dict string PySet.t :=
  let entities : dict string PySet.t := [] in
  let case_id := cd_decision_id c in
  let entities :=
    if truthy case_id then dd_add entities "case" case_id else entities in
  let entities :=
    fold_left
      (fun entities judge =>
         if truthy judge && truthy (str_strip judge)
         then dd_add entities "judge" (str_strip judge) else entities)
      (cd_judges c) entities in
  let case_type := cd_case_type c in
  let entities :=
    if truthy case_type && negb (String.eqb case_type "ไม่ระบุ")
    then dd_add entities "case_type" case_type else entities in
  let entities :=
    fold_left
      (fun entities '(law_type, sections) =>
         fold_left
           (fun entities section =>
              if truthy section
              then dd_add entities "law_section" (law_type ++ " " ++ section)
              else entities)
           sections entities)
      (cd_related_sections c) entities in
  let text := str_or (cd_summary c) (cd_full_text c) in
  if truthy text
  then dd_update entities "legal_concept" (_extract_legal_concepts text)
  else entities.

(** The first loop of [build_graph]: what it has collected so far. *)
Record collected := {
  all_entities : dict string PySet.t;
  case_entities : dict string (dict string PySet.t);
  coll_documents : dict string string;
  coll_entity_types : dict string PySet.t
}.

Definition collect_case (st : collected) (c : case_data) : collected :=
  let case_id := cd_decision_id c in
  if negb (truthy case_id) then st
  else
    let entities := extract_entities c in
    let text := str_or (cd_summary c) (cd_full_text c) in
    {| all_entities :=
         fold_left (fun d '(entity_type, entity_set) => dd_update d entity_type entity_set)
                   entities (all_entities st);
       case_entities := set (case_entities st) case_id entities;
       coll_documents := set (coll_documents st) case_id text;
       coll_entity_types :=
         fold_left (fun d '(entity_type, entity_set) => dd_update d entity_type entity_set)
                   entities (coll_entity_types st) |}.

Definition collect_entities (types0 : dict string PySet.t) (cases_data : list case_data)
  : collected :=
  fold_left collect_case cases_data
    {| all_entities := []; case_entities := [];
       coll_documents := []; coll_entity_types := types0 |}.

(** The second loop of [build_graph]: one [add_node] per collected entity. *)
Definition add_entity_nodes (g : Nx.Graph) (all : dict string PySet.t) : Nx.Graph :=
  fold_left
    (fun g '(entity_type, entity_set) =>
       fold_left (fun g entity => Nx.add_node g entity entity_type) entity_set g)
    all g.

(** The three blocks of the body of [_add_case_relationships]. *)
Definition add_contains (g : Nx.Graph) (case_id : string) (entities : dict string PySet.t)
  : Nx.Graph :=
  fold_left
    (fun g '(_, entity_set) =>
       fold_left
         (fun g entity =>
            if negb (String.eqb entity case_id)
            then Nx.add_edge g case_id entity "contains" None else g)
         entity_set g)
    entities g.

Definition add_handles (g : Nx.Graph) (entities : dict string PySet.t) : Nx.Graph :=
  if contains entities "judge" && contains entities "case_type"
  then
    fold_left
      (fun g judge =>
         fold_left (fun g case_type => Nx.add_edge g judge case_type "handles" None)
                   (get_default entities "case_type" []) g)
      (get_default entities "judge" []) g
  else g.

(** [get_edge_data(u, v, {}).get('weight', 0)] *)
Definition weight_or_0 (g : Nx.Graph) (u v : string) : Q :=
  match Nx.get_edge_data g u v with
  | Some {| Nx.weight := Some w |} => w
  | _ => 0%Q
  end.

Definition add_deals_with (g : Nx.Graph) (entities : dict string PySet.t) : Nx.Graph :=
  if contains entities "judge" && contains entities "legal_concept"
  then
    fold_left
      (fun g judge =>
         fold_left
           (fun g concept =>
              let weight := (weight_or_0 g judge concept + 1)%Q in
              Nx.add_edge g judge concept "deals_with" (Some weight))
           (get_default entities "legal_concept" []) g)
      (get_default entities "judge" []) g
  else g.

Definition add_case (g : Nx.Graph) (case_id : string) (entities : dict string PySet.t)
  : Nx.Graph :=
  add_deals_with (add_handles (add_contains g case_id entities) entities) entities.

Definition _add_case_relationships (g : Nx.Graph)
  (case_entities : dict string (dict string PySet.t)) : Nx.Graph :=
  fold_left (fun g '(case_id, entities) => add_case g case_id entities) case_entities g.

(** [similarity_matrix[i][j]] *)
Definition matrix_at (m : list (list Q)) (i j : nat) : Q := nth j (nth i m []) 0%Q.

Definition _add_similarity_relationships (g : Nx.Graph) (docs : dict string string)
  (cases_data : list case_data) : Nx.Graph :=
  let selected :=
    filter (fun c => truthy (cd_decision_id c) && contains docs (cd_decision_id c))
           cases_data in
  let case_ids := map cd_decision_id selected in
  let documents := map (fun c => get_default docs (cd_decision_id c) "") selected in
  if length documents <? 2 then g
  else
    match tfidf_cosine_similarity documents with
    | None => g
    | Some similarity_matrix =>
        let threshold := 0.3%Q in
        fold_left
          (fun g '(i, case_id_1) =>
             fold_left
               (fun g '(j, case_id_2) =>
                  if (i <? j) && qltb threshold (matrix_at similarity_matrix i j)
                  then Nx.add_edge g case_id_1 case_id_2 "similar_to"
                                   (Some (matrix_at similarity_matrix i j))
                  else g)
               (enumerate case_ids) g)
          (enumerate case_ids) g
    end.

Definition build_graph (kg : LegalKnowledgeGraph) (cases_data : list case_data)
  : LegalKnowledgeGraph :=
  let st := collect_entities (entity_types kg) cases_data in
  let g := add_entity_nodes (graph kg) (all_entities st) in
  let g := _add_case_relationships g (case_entities st) in
  let g := _add_similarity_relationships g (coll_documents st) cases_data in
  {| embeddings_folder := embeddings_folder kg;
     graphs_folder := graphs_folder kg;
     graph := g;
     communities := communities kg;
     case_documents := coll_documents st;
     entity_types := coll_entity_types st |}.

(** ** The builder on records as they arrive

    [extract_entities] calls [related_sections.items()] and iterates the
    sections of each law, so a null in either place raises; [build_graph]
    has no handler and the exception leaves it. *)

(** A record with a dict of lists, as a received record. *)
Definition loaded_sections (sections : dict string (list string)) : json_sections :=
  Some (map (fun '(law_type, l) => (law_type, Some l)) sections).

Definition as_record (c : case_data) : case_record :=
  {| cr_decision_id := cd_decision_id c;
     cr_title := cd_title c;
     cr_summary := cd_summary c;
     cr_full_text := cd_full_text c;
     cr_judges := cd_judges c;
     cr_case_type := cd_case_type c;
     cr_litigants := cd_litigants c;
     cr_related_sections := loaded_sections (cd_related_sections c) |}.

Definition null_has_no_items : exn :=
  AttributeError "'NoneType' object has no attribute 'items'".

Definition null_is_not_iterable : exn :=
  TypeError "'NoneType' object is not iterable".

(** [extract_entities(case_data)] on a received record. *)
Definition extract_entities_record (c : case_record) : outcome (dict string PySet.t) :=
  let entities : dict string PySet.t := [] in
  let case_id := cr_decision_id c in
  let entities :=
    if truthy case_id then dd_add entities "case" case_id else entities in
  let entities :=
    fold_left
      (fun entities judge =>
         if truthy judge && truthy (str_strip judge)
         then dd_add entities "judge" (str_strip judge) else entities)
      (cr_judges c) entities in
  let case_type := cr_case_type c in
  let entities :=
    if truthy case_type && negb (String.eqb case_type "ไม่ระบุ")
    then dd_add entities "case_type" case_type else entities in
  match cr_related_sections c with
  | None => Raise null_has_no_items
  | Some related_sections =>
      entities <-
        fold_left
          (fun so_far '(law_type, sections) =>
             entities <- so_far ;;
             match sections with
             | None => Raise null_is_not_iterable
             | Some sections =>
                 Return
                   (fold_left
                      (fun entities section =>
                         if truthy section
                         then dd_add entities "law_section" (law_type ++ " " ++ section)
                         else entities)
                      sections entities)
             end)
          related_sections (Return entities) ;;
      let text := str_or (cr_summary c) (cr_full_text c) in
      Return (if truthy text
              then dd_update entities "legal_concept" (_extract_legal_concepts text)
              else entities)
  end.

(** One turn of the first loop of [build_graph] on a received record. *)
Definition collect_record (so_far : outcome collected) (c : case_record)
  : outcome collected :=
  st <- so_far ;;
  let case_id := cr_decision_id c in
  if negb (truthy case_id) then Return st
  else
    entities <- extract_entities_record c ;;
    let text := str_or (cr_summary c) (cr_full_text c) in
    Return
      {| all_entities :=
           fold_left (fun d '(entity_type, entity_set) => dd_update d entity_type entity_set)
                     entities (all_entities st);
         case_entities := set (case_entities st) case_id entities;
         coll_documents := set (coll_documents st) case_id text;
         coll_entity_types :=
           fold_left (fun d '(entity_type, entity_set) => dd_update d entity_type entity_set)
                     entities (coll_entity_types st) |}.

Definition collect_records (types0 : dict string PySet.t) (cases_data : list case_record)
  : outcome collected :=
  fold_left collect_record cases_data
    (Return {| all_entities := []; case_entities := [];
               coll_documents := []; coll_entity_types := types0 |}).

(** What [_add_similarity_relationships] reads of a record: its decision id. *)
Definition id_only (c : case_record) : case_data :=
  {| cd_decision_id := cr_decision_id c; cd_title := ""; cd_summary := "";
     cd_full_text := ""; cd_judges := []; cd_case_type := "";
     cd_litigants := []; cd_related_sections := [] |}.

(** [build_graph(cases_data)] on received records. *)
Definition build_graph_records (kg : LegalKnowledgeGraph) (cases_data : list case_record)
  : outcome LegalKnowledgeGraph :=
  st <- collect_records (entity_types kg) cases_data ;;
  let g := add_entity_nodes (graph kg) (all_entities st) in
  let g := _add_case_relationships g (case_entities st) in
  let g := _add_similarity_relationships g (coll_documents st) (map id_only cases_data) in
  Return
    {| embeddings_folder := embeddings_folder kg;
       graphs_folder := graphs_folder kg;
       graph := g;
       communities := communities kg;
       case_documents := coll_documents st;
       entity_types := coll_entity_types st |}.

Definition detect_communities (kg : LegalKnowledgeGraph) : LegalKnowledgeGraph :=
  match best_partition (graph kg) with
  | None => kg
  | Some partition =>
      let communities : dict Z (list string) :=
        fold_left
          (fun d '(node, community_id) =>
             set d community_id (get_default d community_id [] ++ [node]))
          partition [] in
      let min_size := 3 in
      {| embeddings_folder := embeddings_folder kg;
         graphs_folder := graphs_folder kg;
         graph := graph kg;
         communities := filter (fun '(_, nodes) => min_size <=? length nodes) communities;
         case_documents := case_documents kg;
         entity_types := entity_types kg |}
  end.

(** ** get_related_entities: the breadth-first traversal *)

(** The local variables of the [while] loop. *)
Record bfs_state := {
  related : list (string * string * Q);
  visited : PySet.t;
  queue : list (string * nat * Q)
}.

(** [edge_data.get('weight', 1.0)] with [edge_data = get_edge_data(u, v, {})] *)
Definition edge_weight_or_1 (g : Nx.Graph) (u v : string) : Q :=
  match Nx.get_edge_data g u v with
  | Some {| Nx.weight := Some w |} => w
  | _ => 1%Q
  end.

(** One turn of [for neighbor in self.graph.neighbors(current)]. *)
Definition visit_neighbor (g : Nx.Graph) (entity current : string) (depth : nat)
  (score : Q) (st : bfs_state) (neighbor : string) : bfs_state :=
  if PySet.mem neighbor (visited st) then st
  else
    let edge_weight := edge_weight_or_1 g current neighbor in
    let neighbor_score := (score * (edge_weight / Q_of_nat (depth + 1)))%Q in
    {| related :=
         if negb (String.eqb neighbor entity)
         then related st ++ [(neighbor, Nx.node_type g neighbor "unknown", neighbor_score)]
         else related st;
       visited := PySet.add (visited st) neighbor;
       queue := queue st ++ [(neighbor, depth + 1, neighbor_score)] |}.

(** The loop test [queue and len(related) < max_results]. *)
Definition bfs_continue (max_results : nat) (st : bfs_state) : bool :=
  match queue st with
  | [] => false
  | _ :: _ => length (related st) <? max_results
  end.

(** The loop body: [queue.pop(0)], the depth test, the [for] loop. *)
Definition bfs_body (g : Nx.Graph) (entity : string) (max_depth : nat)
  (st : bfs_state) : bfs_state :=
  match queue st with
  | [] => st
  | (current, depth, score) :: rest =>
      let st' := {| related := related st; visited := visited st; queue := rest |} in
      if max_depth <=? depth then st'
      else fold_left (visit_neighbor g entity current depth score)
                     (Nx.neighbors g current) st'
  end.

(** The [while] loop, unrolled at most [fuel] times. *)
Fixpoint bfs_loop (fuel : nat) (g : Nx.Graph) (entity : string)
  (max_depth max_results : nat) (st : bfs_state) : bfs_state :=
  match fuel with
  | O => st
  | S fuel' =>
      if bfs_continue max_results st
      then bfs_loop fuel' g entity max_depth max_results (bfs_body g entity max_depth st)
      else st
  end.

(** The loop itself, as a relation between its first and last state. *)
Inductive bfs_while (g : Nx.Graph) (entity : string) (max_depth max_results : nat)
  : bfs_state -> bfs_state -> Prop :=
| bfs_exit : forall st,
    bfs_continue max_results st = false ->
    bfs_while g entity max_depth max_results st st
| bfs_turn : forall st st',
    bfs_continue max_results st = true ->
    bfs_while g entity max_depth max_results (bfs_body g entity max_depth st) st' ->
    bfs_while g entity max_depth max_results st st'.

(** Every name that can ever be appended to the queue: the neighbour keys
    of the adjacency. *)
Definition all_neighbors (g : Nx.Graph) : list string :=
  flat_map (fun '(_, nbrs) => keys nbrs) (Nx.g_adj g).

(** Turns the loop can still take: one per queued item and one per name not
    yet visited. *)
Definition bfs_measure (g : Nx.Graph) (st : bfs_state) : nat :=
  length (queue st) +
  length (filter (fun n => negb (PySet.mem n (visited st))) (all_neighbors g)).

Definition bfs_init (entity : string) : bfs_state :=
  {| related := []; visited := [entity]; queue := [(entity, 0, 1%Q)] |}.

Definition score_of (x : string * string * Q) : Q := snd x.

Definition get_related_entities (kg : LegalKnowledgeGraph) (entity : string)
  (max_depth max_results : nat) : list (string * string * Q) :=
  if negb (Nx.has_node (graph kg) entity) then []
  else
    let st0 := bfs_init entity in
    let st := bfs_loop (bfs_measure (graph kg) st0) (graph kg) entity
                       max_depth max_results st0 in
    firstn max_results (sort_desc score_of (related st)).

Definition get_community_context (kg : LegalKnowledgeGraph) (entity : string)
  : list string :=
  if negb (Nx.has_node (graph kg) entity) then []
  else
    match find (fun '(_, nodes) => PySet.mem entity nodes) (communities kg) with
    | Some (_, nodes) =>
        firstn 20 (filter (fun node => negb (String.eqb node entity)) nodes)
    | None => []
    end.

(** ** save_graph and load_graph *)

Definition default_filename : string := "legal_knowledge_graph.pkl".

Definition save_graph (kg : LegalKnowledgeGraph) (fs : filesystem) (filename : string)
  : filesystem :=
  let filepath := path_join (graphs_folder kg) filename in
  let graph_data :=
    {| gd_graph := Some (graph kg);
       gd_communities := Some (communities kg);
       gd_entity_types := Some (entity_types kg);
       gd_case_documents := Some (case_documents kg) |} in
  fs_write fs filepath (pickle_dump graph_data).

(** [save_graph] on a disk that may refuse the write: [open(filepath, 'wb')]
    has no handler around it.  [write_error] gives, for a path, the message
    of the [OSError] that opening it for writing raises, and [None] when
    the file opens. *)
Definition save_graph_to_disk (write_error : string -> option string)
  (kg : LegalKnowledgeGraph) (fs : filesystem) (filename : string) : outcome filesystem :=
  let filepath := path_join (graphs_folder kg) filename in
  match write_error filepath with
  | Some msg => Raise (OSError msg)
  | None => Return (save_graph kg fs filename)
  end.

Definition or_default {A : Type} (o : option A) (d : A) : A :=
  match o with Some a => a | None => d end.

(** Returns the flag of [load_graph] and the object after the call. *)
Definition load_graph (kg : LegalKnowledgeGraph) (fs : filesystem) (filename : string)
  : bool * LegalKnowledgeGraph :=
  let filepath := path_join (graphs_folder kg) filename in
  match fs filepath with
  | None => (false, kg)
  | Some content =>
      match pickle_load content with
      | None => (false, kg)
      | Some graph_data =>
          (true,
           {| embeddings_folder := embeddings_folder kg;
              graphs_folder := graphs_folder kg;
              graph := or_default (gd_graph graph_data) Nx.empty;
              communities := or_default (gd_communities graph_data) [];
              case_documents := or_default (gd_case_documents graph_data) [];
              entity_types := or_default (gd_entity_types graph_data) [] |})
      end
  end.

End KnowledgeGraph.

(* ================================================================== *)
(** * graph_retriever.py: class GraphRAGRetriever *)

Section Retriever.
Context {E : Env}.
Import OrderedDict.

Definition empty_context : graph_context :=
  {| related_entities := []; community_members := []; similar_cases := [];
     related_judges := []; related_concepts := [] |}.

(** One turn of the categorising loop of [_get_case_graph_context]. *)
Definition categorize (context : graph_context) (x : string * string * Q)
  : graph_context :=
  let '(entity, entity_type, score) := x in
  let entity_info :=
    {| ei_entity := entity; ei_type := entity_type; ei_relevance_score := score |} in
  {| related_entities := related_entities context ++ [entity_info];
     community_members := community_members context;
     similar_cases :=
       if String.eqb entity_type "case"
       then similar_cases context ++ [entity_info] else similar_cases context;
     related_judges :=
       if negb (String.eqb entity_type "case") && String.eqb entity_type "judge"
       then related_judges context ++ [entity_info] else related_judges context;
     related_concepts :=
       if negb (String.eqb entity_type "case") && negb (String.eqb entity_type "judge")
          && String.eqb entity_type "legal_concept"
       then related_concepts context ++ [entity_info] else related_concepts context |}.

Definition _get_case_graph_context (kg : LegalKnowledgeGraph) (case_id : string)
  (max_depth : nat) : graph_context :=
  if negb (Nx.has_node (graph kg) case_id) then empty_context
  else
    let traversal := get_related_entities kg case_id max_depth 20 in
    let context := fold_left categorize traversal empty_context in
    let members := get_community_context kg case_id in
    {| related_entities := related_entities context;
       community_members :=
         map (fun member =>
                {| mi_entity := member;
                   mi_type := Nx.node_type (graph kg) member "unknown" |})
             (firstn 10 members);
       similar_cases := similar_cases context;
       related_judges := related_judges context;
       related_concepts := related_concepts context |}.

Definition _calculate_graph_relevance (case_id query : string)
  (context : graph_context) : Q :=
  let query_terms := PySet.update [] (str_split (str_lower query)) in
  let score :=
    fold_left
      (fun score entity_info =>
         let entity := str_lower (ei_entity entity_info) in
         let entity_score := ei_relevance_score entity_info in
         if existsb (fun term => str_in term entity) query_terms
         then (score + entity_score * 0.5)%Q else score)
      (related_entities context) 0%Q in
  let community_score := (Q_of_nat (length (community_members context)) * 0.1)%Q in
  let score := (score + qmin community_score 0.3)%Q in
  let similar_cases_bonus :=
    qmin (Q_of_nat (length (similar_cases context)) * 0.05)%Q 0.2%Q in
  let score := (score + similar_cases_bonus)%Q in
  qmin score 1%Q.

Definition query_legal_concepts : list string :=
  ["ลักทรัพย์"; "บุกรุก"; "เคหสถาน"; "พยายาม"; "ฆ่า"; "ทำร้าย"; "โจรกรรม";
   "ฉ้อโกง"; "ยักยอก"; "ข่มขืน"; "ลูกหนี้"; "เจ้าหนี้"; "สัญญา"; "ผิดสัญญา";
   "ค่าเสียหาย"; "ดอกเบี้ย"; "จำนอง"; "จำนำ"; "หย่า"; "อุปการะ"; "มรดก";
   "ที่ดิน"; "กรรมสิทธิ์"; "ข้าราชการ"; "ทุจริต"; "ประมูล"; "ภาษี"; "อากร"].

Definition query_case_types : list string :=
  ["อาญา"; "แพ่ง"; "แรงงาน"; "ภาษี"; "ปกครอง"; "ครอบครัว"].

Definition case_number_pattern : string := "\d{2,6}/\d{2,4}".
Definition judge_pattern : string := "ผู้พิพากษา\s*(\w+)".

Definition _extract_query_entities (query : string) : list string :=
  let entities := re_findall case_number_pattern query in
  let entities := entities ++ re_findall judge_pattern query in
  let entities :=
    entities ++ filter (fun concept => str_in concept query) query_legal_concepts in
  entities ++ filter (fun case_type => str_in case_type query) query_case_types.

(** The dict built for a case found through the graph. *)
Definition case_info (entity related_entity : string) (score : Q) : result :=
  {| r_text := "Case discovered through graph relationship with " ++ entity;
     r_title := "Related case: " ++ related_entity;
     r_source := "graph_discovery";
     r_decision_id := related_entity;
     r_case_type := "ไม่ระบุ";
     r_judges := [];
     r_similarity := Some (PyNum (score * 0.7)%Q);
     r_keywords := [];
     r_litigants := [];
     r_related_sections := Some [];
     r_full_summary := "";
     r_graph_context := None;
     r_enhanced_similarity := Some (score * 0.7)%Q;
     r_graph_relevance := Some score |}.

Definition _find_additional_relevant_cases (kg : LegalKnowledgeGraph) (query : string)
  (existing_case_ids : list string) (max_results : nat) : list result :=
  let query_entities := _extract_query_entities query in
  fold_left
    (fun additional_cases entity =>
       if Nx.has_node (graph kg) entity
       then
         fold_left
           (fun additional_cases '(related_entity, entity_type, score) =>
              if String.eqb entity_type "case"
                 && negb (PySet.mem related_entity existing_case_ids)
                 && (length additional_cases <? max_results)
              then additional_cases ++ [case_info entity related_entity score]
              else additional_cases)
           (get_related_entities kg entity 2 10) additional_cases
       else additional_cases)
    query_entities [].

(** The operand [original_score] of the blend must be a number. *)
Definition as_number (v : pyval) : outcome Q :=
  match v with
  | PyNum q => Return q
  | PyNone => Raise (TypeError "unsupported operand type(s) for *: 'float' and 'NoneType'")
  | PyStr _ => Raise (TypeError "can't multiply sequence by non-int of type 'float'")
  end.

(** One turn of the loop over [vector_results]. *)
Definition enhance_one (kg : LegalKnowledgeGraph) (query : string)
  (max_graph_depth : nat) (context_weight : Q)
  (acc : list result * PySet.t) (r : result) : outcome (list result * PySet.t) :=
  let '(enhanced_results, seen_cases) := acc in
  let case_id := r_decision_id r in
  if negb (truthy case_id) || PySet.mem case_id seen_cases then Return acc
  else
    let seen_cases := PySet.add seen_cases case_id in
    let graph_context := _get_case_graph_context kg case_id max_graph_depth in
    let graph_score := _calculate_graph_relevance case_id query graph_context in
    original_score <- as_number (or_default (r_similarity r) (PyNum 0.5%Q)) ;;
    let enhanced_score :=
      ((1 - context_weight) * original_score + context_weight * graph_score)%Q in
    let enhanced_result :=
      {| r_text := r_text r; r_title := r_title r; r_source := r_source r;
         r_decision_id := r_decision_id r; r_case_type := r_case_type r;
         r_judges := r_judges r; r_similarity := r_similarity r;
         r_keywords := r_keywords r; r_litigants := r_litigants r;
         r_related_sections := r_related_sections r;
         r_full_summary := r_full_summary r;
         r_graph_context := Some graph_context;
         r_enhanced_similarity := Some enhanced_score;
         r_graph_relevance := Some graph_score |} in
    Return (enhanced_results ++ [enhanced_result], seen_cases).

Fixpoint enhance_all (kg : LegalKnowledgeGraph) (query : string)
  (max_graph_depth : nat) (context_weight : Q)
  (vector_results : list result) (acc : list result * PySet.t)
  : outcome (list result * PySet.t) :=
  match vector_results with
  | [] => Return acc
  | r :: rest =>
      acc' <- enhance_one kg query max_graph_depth context_weight acc r ;;
      enhance_all kg query max_graph_depth context_weight rest acc'
  end.

(** The second loop: graph discoveries not seen yet are appended. *)
Definition append_additional (acc : list result * PySet.t) (case_data : result)
  : list result * PySet.t :=
  let '(enhanced_results, seen_cases) := acc in
  if negb (PySet.mem (r_decision_id case_data) seen_cases)
  then (enhanced_results ++ [case_data], PySet.add seen_cases (r_decision_id case_data))
  else acc.

(** [x.get('enhanced_similarity', x.get('similarity', 0))] *)
Definition sort_key (x : result) : Q :=
  match r_enhanced_similarity x with
  | Some s => s
  | None => match r_similarity x with Some (PyNum s) => s | _ => 0%Q end
  end.

Definition retrieve_with_graph_context (kg : LegalKnowledgeGraph) (query : string)
  (vector_results : list result) (max_graph_depth : nat) (context_weight : Q)
  : outcome (list result) :=
  match vector_results with
  | [] => Return []
  | _ :: _ =>
      acc <- enhance_all kg query max_graph_depth context_weight vector_results ([], []) ;;
      let additional_cases :=
        _find_additional_relevant_cases kg query (map r_decision_id (fst acc)) 5 in
      let '(enhanced_results, _) := fold_left append_additional additional_cases acc in
      Return (sort_desc sort_key enhanced_results)
  end.

(** An entry of [get_entity_recommendations]. *)
Record recommendation := {
  rec_entity : string;
  rec_type : string;
  rec_relevance_score : Q;
  rec_relationship_reason : string
}.

Definition get_entity_recommendations (kg : LegalKnowledgeGraph) (entity : string)
  : list recommendation :=
  if negb (Nx.has_node (graph kg) entity) then []
  else
    let found := get_related_entities kg entity 2 15 in
    map (fun '(related_entity, rel_type, score) =>
           {| rec_entity := related_entity;
              rec_type := rel_type;
              rec_relevance_score := score;
              rec_relationship_reason :=
                "Related to " ++ entity ++ " through " ++ rel_type ++ " relationship" |})
        (filter (fun '(_, rel_type, _) => String.eqb rel_type "case") found).

End Retriever.

(* ================================================================== *)
(** * processing/text_utils.py and processing/legal_utils.py *)

(** Code points of a string held as UTF-8: a byte in [0x80, 0xBF] continues
    the code point begun before it. *)
Definition is_continuation (c : ascii) : bool :=
  (128 <=? nat_of_ascii c) && (nat_of_ascii c <? 192).

(** [len(s)] *)
Fixpoint cp_length (s : string) : nat :=
  match s with
  | EmptyString => 0
  | String c s' => (if is_continuation c then 0 else 1) + cp_length s'
  end.

(** [s[:n]] *)
Fixpoint cp_take (n : nat) (s : string) : string :=
  match s with
  | EmptyString => EmptyString
  | String c s' =>
      if is_continuation c then String c (cp_take n s')
      else match n with
           | O => EmptyString
           | S n' => String c (cp_take n' s')
           end
  end.

(** [s.rfind(ch)] for an ASCII [ch]: the scan keeps the index of the code
    point to come in [i] and the last index found in [last]. *)
Fixpoint cp_rfind_from (ch : ascii) (s : string) (i : Z) (last : Z) : Z :=
  match s with
  | EmptyString => last
  | String c s' =>
      if is_continuation c then cp_rfind_from ch s' i last
      else cp_rfind_from ch s' (i + 1)%Z (if Ascii.eqb c ch then i else last)
  end.

Definition cp_rfind (ch : ascii) (s : string) : Z := cp_rfind_from ch s 0%Z (-1)%Z.

Section TextUtils.
Context {E : Env}.
Import OrderedDict.

(** [truncate_text(text)] with [max_length = config.MAX_DISPLAY_LENGTH];
    [cut_point > max_length * 0.8] is compared as [5 * cut_point > 4 * max_length]. *)
Definition truncate_text (text : string) : string :=
  let max_length := MAX_DISPLAY_LENGTH in
  if cp_length text <=? max_length then text
  else
    let truncated := cp_take max_length text in
    let last_space := cp_rfind " " truncated in
    let last_period := cp_rfind "." truncated in
    let cut_point := Z.max last_space last_period in
    let truncated :=
      if (4 * Z.of_nat max_length <? 5 * cut_point)%Z
      then cp_take (Z.to_nat cut_point) text else truncated in
    truncated ++ "...".

Definition normalize_unicode (text : string) : string :=
  if negb (truthy text) then ""
  else
    let text := unicodedata_normalize "NFC" text in
    re_sub "\s+" " " (str_strip text).

Definition prefixes : list string :=
  ["นาย"; "นาง"; "นางสาว"; "ดร\."; "ศาสตราจารย์"; "รองศาสตราจารย์";
   "ผู้พิพากษา"; "ผู้พิพากษาหัวหน้า"; "ผู้พิพากษาที่ปรึกษา";
   "ประธานศาลฎีกา"; "รองประธานศาลฎีกา"; "ผู้พิพากษาศาลฎีกา"].

Definition normalize_judge_name (name : string) : string :=
  if negb (truthy name) then ""
  else
    let name := normalize_unicode name in
    let name := re_sub "\s+" " " (str_lower (str_strip name)) in
    let name :=
      fold_left (fun name prefix => re_sub ("^" ++ prefix ++ "\s*") "" name)
                prefixes name in
    let name := re_sub "[\d\.\,\(\)\-\:]" "" name in
    re_sub "\s+" " " (str_strip name).

Definition similarity_score (str1 str2 : string) : Q := SequenceMatcher_ratio str1 str2.

(** The test of [find_best_match] on one candidate: containment of the
    normalized names either way, or a ratio of at least [threshold]. *)
Definition name_overlaps (threshold : Q) (query_normalized candidate : string) : bool :=
  let candidate_normalized := normalize_judge_name candidate in
  str_in query_normalized candidate_normalized
  || str_in candidate_normalized query_normalized
  || qleb threshold (similarity_score query_normalized candidate_normalized).

Definition find_best_match (query : string) (candidates : list string) (threshold : Q)
  : list string :=
  let query_normalized := normalize_judge_name query in
  filter (name_overlaps threshold query_normalized) candidates.

Definition case_type_mapping : dict string string :=
  [("อาญา", "อาญา"); ("แพ่ง", "แพ่ง"); ("แรงงาน", "แรงงาน"); ("ภาษี", "ภาษี");
   ("คดีอาญา", "อาญา"); ("คดีแพ่ง", "แพ่ง"); ("คดีแรงงาน", "แรงงาน");
   ("คดีภาษี", "ภาษี"); ("ปกครอง", "ปกครอง"); ("ครอบครัว", "ครอบครัว");
   ("ล้มละลาย", "ล้มละลาย"); ("ทรัพย์สินทางปัญญา", "ทรัพย์สินทางปัญญา")].

Definition extract_case_type (text : string) : option string :=
  let text_lower := str_lower text in
  option_map snd
    (find (fun '(keyword, _) => str_in (str_lower keyword) text_lower) case_type_mapping).

(** [detect_case_type(text, title)].  The patterns hold no cased letter, so
    [re.IGNORECASE] changes nothing and [re.search] stands for the call. *)
Definition criminal_patterns : list string :=
  ["ลักทรัพย์|โจรกรรม|ฆ่า|ทำร้าย|ข่มขืน|ฉ้อโกง|ยักยอก|บุกรุก|พยายาม";
   "ประมวลกฎหมายอาญา|มาตรา\s*\d+.*อาญา|ความผิดฐาน";
   "จำเลย|โจทก์.*อัยการ|พนักงานอัยการ"].

Definition civil_patterns : list string :=
  ["ผิดสัญญา|ค่าเสียหาย|ดอกเบี้ย|จำนอง|จำนำ|หนี้|เจ้าหนี้|ลูกหนี้";
   "ประมวลกฎหมายแพ่ง|กรรมสิทธิ์|ที่ดิน|อสังหาริมทรัพย์";
   "หย่า|อุปการะ|มรดก|ทรัพย์สิน|นิติกรรม"].

Definition admin_patterns : list string :=
  ["ข้าราชการ|เจ้าหน้าที่|ภาษี|อากร|ใบอนุญาต|ประมูล";
   "กฎหมายปกครอง|ศาลปกครอง|การจัดซื้อ|การจัดจ้าง"].

Definition labor_patterns : list string :=
  ["ลูกจ้าง|นายจ้าง|ค่าจ้าง|ค่าแรง|เงินชดเชย|ประกันสังคม";
   "กฎหมายแรงงาน|ศาลแรงงาน|การเลิกจ้าง"].

(** Some pattern of the list is found in the text. *)
Definition matches_any (patterns : list string) (text : string) : bool :=
  existsb (fun pattern => match re_search pattern text with
                          | Some _ => true
                          | None => false
                          end) patterns.

Definition detect_case_type (text title : string) : string :=
  let combined_text := str_lower (title ++ " " ++ text) in
  if matches_any criminal_patterns combined_text then "อาญา"
  else if matches_any civil_patterns combined_text then "แพ่ง"
  else if matches_any admin_patterns combined_text then "ปกครอง"
  else if matches_any labor_patterns combined_text then "แรงงาน"
  else "ไม่ระบุ".

End TextUtils.

(** ** [chunk_text_with_overlap]

    The lengths and positions are Python integers, so a start that the
    overlap has pushed below zero counts from the end of the text, as
    Python's slices and [rfind] read it. *)

(** The position a slice bound [i] stands for in a text of [len] characters. *)
Definition py_index (len i : Z) : Z :=
  if (i <? 0)%Z then Z.max (i + len) 0 else Z.min i len.

(** [s[n:]] *)
Fixpoint cp_drop (n : nat) (s : string) : string :=
  match s with
  | EmptyString => EmptyString
  | String c s' =>
      if is_continuation c then cp_drop n s'
      else match n with
           | O => s
           | S n' => cp_drop n' s'
           end
  end.

(** [text[a:b]] *)
Definition cp_slice (text : string) (a b : Z) : string :=
  let len := Z.of_nat (cp_length text) in
  let a := py_index len a in
  let b := py_index len b in
  cp_take (Z.to_nat (b - a)) (cp_drop (Z.to_nat a) text).

(** The scan of [rfind] between two positions: [i] is the index of the
    code point to come and [last] the last index found. *)
Fixpoint cp_rfind_between (ch : ascii) (s : string) (a b i last : Z) : Z :=
  match s with
  | EmptyString => last
  | String c s' =>
      if is_continuation c then cp_rfind_between ch s' a b i last
      else cp_rfind_between ch s' a b (i + 1)%Z
             (if Ascii.eqb c ch && (a <=? i)%Z && (i <? b)%Z then i else last)
  end.

(** [text.rfind(ch, a, b)] for an ASCII [ch] *)
Definition cp_rfind_in (ch : ascii) (text : string) (a b : Z) : Z :=
  let len := Z.of_nat (cp_length text) in
  cp_rfind_between ch text (py_index len a) (py_index len b) 0%Z (-1)%Z.

Section Chunking.
Context {E : Env}.

(** [config.MIN_CHUNK_SIZE] *)
Variable MIN_CHUNK_SIZE : Z.

(** One turn of the [while] loop at [start]: [inl] is the [break], [inr]
    the next [start]. *)
Definition chunk_step (text : string) (max_length overlap start : Z)
  (chunks : list string) : list string + Z * list string :=
  let len := Z.of_nat (cp_length text) in
  let end_ := Z.min (start + max_length) len in
  let end_ :=
    if (end_ <? len)%Z then
      let space_pos := cp_rfind_in " " text start end_ in
      if negb (space_pos =? -1)%Z && (start + MIN_CHUNK_SIZE <? space_pos)%Z
      then space_pos else end_
    else end_ in
  let chunk := str_strip (cp_slice text start end_) in
  let chunks :=
    if (MIN_CHUNK_SIZE <=? Z.of_nat (cp_length chunk))%Z then chunks ++ [chunk]
    else chunks in
  if (len <=? end_)%Z then inl chunks else inr ((end_ - overlap)%Z, chunks).

(** The [while] loop; [None] when the fuel runs out before it ends. *)
Fixpoint chunk_loop (fuel : nat) (text : string) (max_length overlap start : Z)
  (chunks : list string) : option (list string) :=
  match fuel with
  | O => None
  | S fuel' =>
      if (start <? Z.of_nat (cp_length text))%Z then
        match chunk_step text max_length overlap start chunks with
        | inl chunks => Some chunks
        | inr (start, chunks) => chunk_loop fuel' text max_length overlap start chunks
        end
      else Some chunks
  end.

Definition chunk_text_with_overlap (fuel : nat) (text : string) (max_length overlap : Z)
  : option (list string) :=
  if (Z.of_nat (cp_length text) <=? max_length)%Z then Some [text]
  else chunk_loop fuel text max_length overlap 0%Z [].

End Chunking.

(* ================================================================== *)
(** * search/traditional_search.py: class TraditionalSearchEngine *)

Section TraditionalSearch.
Context {E : Env}.
Import OrderedDict.

(** [docs] and [metadatas] are parallel lists of one length (both come from
    [VectorSearchEngine.get_documents]); the loops read them in step. *)
Record TraditionalSearchEngine := {
  docs : list string;
  metadatas : list metadata
}.

(** The dict appended for a hit. *)
Definition hit (text : string) (m : metadata) : result :=
  {| r_text := truncate_text text;
     r_title := m_title m;
     r_source := m_source m;
     r_decision_id := m_decision_id m;
     r_case_type := or_default (m_case_type m) "ไม่ระบุ";
     r_judges := m_judges m;
     r_similarity := Some (PyNum 1%Q);
     r_keywords := m_keywords m;
     r_litigants := m_litigants m;
     r_related_sections := m_related_sections m;
     r_full_summary := m_full_summary m;
     r_graph_context := None;
     r_enhanced_similarity := None;
     r_graph_relevance := None |}.

(** The loop the three searches share: a matching chunk whose case was not
    seen yet is appended, and the loop breaks once [k] results are held. *)
Fixpoint scan (matches : metadata -> string -> bool) (k : nat)
  (items : list (metadata * string)) (results : list result) (seen_cases : PySet.t)
  : list result :=
  match items with
  | [] => results
  | (m, text) :: rest =>
      if matches m text then
        let decision_id := m_decision_id m in
        if PySet.mem decision_id seen_cases then scan matches k rest results seen_cases
        else
          let results' := results ++ [hit text m] in
          if k <=? length results' then results'
          else scan matches k rest results' (PySet.add seen_cases decision_id)
      else scan matches k rest results seen_cases
  end.

Definition slash : ascii := "/"%char.
Definition dash : ascii := "-"%char.

(** The list [matches] of [search_by_case_number], under [any]. *)
Definition case_number_matches (clean_case_number : string) (m : metadata) : bool :=
  let decision_id := m_decision_id m in
  String.eqb clean_case_number decision_id
  || String.eqb (str_replace slash dash clean_case_number) decision_id
  || String.eqb (str_replace dash slash clean_case_number) decision_id.

Definition search_by_case_number (eng : TraditionalSearchEngine) (case_number : string)
  (k : nat) : list result :=
  let clean_case_number := str_strip case_number in
  scan (fun m _ => case_number_matches clean_case_number m) k
       (combine (metadatas eng) (docs eng)) [] [].

(** The three grounds on which [search_by_judge] keeps a chunk. *)
Definition judge_ground (matched_judges : list string) (m : metadata) : bool :=
  existsb (fun judge => PySet.mem judge matched_judges) (m_judges m).

Definition normalized_ground (query_normalized : string) (m : metadata) : bool :=
  existsb (fun judge_norm =>
             str_in query_normalized judge_norm || str_in judge_norm query_normalized)
          (m_judges_normalized m).

Definition text_ground (judge_name query_normalized text : string) : bool :=
  let text_lower := str_lower text in
  str_in (str_lower judge_name) text_lower || str_in query_normalized text_lower.

Definition search_by_judge (eng : TraditionalSearchEngine) (judge_name : string)
  (k : nat) : list result :=
  let query_normalized := normalize_judge_name judge_name in
  let all_judges := flat_map m_judges (metadatas eng) in
  let matched_judges := find_best_match judge_name all_judges 0.5%Q in
  scan (fun m text =>
          judge_ground matched_judges m
          || normalized_ground query_normalized m
          || text_ground judge_name query_normalized text)
       k (combine (metadatas eng) (docs eng)) [] [].

Definition search_by_case_type (eng : TraditionalSearchEngine) (case_type : string)
  (k : nat) : list result :=
  scan (fun m _ => String.eqb (or_default (m_case_type m) "") case_type) k
       (combine (metadatas eng) (docs eng)) [] [].

End TraditionalSearch.

(* ================================================================== *)
(** * search/graphrag_search.py: class GraphRAGSearchEngine *)

Section GraphRAGSearch.
Context {E : Env}.
Import OrderedDict.

(** [graph_retriever] holds the very object [knowledge_graph] names, so one
    field stands for both. *)
Record GraphRAGSearchEngine := {
  knowledge_graph : option LegalKnowledgeGraph;
  _is_loaded : bool
}.

Definition new_engine : GraphRAGSearchEngine :=
  {| knowledge_graph := None; _is_loaded := false |}.

Definition initialize (eng : GraphRAGSearchEngine) : GraphRAGSearchEngine :=
  if _is_loaded eng then eng
  else {| knowledge_graph := Some (new_knowledge_graph EMBEDDINGS_FOLDER GRAPHS_FOLDER);
          _is_loaded := true |}.

Definition no_cases_error : exn := ValueError "No cases data provided for graph building".

(** [load_or_build_graph(cases_data)]; [None] is the default argument.
    Nothing in it handles what [build_graph] or [save_graph] raise. *)
Definition load_or_build_graph (eng : GraphRAGSearchEngine) (fs : filesystem)
  (write_error : string -> option string) (cases_data : option (list case_record))
  : outcome (GraphRAGSearchEngine * filesystem) :=
  let eng := if negb (_is_loaded eng) then initialize eng else eng in
  match knowledge_graph eng with
  | None => Raise (AttributeError "'NoneType' object has no attribute 'load_graph'")
  | Some kg =>
      let '(loaded, kg) := load_graph kg fs default_filename in
      if negb loaded then
        match cases_data with
        | None | Some [] => Raise no_cases_error
        | Some cases =>
            kg <- build_graph_records kg cases ;;
            let kg := detect_communities kg in
            fs <- save_graph_to_disk write_error kg fs default_filename ;;
            Return ({| knowledge_graph := Some kg; _is_loaded := _is_loaded eng |}, fs)
        end
      else Return ({| knowledge_graph := Some kg; _is_loaded := _is_loaded eng |}, fs)
  end.

(** The call inside the [try] block of [search_with_graphrag]. *)
Definition enhancement_step (eng : GraphRAGSearchEngine) (query : string)
  (vector_results : list result) : outcome (list result) :=
  match knowledge_graph eng with
  | None =>
      Raise (AttributeError
               "'NoneType' object has no attribute 'retrieve_with_graph_context'")
  | Some kg =>
      retrieve_with_graph_context kg query vector_results MAX_GRAPH_DEPTH 0.3%Q
  end.

Definition not_initialized : exn := RuntimeError "GraphRAG engine not initialized".

Definition search_with_graphrag (eng : GraphRAGSearchEngine) (query : string)
  (vector_results : list result) (k : nat) : outcome (list result) :=
  if negb (_is_loaded eng) then Raise not_initialized
  else
    match enhancement_step eng query vector_results with
    | Return enhanced_results => Return (firstn k enhanced_results)
    | Raise _ => Return vector_results
    end.

End GraphRAGSearch.

(* ================================================================== *)
(** * search/search_manager.py: class SearchManager *)

Section Manager.
Context {E : Env}.
Import OrderedDict.

Record SearchManager := {
  traditional_engine : TraditionalSearchEngine;
  graphrag_engine : GraphRAGSearchEngine
}.

(** One turn of the loop of [_convert_metadata_to_cases]. *)
Definition convert_step (acc : list case_record * PySet.t) (meta : metadata)
  : list case_record * PySet.t :=
  let '(cases_data, seen_cases) := acc in
  let decision_id := m_decision_id meta in
  if truthy decision_id && negb (PySet.mem decision_id seen_cases)
  then (cases_data ++
          [{| cr_decision_id := decision_id;
              cr_title := m_title meta;
              cr_summary := m_full_summary meta;
              cr_full_text := "";
              cr_judges := m_judges meta;
              cr_case_type := or_default (m_case_type meta) "";
              cr_litigants := m_litigants meta;
              cr_related_sections := m_related_sections meta |}],
        PySet.add seen_cases decision_id)
  else acc.

Definition _convert_metadata_to_cases (metadatas : list metadata) : list case_record :=
  fst (fold_left convert_step metadatas ([], [])).

Definition _search_with_graphrag (sm : SearchManager) (query : string) (k : nat)
  : outcome (list result) :=
  let vector_results := search_similar query k in
  search_with_graphrag (graphrag_engine sm) query vector_results k.

(** The merge of the case-type branch: type hits first, then the graph
    results, one entry per decision id. *)
Definition merge_step (acc : list result * PySet.t) (r : result) : list result * PySet.t :=
  let '(combined_results, seen_cases) := acc in
  if negb (PySet.mem (r_decision_id r) seen_cases)
  then (combined_results ++ [r], PySet.add seen_cases (r_decision_id r))
  else acc.

(** [judge_name] and [case_type] hold a non-empty string. *)
Definition given (o : option string) : option string :=
  match o with
  | Some s => if truthy s then Some s else None
  | None => None
  end.

(** The steps of [_combined_search] after the judge steps. *)
Definition case_type_steps (sm : SearchManager) (query : string)
  (case_type : option string) (k : nat) : outcome (list result) :=
  let by_keyword :=
    match extract_case_type query with
    | Some extracted_case_type =>
        match search_by_case_type (traditional_engine sm) extracted_case_type k with
        | [] => _search_with_graphrag sm query k
        | results => Return results
        end
    | None => _search_with_graphrag sm query k
    end in
  match given case_type with
  | Some ct =>
      match search_by_case_type (traditional_engine sm) ct k with
      | [] => by_keyword
      | case_results =>
          graphrag_results <- _search_with_graphrag sm query k ;;
          let acc := fold_left merge_step case_results ([], []) in
          let acc := fold_left merge_step graphrag_results acc in
          Return (firstn k (fst acc))
      end
  | None => by_keyword
  end.

(** The steps of [_combined_search] after the case-number step. *)
Definition judge_steps (sm : SearchManager) (query : string)
  (case_type judge_name : option string) (k : nat) : outcome (list result) :=
  let in_query :=
    match re_search "ผู้พิพากษา\s*(\w+)" query with
    | Some groups =>
        let judge := nth 1 groups "" in
        match search_by_judge (traditional_engine sm) judge k with
        | [] => case_type_steps sm query case_type k
        | results => Return results
        end
    | None => case_type_steps sm query case_type k
    end in
  match given judge_name with
  | Some name =>
      match search_by_judge (traditional_engine sm) name k with
      | [] => in_query
      | results => Return results
      end
  | None => in_query
  end.

Definition _combined_search (sm : SearchManager) (query : string)
  (case_type judge_name : option string) (k : nat) : outcome (list result) :=
  match re_search "\d+/\d+" query with
  | Some _ =>
      match search_by_case_number (traditional_engine sm) query k with
      | [] => judge_steps sm query case_type judge_name k
      | results => Return results
      end
  | None => judge_steps sm query case_type judge_name k
  end.

(** [SearchManager.initialize()] on a manager not yet initialized, once
    the vector engine is up: [docs] and [metadatas] are what
    [vector_engine.get_documents()] returns. *)
Definition SearchManager_initialize (docs : list string) (metadatas : list metadata)
  (fs : filesystem) (write_error : string -> option string)
  : outcome (SearchManager * filesystem) :=
  let traditional_engine := {| docs := docs; metadatas := metadatas |} in
  let graphrag_engine := initialize new_engine in
  let cases_data := _convert_metadata_to_cases metadatas in
  loaded <- load_or_build_graph graphrag_engine fs write_error (Some cases_data) ;;
  Return ({| traditional_engine := traditional_engine;
             graphrag_engine := fst loaded |}, snd loaded).

End Manager.

(* ================================================================== *)
(** * A concrete environment for closed examples

    The functions below interpret the library calls on text made of ASCII
    and Thai characters, which is what the examples use: whitespace is the
    ASCII whitespace, a digit is an ASCII or a Thai digit, a word character
    is an ASCII letter, digit or underscore or a Thai letter or digit (the
    Thai combining vowels and tone marks are not word characters for
    Python's [\w]), ASCII letters are the only cased ones, and a pattern
    is interpreted only when it is one the program uses. *)

Module PyModel.

(** The code points of a string, each as the string of its UTF-8 bytes. *)
Definition begins_with_continuation (s : string) : bool :=
  match s with
  | String c _ => is_continuation c
  | EmptyString => false
  end.

Fixpoint chunks (s : string) : list string :=
  match s with
  | EmptyString => []
  | String c s' =>
      match chunks s' with
      | ch :: rest =>
          if begins_with_continuation ch then String c ch :: rest
          else String c EmptyString :: ch :: rest
      | [] => [String c EmptyString]
      end
  end.

Definition unchunk (l : list string) : string := String.concat "" l.

Definition byte_in (lo hi : nat) (c : ascii) : bool :=
  (lo <=? nat_of_ascii c) && (nat_of_ascii c <=? hi).

(** The offset of a Thai code point from U+0E00. *)
Definition thai_offset (ch : string) : option nat :=
  match ch with
  | String a (String b (String c EmptyString)) =>
      if (nat_of_ascii a =? 224) && byte_in 184 185 b && byte_in 128 191 c
      then Some ((nat_of_ascii b - 184) * 64 + (nat_of_ascii c - 128))
      else None
  | _ => None
  end.

Definition is_space (ch : string) : bool :=
  match ch with
  | String c EmptyString => byte_in 9 13 c || byte_in 28 32 c
  | _ => false
  end.

Definition is_digit (ch : string) : bool :=
  match ch with
  | String c EmptyString => byte_in 48 57 c
  | _ => match thai_offset ch with
         | Some o => (80 <=? o) && (o <=? 89)
         | None => false
         end
  end.

Definition is_word (ch : string) : bool :=
  match ch with
  | String c EmptyString =>
      byte_in 48 57 c || byte_in 65 90 c || byte_in 97 122 c || (nat_of_ascii c =? 95)
  | _ => match thai_offset ch with
         | Some o =>
             ((1 <=? o) && (o <=? 48)) || ((50 <=? o) && (o <=? 51))
             || ((64 <=? o) && (o <=? 70)) || ((80 <=? o) && (o <=? 89))
         | None => false
         end
  end.

Fixpoint span {A : Type} (p : A -> bool) (l : list A) : list A * list A :=
  match l with
  | [] => ([], [])
  | x :: l' => if p x then let '(a, b) := span p l' in (x :: a, b) else ([], l)
  end.

Fixpoint strip_prefix (lit l : list string) : option (list string) :=
  match lit, l with
  | [], _ => Some l
  | x :: lit', y :: l' => if String.eqb x y then strip_prefix lit' l' else None
  | _ :: _, [] => None
  end.

Fixpoint lower (s : string) : string :=
  match s with
  | EmptyString => EmptyString
  | String c s' =>
      String (if byte_in 65 90 c then ascii_of_nat (nat_of_ascii c + 32) else c) (lower s')
  end.

Definition strip (s : string) : string :=
  unchunk (rev (snd (span is_space (rev (snd (span is_space (chunks s))))))).

(** [split] keeps the word being read in [word]. *)
Fixpoint split_from (l : list string) (word : list string) : list string :=
  match l with
  | [] => match word with [] => [] | _ => [unchunk (rev word)] end
  | ch :: l' =>
      if is_space ch
      then match word with
           | [] => split_from l' []
           | _ => unchunk (rev word) :: split_from l' []
           end
      else split_from l' (ch :: word)
  end.

Definition split (s : string) : list string := split_from (chunks s) [].

(** [re.sub('\s+', repl, s)] *)
Fixpoint collapse (repl : string) (in_run : bool) (l : list string) : list string :=
  match l with
  | [] => []
  | ch :: l' =>
      if is_space ch
      then if in_run then collapse repl true l' else repl :: collapse repl true l'
      else ch :: collapse repl false l'
  end.

(** The literal a pattern stands for: [\.] is a dot. *)
Fixpoint unescape (l : list string) : list string :=
  match l with
  | "\" :: "." :: l' => "." :: unescape l'
  | ch :: l' => ch :: unescape l'
  | [] => []
  end.

(** The middle of a pattern [^...\s*], when it has that shape. *)
Definition anchored_literal (pattern : string) : option (list string) :=
  match chunks pattern with
  | "^" :: body =>
      match rev body with
      | "*" :: "s" :: "\" :: middle => Some (unescape (rev middle))
      | _ => None
      end
  | _ => None
  end.

Definition is_stripped_punctuation (ch : string) : bool :=
  is_digit ch || existsb (String.eqb ch) ["."; ","; "("; ")"; "-"; ":"].

Definition sub (pattern repl s : string) : string :=
  if String.eqb pattern "\s+" then unchunk (collapse repl false (chunks s))
  else if String.eqb pattern "[\d\.\,\(\)\-\:]"
  then unchunk (map (fun ch => if is_stripped_punctuation ch then repl else ch) (chunks s))
  else
    match anchored_literal pattern with
    | Some lit =>
        match strip_prefix lit (chunks s) with
        | Some rest => (repl ++ unchunk (snd (span is_space rest)))%string
        | None => s
        end
    | None => s
    end.

(** A match of [\d+/\d+] at the head of [l]. *)
Definition case_number_here (l : list string) : option string :=
  let '(d1, r1) := span is_digit l in
  match d1, r1 with
  | _ :: _, "/" :: r2 =>
      match span is_digit r2 with
      | ((_ :: _) as d2, _) => Some (unchunk d1 ++ "/" ++ unchunk d2)%string
      | _ => None
      end
  | _, _ => None
  end.

Fixpoint search_case_number (l : list string) : option (list string) :=
  match case_number_here l with
  | Some m => Some [m]
  | None => match l with [] => None | _ :: l' => search_case_number l' end
  end.

(** A match of [lit\s*(\w+)] at the head of [l]: the match, its group and
    what follows. *)
Definition judge_here (lit l : list string) : option (string * string * list string) :=
  match strip_prefix lit l with
  | Some rest =>
      let '(sp, rest1) := span is_space rest in
      match span is_word rest1 with
      | ((_ :: _) as w, rest2) =>
          Some ((unchunk lit ++ unchunk sp ++ unchunk w)%string, unchunk w, rest2)
      | _ => None
      end
  | None => None
  end.

Definition judge_literal : list string := chunks "ผู้พิพากษา".

Fixpoint search_judge (l : list string) : option (list string) :=
  match judge_here judge_literal l with
  | Some (m, g, _) => Some [m; g]
  | None => match l with [] => None | _ :: l' => search_judge l' end
  end.

Fixpoint findall_judge (fuel : nat) (l : list string) : list string :=
  match fuel with
  | O => []
  | S fuel' =>
      match judge_here judge_literal l with
      | Some (_, g, rest) => g :: findall_judge fuel' rest
      | None => match l with [] => [] | _ :: l' => findall_judge fuel' l' end
      end
  end.

(** A match of [\d{2,6}/\d{2,4}] at the head of [l] and what follows. *)
Definition bounded_case_number_here (l : list string) : option (string * list string) :=
  let '(d1, r1) := span is_digit l in
  if (2 <=? length d1) && (length d1 <=? 6) then
    match r1 with
    | "/" :: r2 =>
        let '(d2, r3) := span is_digit r2 in
        if 2 <=? length d2
        then Some ((unchunk d1 ++ "/" ++ unchunk (firstn 4 d2))%string, skipn 4 d2 ++ r3)
        else None
    | _ => None
    end
  else None.

Fixpoint findall_case_number (fuel : nat) (l : list string) : list string :=
  match fuel with
  | O => []
  | S fuel' =>
      match bounded_case_number_here l with
      | Some (m, rest) => m :: findall_case_number fuel' rest
      | None => match l with [] => [] | _ :: l' => findall_case_number fuel' l' end
      end
  end.

Definition search (pattern s : string) : option (list string) :=
  if String.eqb pattern "\d+/\d+" then search_case_number (chunks s)
  else if String.eqb pattern "ผู้พิพากษา\s*(\w+)" then search_judge (chunks s)
  else None.

Definition findall (pattern s : string) : list string :=
  if String.eqb pattern "\d{2,6}/\d{2,4}"
  then findall_case_number (S (String.length s)) (chunks s)
  else if String.eqb pattern "ผู้พิพากษา\s*(\w+)"
  then findall_judge (S (String.length s)) (chunks s)
  else [].

(** Stand-ins for the numeric libraries, exact where the examples use
    them: the ratio of two equal strings is 1 and of two strings without a
    common character 0; the cosine of two identical documents is 1 and of
    two documents without a common token 0. *)
Definition ratio (a b : string) : Q := if String.eqb a b then 1%Q else 0%Q.

Definition cosine (documents : list string) : option (list (list Q)) :=
  Some (map (fun a => map (fun b => if String.eqb a b then 1%Q else 0%Q) documents)
            documents).

End PyModel.

(** [pickle] stores the object itself; the vector index is empty; Louvain
    is taken to fail, which leaves the communities as they are. *)
Definition py : Env := {|
  str_lower := PyModel.lower;
  str_strip := PyModel.strip;
  str_split := PyModel.split;
  unicodedata_normalize := fun _ s => s;
  re_sub := PyModel.sub;
  re_search := PyModel.search;
  re_findall := PyModel.findall;
  SequenceMatcher_ratio := PyModel.ratio;
  tfidf_cosine_similarity := PyModel.cosine;
  best_partition := fun _ => None;
  file_content := graph_data;
  pickle_dump := fun d => d;
  pickle_load := fun c => Some c;
  search_similar := fun _ _ => [];
  EMBEDDINGS_FOLDER := "data/embeddings";
  GRAPHS_FOLDER := "data/graphs";
  MAX_CONTEXT := 1000;
  MAX_GRAPH_DEPTH := 3;
  MAX_DISPLAY_LENGTH := 150
|}.

(** The same environment with a Louvain that answers: the three theft
    cases in community 0, the judge alone in community 1. *)
Definition py_louvain : Env := {|
  str_lower := PyModel.lower;
  str_strip := PyModel.strip;
  str_split := PyModel.split;
  unicodedata_normalize := fun _ s => s;
  re_sub := PyModel.sub;
  re_search := PyModel.search;
  re_findall := PyModel.findall;
  SequenceMatcher_ratio := PyModel.ratio;
  tfidf_cosine_similarity := PyModel.cosine;
  best_partition := fun _ => Some [("101/2566", 0%Z); ("102/2566", 0%Z);
                                   ("สมชาย", 1%Z); ("103/2566", 0%Z)];
  file_content := graph_data;
  pickle_dump := fun d => d;
  pickle_load := fun c => Some c;
  search_similar := fun _ _ => [];
  EMBEDDINGS_FOLDER := "data/embeddings";
  GRAPHS_FOLDER := "data/graphs";
  MAX_CONTEXT := 1000;
  MAX_GRAPH_DEPTH := 3;
  MAX_DISPLAY_LENGTH := 150
|}.

(** Patterns that are alternatives of literals, as [detect_case_type] has
    them.  An alternative with an operator in it is not interpreted, so the
    search is exact on a text that no such alternative matches. *)
Module PyAlternation.

Fixpoint alternatives_from (l current : list string) : list (list string) :=
  match l with
  | [] => [rev current]
  | ch :: l' =>
      if String.eqb ch "|" then rev current :: alternatives_from l' []
      else alternatives_from l' (ch :: current)
  end.

Definition alternatives (pattern : string) : list (list string) :=
  alternatives_from (PyModel.chunks pattern) [].

Definition is_operator (ch : string) : bool :=
  existsb (String.eqb ch)
    ["\"; "."; "*"; "+"; "?"; "("; ")"; "["; "]"; "{"; "}"; "^"; "$"].

Definition is_literal (alt : list string) : bool := negb (existsb is_operator alt).

(** The first alternative that matches at the head of [l]. *)
Definition alternative_here (alts : list (list string)) (l : list string)
  : option (list string) :=
  find (fun alt => is_literal alt
                   && match PyModel.strip_prefix alt l with
                      | Some _ => true
                      | None => false
                      end) alts.

Fixpoint search_alternatives (alts : list (list string)) (l : list string)
  : option (list string) :=
  match alternative_here alts l with
  | Some alt => Some [PyModel.unchunk alt]
  | None => match l with
            | [] => None
            | _ :: l' => search_alternatives alts l'
            end
  end.

Definition search (pattern s : string) : option (list string) :=
  match alternatives pattern with
  | (_ :: _ :: _) as alts => search_alternatives alts (PyModel.chunks s)
  | _ => PyModel.search pattern s
  end.

End PyAlternation.

(** The environment [py] with the search that reads alternatives. *)
Definition py_alternation : Env := {|
  str_lower := PyModel.lower;
  str_strip := PyModel.strip;
  str_split := PyModel.split;
  unicodedata_normalize := fun _ s => s;
  re_sub := PyModel.sub;
  re_search := PyAlternation.search;
  re_findall := PyModel.findall;
  SequenceMatcher_ratio := PyModel.ratio;
  tfidf_cosine_similarity := PyModel.cosine;
  best_partition := fun _ => None;
  file_content := graph_data;
  pickle_dump := fun d => d;
  pickle_load := fun c => Some c;
  search_similar := fun _ _ => [];
  EMBEDDINGS_FOLDER := "data/embeddings";
  GRAPHS_FOLDER := "data/graphs";
  MAX_CONTEXT := 1000;
  MAX_GRAPH_DEPTH := 3;
  MAX_DISPLAY_LENGTH := 150
|}.

Example py_regex_test :
  PyModel.search "ผู้พิพากษา\s*(\w+)" "ผู้พิพากษา สมชาย" = Some ["ผู้พิพากษา สมชาย"; "สมชาย"]
  /\ PyModel.findall "\d{2,6}/\d{2,4}" "คดี 1234567/25661 และ 12/2566" = ["234567/2566"; "12/2566"]
  /\ PyModel.search "\d+/\d+" "ลักทรัพย์" = None
  /\ PyModel.sub "^ดร\.\s*" "" "ดร. สมชาย" = "สมชาย"
  /\ PyModel.sub "\s+" " " "a   b  c" = "a b c"
  /\ PyModel.split " a  bc d " = ["a"; "bc"; "d"]
  /\ PyModel.strip "  สมชาย " = "สมชาย"
  /\ PyModel.search "ผู้พิพากษา\s*(\w+)" "ผู้พิพากษาวิชัย" = Some ["ผู้พิพากษาว"; "ว"].
Proof. vm_compute. repeat split. Qed.

(* ================================================================== *)
(** * Closed inputs used by the examples *)

Module Examples.

Definition mk_case (decision_id : string) (judges : list string) (case_type summary : string)
  : case_data :=
  {| cd_decision_id := decision_id; cd_title := ""; cd_summary := summary;
     cd_full_text := ""; cd_judges := judges; cd_case_type := case_type;
     cd_litigants := []; cd_related_sections := [] |}.

(** Three theft cases heard by one judge, and a fourth case of the same
    judge on another matter. *)
Definition theft_corpus : list case_data :=
  [mk_case "101/2566" ["สมชาย"] "อาญา" "ลักทรัพย์";
   mk_case "102/2566" ["สมชาย"] "อาญา" "ลักทรัพย์";
   mk_case "103/2566" ["สมชาย"] "อาญา" "ลักทรัพย์";
   mk_case "104/2566" ["สมชาย"] "" "test document"].

Definition theft_kg : LegalKnowledgeGraph :=
  build_graph (E := py) (new_knowledge_graph "data/embeddings" "data/graphs") theft_corpus.

Definition with_communities (kg : LegalKnowledgeGraph) (c : dict Z (list string))
  : LegalKnowledgeGraph :=
  {| embeddings_folder := embeddings_folder kg; graphs_folder := graphs_folder kg;
     graph := graph kg; communities := c;
     case_documents := case_documents kg; entity_types := entity_types kg |}.

(** A vector candidate as [search_similar] builds it. *)
Definition candidate (decision_id : string) (similarity : option pyval) : result :=
  {| r_text := "ลักทรัพย์"; r_title := ""; r_source := "cases.json";
     r_decision_id := decision_id; r_case_type := "อาญา"; r_judges := ["สมชาย"];
     r_similarity := similarity; r_keywords := []; r_litigants := [];
     r_related_sections := Some []; r_full_summary := "ลักทรัพย์";
     r_graph_context := None; r_enhanced_similarity := None;
     r_graph_relevance := None |}.

(** A labour case: its detected type and a term of its summary are the
    same string. *)
Definition labour_corpus : list case_data :=
  [mk_case "55/2565" [] "แรงงาน" "ลูกจ้างฟ้องนายจ้างต่อศาลแรงงาน"].

Definition fresh_kg : LegalKnowledgeGraph :=
  new_knowledge_graph "data/embeddings" "data/graphs".

(** One chunk of a case that lists no judge; its text names a witness. *)
Definition witness_meta : metadata :=
  {| m_source := "cases.json"; m_title := "คดีลักทรัพย์"; m_decision_id := "77/2560";
     m_case_type := Some "อาญา"; m_judges := []; m_judges_normalized := [];
     m_keywords := ["ลักทรัพย์"]; m_litigants := []; m_related_sections := Some [];
     m_full_summary := "นายสมชาย ให้การเป็นพยานโจทก์ในคดีลักทรัพย์" |}.

Definition witness_text : string := "นายสมชาย ให้การเป็นพยานโจทก์ในคดีลักทรัพย์".

(** One chunk of a case whose decision id carries a court prefix. *)
Definition prefixed_meta : metadata :=
  {| m_source := "cases.json"; m_title := "คดีแพ่ง"; m_decision_id := "ฎีกาที่ 123/2566";
     m_case_type := Some "แพ่ง"; m_judges := []; m_judges_normalized := [];
     m_keywords := []; m_litigants := []; m_related_sections := Some [];
     m_full_summary := "ผิดสัญญา" |}.

(** One chunk of a case whose decision id is a bare case number. *)
Definition bare_meta : metadata :=
  {| m_source := "cases.json"; m_title := "คดีแพ่ง"; m_decision_id := "123/2566";
     m_case_type := Some "แพ่ง"; m_judges := []; m_judges_normalized := [];
     m_keywords := []; m_litigants := []; m_related_sections := Some [];
     m_full_summary := "ผิดสัญญา" |}.

Definition manager (docs : list string) (metadatas : list metadata) : SearchManager :=
  {| traditional_engine := {| docs := docs; metadatas := metadatas |};
     graphrag_engine := initialize (E := py) (new_engine) |}.

(** An initialized engine holding the theft graph. *)
Definition theft_engine : GraphRAGSearchEngine :=
  {| knowledge_graph := Some theft_kg; _is_loaded := true |}.

Definition no_files : filesystem (E := py) := fun _ => None.

(** A disk that takes every write. *)
Definition writable : string -> option string := fun _ => None.

(** A civil case whose record came with [related_sections] null. *)
Definition null_sections_case : case_record :=
  {| cr_decision_id := "55/2561"; cr_title := "คดีแพ่ง"; cr_summary := "ผิดสัญญา";
     cr_full_text := ""; cr_judges := []; cr_case_type := "แพ่ง";
     cr_litigants := []; cr_related_sections := None |}.

(** The same chunk as [bare_meta], read from a file that has
    [related_sections] null. *)
Definition null_sections_meta : metadata :=
  {| m_source := "cases.json"; m_title := "คดีแพ่ง"; m_decision_id := "123/2566";
     m_case_type := Some "แพ่ง"; m_judges := []; m_judges_normalized := [];
     m_keywords := []; m_litigants := []; m_related_sections := None;
     m_full_summary := "ผิดสัญญา" |}.

(** A small knowledge graph: a judge, a concept and a case, the judge and
    the concept joined by a [deals_with] edge of weight 2, all three in
    one community. *)
Definition small_kg : LegalKnowledgeGraph :=
  {| embeddings_folder := "data/embeddings";
     graphs_folder := "data/graphs";
     graph :=
       Nx.add_edge
         (Nx.add_node (Nx.add_node (Nx.add_node Nx.empty "9/2560" "case") "สมชาย" "judge")
                      "มรดก" "legal_concept")
         "สมชาย" "มรดก" "deals_with" (Some 2%Q);
     communities := [(0%Z, ["9/2560"; "สมชาย"; "มรดก"])];
     case_documents := [("9/2560", "มรดก")];
     entity_types := [("case", ["9/2560"]); ("judge", ["สมชาย"]);
                      ("legal_concept", ["มรดก"])] |}.

End Examples.


(* ================================================================== *)
(** * Vocabulary of the properties *)

Section Vocabulary.
Context {E : Env}.
Import OrderedDict.

(** [{x, y} = {u, v}] as unordered pairs. *)
Definition pair_eqb (x y u v : string) : bool :=
  (String.eqb x u && String.eqb y v) || (String.eqb x v && String.eqb y u).





(** The type under which the collection loop of [build_graph] meets an
    identifier for the first time: cases in order, and within a case the
    types in the order of [entities.items()]. *)
Definition type_in (entities : dict string PySet.t) (e : string) : option string :=
  option_map fst (find (fun '(_, entity_set) => PySet.mem e entity_set) entities).

Fixpoint first_seen_type (cases_data : list case_data) (e : string) : option string :=
  match cases_data with
  | [] => None
  | c :: rest =>
      if truthy (cd_decision_id c)
      then match type_in (extract_entities c) e with
           | Some t => Some t
           | None => first_seen_type rest e
           end
      else first_seen_type rest e
  end.

(** The last type of [all_entities.items()] whose set holds the identifier. *)
Definition later_type (e : string) (acc : option string) (item : string * PySet.t)
  : option string :=
  let '(entity_type, entity_set) := item in
  if PySet.mem e entity_set then Some entity_type else acc.

Definition last_type (all : dict string PySet.t) (e : string) : option string :=
  fold_left (later_type e) all None.

(** A bare case number: digits, one [/] or [-], digits. *)
Definition is_ascii_digit (c : ascii) : bool :=
  (48 <=? nat_of_ascii c) && (nat_of_ascii c <=? 57).

Definition is_separator (c : ascii) : bool := Ascii.eqb c slash || Ascii.eqb c dash.

Fixpoint all_digits (s : string) : bool :=
  match s with
  | EmptyString => true
  | String c s' => is_ascii_digit c && all_digits s'
  end.

Fixpoint digits_then_number (s : string) : bool :=
  match s with
  | EmptyString => false
  | String c s' =>
      if is_ascii_digit c then digits_then_number s'
      else is_separator c && truthy s' && all_digits s'
  end.

Definition bare_case_number (s : string) : bool :=
  match s with
  | EmptyString => false
  | String c s' => is_ascii_digit c && digits_then_number s'
  end.

(** The case-number step of [_combined_search] produced nothing. *)
Definition no_case_number_match (sm : SearchManager) (query : string) (k : nat) : Prop :=
  re_search "\d+/\d+" query = None
  \/ search_by_case_number (traditional_engine sm) query k = [].

(** [_combined_search] answers from the judge search for [name]: through
    the [judge_name] filter, or through the judge mention in the query
    once the filter is absent or found nothing. *)
Inductive routes_to_judge_search (sm : SearchManager) (query : string)
  (judge_name : option string) (k : nat) : string -> Prop :=
| route_by_filter : forall name,
    given judge_name = Some name ->
    search_by_judge (traditional_engine sm) name k <> [] ->
    routes_to_judge_search sm query judge_name k name
| route_by_query : forall groups,
    (given judge_name = None
     \/ exists name', given judge_name = Some name'
                      /\ search_by_judge (traditional_engine sm) name' k = []) ->
    re_search "ผู้พิพากษา\s*(\w+)" query = Some groups ->
    search_by_judge (traditional_engine sm) (nth 1 groups "") k <> [] ->
    routes_to_judge_search sm query judge_name k (nth 1 groups "").

(** Some judge of the chunk has a normalized name that overlaps the
    normalized query name: containment either way, or a ratio of at least
    0.5. *)
Definition judge_overlaps (name : string) (m : metadata) : Prop :=
  exists judge,
    In judge (m_judges m)
    /\ name_overlaps 0.5%Q (normalize_judge_name name) judge = true.

(** A stored normalized name contains, or is contained in, the normalized
    query name. *)
Definition stored_name_overlaps (name : string) (m : metadata) : Prop :=
  exists judge_norm,
    In judge_norm (m_judges_normalized m)
    /\ (str_in (normalize_judge_name name) judge_norm
        || str_in judge_norm (normalize_judge_name name)) = true.

(** The text of the chunk mentions the name. *)
Definition text_mentions (name text : string) : Prop :=
  text_ground name (normalize_judge_name name) text = true.

End Vocabulary.

(** Every weight stored on an edge is positive. *)
Definition positive_weights (g : Nx.Graph) : Prop :=
  forall x y d w,
    Nx.get_edge_data g x y = Some d -> Nx.weight d = Some w -> (0 < w)%Q.

(** The similarity a candidate carries is a number of [0, 1] (an absent
    key stands for 0.5). *)
Definition similarity_in_unit (r : result) : Prop :=
  match r_similarity r with
  | Some (PyNum s) => (0 <= s /\ s <= 1)%Q
  | Some _ => False
  | None => True
  end.

(** Both scores of a result are present and within [0, 1]. *)
Definition scores_in_unit (r : result) : Prop :=
  exists relevance enhanced,
    r_graph_relevance r = Some relevance
    /\ r_enhanced_similarity r = Some enhanced
    /\ (0 <= relevance /\ relevance <= 1)%Q
    /\ (0 <= enhanced /\ enhanced <= 1)%Q.
(* ================================================================== *)
(** * Lemmas on dictionaries, sets and sorting *)

Section DictFacts.
Context {K V : Type} `{EqKey K}.
Import OrderedDict.

Lemma keqb_refl (k : K) : keqb k k = true.
Proof. destruct (keqb_spec k k); congruence. Qed.

Lemma keqb_neq (a b : K) : a <> b -> keqb a b = false.
Proof. intro Hn. destruct (keqb_spec a b); congruence. Qed.

Lemma get_set_same (d : dict K V) k v : get (set d k v) k = Some v.
Proof.
  induction d as [|[k' v'] d IH]; simpl.
  - now rewrite keqb_refl.
  - destruct (keqb_spec k' k) as [->|Hn]; simpl.
    + now rewrite keqb_refl.
    + now rewrite (keqb_neq Hn).
Qed.

Lemma get_set_other (d : dict K V) k k' v : k <> k' -> get (set d k v) k' = get d k'.
Proof.
  intro Hn. induction d as [|[k0 v0] d IH]; simpl.
  - now rewrite (keqb_neq Hn).
  - destruct (keqb_spec k0 k) as [->|Hn0]; simpl.
    + now rewrite (keqb_neq Hn).
    + now rewrite IH.
Qed.

Lemma get_set (d : dict K V) k k' v :
  get (set d k v) k' = if keqb k k' then Some v else get d k'.
Proof.
  destruct (keqb_spec k k') as [->|Hn].
  - apply get_set_same.
  - now apply get_set_other.
Qed.

Lemma get_In (d : dict K V) k v : get d k = Some v -> exists k', In (k', v) d.
Proof.
  induction d as [|[k0 v0] d IH]; simpl; [discriminate|].
  destruct (keqb k0 k).
  - intros [= ->]. exists k0. now left.
  - intros Hg. destruct (IH Hg) as [k' Hk']. exists k'. now right.
Qed.

End DictFacts.

Section SetFacts.

Lemma mem_add (s : PySet.t) (x y : string) :
  PySet.mem x (PySet.add s y) = PySet.mem x s || String.eqb x y.
Proof.
  unfold PySet.add. destruct (PySet.mem y s) eqn:Hy.
  - destruct (String.eqb_spec x y) as [->|_].
    + now rewrite Hy.
    + now rewrite orb_false_r.
  - unfold PySet.mem. rewrite existsb_app. simpl. now rewrite orb_false_r.
Qed.

Lemma mem_In (s : PySet.t) (x : string) : PySet.mem x s = true <-> In x s.
Proof.
  unfold PySet.mem. rewrite existsb_exists. split.
  - intros [y [Hy He]]. apply String.eqb_eq in He. now subst.
  - intros Hx. exists x. split; [assumption | apply String.eqb_refl].
Qed.

End SetFacts.

Lemma In_firstn {A : Type} (x : A) (n : nat) (l : list A) : In x (firstn n l) -> In x l.
Proof.
  revert n. induction l as [|y l IH]; intros [|n]; simpl; try tauto.
  intros [->|Hin]; [now left | right; eapply IH; eassumption].
Qed.

Section SortFacts.
Variable A : Type.
Variable key : A -> Q.

Definition desc (a b : A) : Prop := (key b <= key a)%Q.

Lemma qltb_false_le (a b : Q) : qltb a b = false -> (b <= a)%Q.
Proof.
  unfold qltb. intro Hf. apply negb_false_iff in Hf. now apply Qle_bool_iff.
Qed.

Lemma qltb_true_lt (a b : Q) : qltb a b = true -> (a < b)%Q.
Proof.
  unfold qltb. intro Ht. apply negb_true_iff in Ht.
  apply Qnot_le_lt. intro Hle. apply Qle_bool_iff in Hle. congruence.
Qed.

Lemma insert_desc_perm (x : A) (l : list A) : Permutation (x :: l) (insert_desc key x l).
Proof.
  induction l as [|y l IH]; simpl; [reflexivity|].
  destruct (qltb (key x) (key y)).
  - rewrite perm_swap. now constructor.
  - reflexivity.
Qed.

Lemma sort_desc_perm (l : list A) : Permutation l (sort_desc key l).
Proof.
  induction l as [|x l IH]; simpl; [constructor|].
  rewrite <- insert_desc_perm. now constructor.
Qed.

Lemma insert_desc_sorted (x : A) (l : list A) :
  Sorted desc l -> Sorted desc (insert_desc key x l).
Proof.
  induction l as [|y l IH]; simpl; intros Hs.
  - repeat constructor.
  - destruct (qltb (key x) (key y)) eqn:Hc.
    + inversion Hs as [|? ? Hs' Hhd]; subst. constructor; [now apply IH|].
      destruct l as [|z l]; simpl.
      * constructor. unfold desc. apply Qlt_le_weak. now apply qltb_true_lt.
      * destruct (qltb (key x) (key z)).
        -- inversion Hhd; subst. now constructor.
        -- constructor. unfold desc. apply Qlt_le_weak. now apply qltb_true_lt.
    + constructor; [assumption|]. constructor. unfold desc. now apply qltb_false_le.
Qed.

Lemma sort_desc_sorted (l : list A) : StronglySorted desc (sort_desc key l).
Proof.
  apply Sorted_StronglySorted.
  - intros a b c Hab Hbc. unfold desc in *. eapply Qle_trans; eassumption.
  - induction l as [|x l IH]; simpl; [constructor|]. now apply insert_desc_sorted.
Qed.

Lemma firstn_strongly_sorted (R : A -> A -> Prop) (n : nat) (l : list A) :
  StronglySorted R l -> StronglySorted R (firstn n l).
Proof.
  revert n. induction l as [|x l IH]; intros [|n] Hs; simpl; try constructor.
  - inversion Hs; subst. now apply IH.
  - inversion Hs as [|? ? _ Hall]; subst.
    rewrite Forall_forall in *. intros y Hy. apply Hall.
    eapply In_firstn. eassumption.
Qed.

End SortFacts.

Lemma firstn_NoDup {A : Type} (n : nat) (l : list A) : NoDup l -> NoDup (firstn n l).
Proof.
  revert n. induction l as [|x l IH]; intros [|n] Hn; simpl; try constructor.
  - inversion Hn; subst. intro Hin. apply In_firstn in Hin. contradiction.
  - inversion Hn; subst. now apply IH.
Qed.


(* ================================================================== *)
(** * The graph object: what [add_node] and [add_edge] keep and change *)

Section GraphFacts.
Import OrderedDict.

(** The adjacency dict of a node, empty when it has none. *)
Definition adjacency (g : Nx.Graph) (n : string) : dict string Nx.edge_attr :=
  get_default (Nx.g_adj g) n [].

(** A graph made by [add_node] and [add_edge]: only nodes have an
    adjacency, an edge reads the same from both ends, and a neighbour is
    listed once. *)
Record good (g : Nx.Graph) : Prop := {
  good_wf : forall n, Nx.has_node g n = false -> get (Nx.g_adj g) n = None;
  good_sym : forall x y, Nx.get_edge_data g x y = Nx.get_edge_data g y x;
  good_simple : forall n, NoDup (Nx.neighbors g n)
}.

Lemma get_default_set {V : Type} (d : dict string V) k k' v dflt :
  get_default (set d k v) k' dflt = if String.eqb k k' then v else get_default d k' dflt.
Proof. unfold get_default. rewrite get_set. simpl. now destruct (String.eqb k k'). Qed.

Lemma contains_set {V : Type} (d : dict string V) k k' v :
  contains (set d k v) k' = String.eqb k k' || contains d k'.
Proof. unfold contains. rewrite get_set. simpl. now destruct (String.eqb k k'). Qed.

Lemma keys_set_In {V : Type} (d : dict string V) k v x :
  In x (keys (set d k v)) -> x = k \/ In x (keys d).
Proof.
  induction d as [|[k0 v0] d IH]; simpl.
  - intros [<-|[]]. now left.
  - destruct (String.eqb k0 k); simpl; [tauto|].
    intros [<-|Hin]; [tauto|]. destruct (IH Hin); tauto.
Qed.

Lemma keys_set_NoDup {V : Type} (d : dict string V) k v :
  NoDup (keys d) -> NoDup (keys (set d k v)).
Proof.
  induction d as [|[k0 v0] d IH]; simpl; intros Hnd.
  - repeat constructor. simpl. tauto.
  - inversion Hnd as [|? ? Hnotin Hnd']; subst.
    destruct (String.eqb_spec k0 k) as [->|Hneq]; simpl; [now constructor|].
    constructor; [|now apply IH].
    intros Hin. apply keys_set_In in Hin as [->|Hin]; tauto.
Qed.

Lemma get_edge_data_adjacency g x y : Nx.get_edge_data g x y = get (adjacency g x) y.
Proof.
  unfold Nx.get_edge_data, adjacency, get_default.
  now destruct (get (Nx.g_adj g) x).
Qed.

Lemma neighbors_adjacency g x : Nx.neighbors g x = keys (adjacency g x).
Proof. reflexivity. Qed.

Lemma has_node_touch g n x :
  Nx.has_node (Nx.touch_node g n) x = Nx.has_node g x || String.eqb n x.
Proof.
  unfold Nx.touch_node. destruct (Nx.has_node g n) eqn:Hn.
  - destruct (String.eqb_spec n x) as [<-|_]; [now rewrite Hn | now rewrite orb_false_r].
  - unfold Nx.has_node. simpl. rewrite contains_set. apply orb_comm.
Qed.

Lemma adjacency_touch g n x :
  (forall m, Nx.has_node g m = false -> get (Nx.g_adj g) m = None) ->
  adjacency (Nx.touch_node g n) x = adjacency g x.
Proof.
  intros Hwf. unfold Nx.touch_node. destruct (Nx.has_node g n) eqn:Hn; [reflexivity|].
  unfold adjacency. simpl. rewrite get_default_set.
  destruct (String.eqb_spec n x) as [<-|_]; [|reflexivity].
  unfold get_default. now rewrite (Hwf n Hn).
Qed.

Lemma wf_touch g n :
  (forall m, Nx.has_node g m = false -> get (Nx.g_adj g) m = None) ->
  forall m, Nx.has_node (Nx.touch_node g n) m = false ->
            get (Nx.g_adj (Nx.touch_node g n)) m = None.
Proof.
  intros Hwf m. rewrite has_node_touch. intros Hm.
  apply orb_false_iff in Hm as [Hm Hneq].
  unfold Nx.touch_node. destruct (Nx.has_node g n); [now apply Hwf|].
  simpl. rewrite get_set. simpl. rewrite Hneq. now apply Hwf.
Qed.

Lemma node_type_touch g n x :
  Nx.node_type_opt (Nx.touch_node g n) x = Nx.node_type_opt g x.
Proof.
  unfold Nx.touch_node. destruct (Nx.has_node g n) eqn:Hn; [reflexivity|].
  unfold Nx.node_type_opt. simpl. rewrite get_set. simpl.
  destruct (String.eqb_spec n x) as [<-|_]; [|reflexivity].
  unfold Nx.has_node, contains in Hn. now destruct (get (Nx.g_node g) n).
Qed.

(** *** add_node *)

Lemma adjacency_add_node g n ty x :
  (forall m, Nx.has_node g m = false -> get (Nx.g_adj g) m = None) ->
  adjacency (Nx.add_node g n ty) x = adjacency g x.
Proof.
  intros Hwf. unfold Nx.add_node. destruct (Nx.has_node g n) eqn:Hn; [reflexivity|].
  unfold adjacency. simpl. rewrite get_default_set.
  destruct (String.eqb_spec n x) as [<-|_]; [|reflexivity].
  unfold get_default. now rewrite (Hwf n Hn).
Qed.

Lemma has_node_add_node g n ty x :
  Nx.has_node (Nx.add_node g n ty) x = String.eqb n x || Nx.has_node g x.
Proof.
  unfold Nx.add_node. destruct (Nx.has_node g n); unfold Nx.has_node; simpl;
    apply contains_set.
Qed.

Lemma node_type_add_node g n ty x :
  Nx.node_type_opt (Nx.add_node g n ty) x
  = if String.eqb n x then Some ty else Nx.node_type_opt g x.
Proof.
  unfold Nx.add_node, Nx.node_type_opt.
  destruct (Nx.has_node g n); simpl; rewrite get_set; simpl;
    now destruct (String.eqb n x).
Qed.

Lemma good_add_node g n ty : good g -> good (Nx.add_node g n ty).
Proof.
  intros [Hwf Hsym Hsimple]. split.
  - intros m. rewrite has_node_add_node. intros Hm.
    apply orb_false_iff in Hm as [Hneq Hm].
    unfold Nx.add_node. destruct (Nx.has_node g n); simpl; [now apply Hwf|].
    rewrite get_set. simpl. rewrite Hneq. now apply Hwf.
  - intros x y. rewrite !get_edge_data_adjacency, !adjacency_add_node by assumption.
    rewrite <- !get_edge_data_adjacency. apply Hsym.
  - intros m. rewrite neighbors_adjacency, adjacency_add_node by assumption.
    apply Hsimple.
Qed.

(** *** add_edge *)

(** The attribute dict [add_edge] leaves on the edge. *)
Definition new_attr (g : Nx.Graph) (u v rel : string) (w : option Q) : Nx.edge_attr :=
  Nx.update_attr
    (match Nx.get_edge_data g u v with Some d => d | None => Nx.no_attr end) rel w.

Lemma adjacency_add_edge g u v rel w x :
  (forall m, Nx.has_node g m = false -> get (Nx.g_adj g) m = None) ->
  adjacency (Nx.add_edge g u v rel w) x
  = if String.eqb v x
    then set (if String.eqb u v then set (adjacency g u) v (new_attr g u v rel w)
              else adjacency g v)
             u (new_attr g u v rel w)
    else if String.eqb u x then set (adjacency g u) v (new_attr g u v rel w)
         else adjacency g x.
Proof.
  intros Hwf.
  assert (Hwf1 := @wf_touch g u Hwf).
  assert (Hadj : forall m, adjacency (Nx.touch_node (Nx.touch_node g u) v) m = adjacency g m)
    by (intros m; rewrite adjacency_touch by assumption; now apply adjacency_touch).
  unfold Nx.add_edge, new_attr. unfold adjacency at 1. simpl.
  fold (adjacency (Nx.touch_node (Nx.touch_node g u) v) u).
  rewrite !get_default_set.
  fold (adjacency (Nx.touch_node (Nx.touch_node g u) v) v).
  fold (adjacency (Nx.touch_node (Nx.touch_node g u) v) x).
  rewrite !Hadj.
  replace (get_default (adjacency g u) v Nx.no_attr)
    with (match Nx.get_edge_data g u v with Some d => d | None => Nx.no_attr end)
    by (rewrite get_edge_data_adjacency; reflexivity).
  reflexivity.
Qed.

Lemma pair_eqb_sym x y u v : pair_eqb x y u v = pair_eqb y x u v.
Proof.
  unfold pair_eqb.
  destruct (String.eqb x u), (String.eqb y v), (String.eqb x v), (String.eqb y u);
    reflexivity.
Qed.

Lemma get_edge_data_add_edge g u v rel w x y :
  (forall m, Nx.has_node g m = false -> get (Nx.g_adj g) m = None) ->
  Nx.get_edge_data (Nx.add_edge g u v rel w) x y
  = if pair_eqb x y u v then Some (new_attr g u v rel w) else Nx.get_edge_data g x y.
Proof.
  intros Hwf. rewrite !get_edge_data_adjacency, adjacency_add_edge by assumption.
  unfold pair_eqb.
  repeat first
    [ rewrite get_set; cbn [keqb EqKey_string]
    | match goal with
      | |- context [String.eqb ?a ?b] => destruct (String.eqb_spec a b); subst
      end ];
    cbn [andb orb]; congruence.
Qed.

Lemma has_node_add_edge g u v rel w x :
  Nx.has_node (Nx.add_edge g u v rel w) x
  = Nx.has_node g x || String.eqb u x || String.eqb v x.
Proof.
  unfold Nx.add_edge. unfold Nx.has_node at 1. simpl.
  fold (Nx.has_node (Nx.touch_node (Nx.touch_node g u) v) x).
  now rewrite !has_node_touch.
Qed.

Lemma node_type_add_edge g u v rel w x :
  Nx.node_type_opt (Nx.add_edge g u v rel w) x = Nx.node_type_opt g x.
Proof.
  unfold Nx.add_edge. unfold Nx.node_type_opt at 1. simpl.
  fold (Nx.node_type_opt (Nx.touch_node (Nx.touch_node g u) v) x).
  now rewrite !node_type_touch.
Qed.

Lemma good_add_edge g u v rel w : good g -> good (Nx.add_edge g u v rel w).
Proof.
  intros [Hwf Hsym Hsimple]. split.
  - intros m. rewrite has_node_add_edge. intros Hm.
    apply orb_false_iff in Hm as [Hm Hvm]. apply orb_false_iff in Hm as [Hm Hum].
    assert (Hwf2 := @wf_touch _ v (@wf_touch g u Hwf)).
    unfold Nx.add_edge. simpl. rewrite !get_set. simpl. rewrite Hvm, Hum.
    apply Hwf2. now rewrite !has_node_touch, Hm, Hum, Hvm.
  - intros x y. rewrite !get_edge_data_add_edge by assumption.
    rewrite (pair_eqb_sym y x). now rewrite Hsym.
  - intros m. rewrite neighbors_adjacency, adjacency_add_edge by assumption.
    destruct (String.eqb v m); [|destruct (String.eqb u m)].
    + apply keys_set_NoDup. destruct (String.eqb u v).
      * apply keys_set_NoDup, Hsimple.
      * apply Hsimple.
    + apply keys_set_NoDup, Hsimple.
    + apply Hsimple.
Qed.

Lemma good_empty : good Nx.empty.
Proof. split; intros; try reflexivity. constructor. Qed.

End GraphFacts.

(* ================================================================== *)
(** * The builder: node types *)

Lemma fold_left_inv {A B : Type} (P : A -> Prop) (f : A -> B -> A) (l : list B) (a : A) :
  P a -> (forall a b, In b l -> P a -> P (f a b)) -> P (fold_left f l a).
Proof.
  revert a. induction l as [|b l IH]; intros a Ha Hstep; simpl; [assumption|].
  apply IH.
  - apply Hstep; [now left | assumption].
  - intros a' b' Hin. apply Hstep. now right.
Qed.

Section NodeTypes.
Context {E : Env}.
Import OrderedDict.

Lemma node_type_add_set (ty : string) (entity_set : PySet.t) (g : Nx.Graph) (x : string) :
  Nx.node_type_opt (fold_left (fun g entity => Nx.add_node g entity ty) entity_set g) x
  = if PySet.mem x entity_set then Some ty else Nx.node_type_opt g x.
Proof.
  revert g. induction entity_set as [|e s IH]; intros g; simpl; [reflexivity|].
  rewrite IH, node_type_add_node. unfold PySet.mem in *. simpl.
  rewrite (String.eqb_sym x e).
  destruct (String.eqb e x); simpl; [|reflexivity].
  now destruct (existsb (String.eqb x) s).
Qed.

Lemma node_type_add_entity_nodes (all : dict string PySet.t) (g : Nx.Graph) (x : string) :
  Nx.node_type_opt (add_entity_nodes g all) x
  = fold_left (later_type x) all (Nx.node_type_opt g x).
Proof.
  unfold add_entity_nodes. revert g.
  induction all as [|[ty s] all IH]; intros g; simpl; [reflexivity|].
  rewrite IH, node_type_add_set. reflexivity.
Qed.

Lemma later_type_settled (all : dict string PySet.t) (x : string) (a b : option string) t :
  fold_left (later_type x) all a = Some t ->
  a = None ->
  fold_left (later_type x) all b = Some t.
Proof.
  revert a b. induction all as [|[ty s] all IH]; intros a b; simpl.
  - intros -> [=].
  - intros Hfold ->. destruct (PySet.mem x s); [exact Hfold|].
    eapply IH; [exact Hfold | reflexivity].
Qed.

Lemma node_type_add_contains g case_id entities x :
  Nx.node_type_opt (add_contains g case_id entities) x = Nx.node_type_opt g x.
Proof.
  unfold add_contains.
  apply (fold_left_inv (fun g' => Nx.node_type_opt g' x = Nx.node_type_opt g x));
    [reflexivity|].
  intros g1 [ty s] _ H1.
  apply (fold_left_inv (fun g' => Nx.node_type_opt g' x = Nx.node_type_opt g x));
    [assumption|].
  intros g2 e _ H2. destruct (negb (String.eqb e case_id)); [|assumption].
  now rewrite node_type_add_edge.
Qed.

Lemma node_type_add_handles g entities x :
  Nx.node_type_opt (add_handles g entities) x = Nx.node_type_opt g x.
Proof.
  unfold add_handles.
  destruct (contains entities "judge" && contains entities "case_type"); [|reflexivity].
  apply (fold_left_inv (fun g' => Nx.node_type_opt g' x = Nx.node_type_opt g x));
    [reflexivity|].
  intros g1 j _ H1.
  apply (fold_left_inv (fun g' => Nx.node_type_opt g' x = Nx.node_type_opt g x));
    [assumption|].
  intros g2 c _ H2. now rewrite node_type_add_edge.
Qed.

Lemma node_type_add_deals_with g entities x :
  Nx.node_type_opt (add_deals_with g entities) x = Nx.node_type_opt g x.
Proof.
  unfold add_deals_with.
  destruct (contains entities "judge" && contains entities "legal_concept"); [|reflexivity].
  apply (fold_left_inv (fun g' => Nx.node_type_opt g' x = Nx.node_type_opt g x));
    [reflexivity|].
  intros g1 j _ H1.
  apply (fold_left_inv (fun g' => Nx.node_type_opt g' x = Nx.node_type_opt g x));
    [assumption|].
  intros g2 c _ H2. now rewrite node_type_add_edge.
Qed.

Lemma node_type_add_case_relationships g ce x :
  Nx.node_type_opt (_add_case_relationships g ce) x = Nx.node_type_opt g x.
Proof.
  unfold _add_case_relationships.
  apply (fold_left_inv (fun g' => Nx.node_type_opt g' x = Nx.node_type_opt g x));
    [reflexivity|].
  intros g1 [case_id entities] _ H1. unfold add_case.
  now rewrite node_type_add_deals_with, node_type_add_handles, node_type_add_contains.
Qed.

Lemma node_type_add_similarity g documents cases_data x :
  Nx.node_type_opt (_add_similarity_relationships g documents cases_data) x
  = Nx.node_type_opt g x.
Proof.
  unfold _add_similarity_relationships.
  destruct (_ <? 2); [reflexivity|].
  destruct (tfidf_cosine_similarity _) as [m|]; [|reflexivity].
  apply (fold_left_inv (fun g' => Nx.node_type_opt g' x = Nx.node_type_opt g x));
    [reflexivity|].
  intros g1 [i id1] _ H1.
  apply (fold_left_inv (fun g' => Nx.node_type_opt g' x = Nx.node_type_opt g x));
    [assumption|].
  intros g2 [j id2] _ H2.
  destruct (_ && _); [|assumption]. now rewrite node_type_add_edge.
Qed.

End NodeTypes.

(* ================================================================== *)
(** * The builder: edges and weights *)



Section EdgeWeights.
Context {E : Env}.
Import OrderedDict.
Variables x y : string.















End EdgeWeights.
(* ================================================================== *)
(** * The traversal: invariant and termination *)

Definition name_of (x : string * string * Q) : string := fst (fst x).

Section Traversal.
Variable g : Nx.Graph.
Variable entity : string.
Variable max_depth max_results : nat.

(** What the loop keeps true: the names listed in [related] are distinct,
    all of them were marked visited, and none is the seed. *)
Record bfs_inv (st : bfs_state) : Prop := {
  inv_nodup : NoDup (map name_of (related st));
  inv_visited : forall n, In n (map name_of (related st)) -> PySet.mem n (visited st) = true;
  inv_seed : ~ In entity (map name_of (related st))
}.

Lemma bfs_inv_init : bfs_inv (bfs_init entity).
Proof. split; simpl; [constructor | tauto | tauto]. Qed.

Lemma visit_neighbor_inv current depth score st neighbor :
  bfs_inv st -> bfs_inv (visit_neighbor g entity current depth score st neighbor).
Proof.
  intros [Hnd Hvis Hseed]. unfold visit_neighbor.
  destruct (PySet.mem neighbor (visited st)) eqn:Hmem; [now split|].
  destruct (String.eqb_spec neighbor entity) as [Heq|Hneq]; simpl.
  - split; simpl; try assumption.
    intros n Hn. rewrite mem_add, (Hvis n Hn). reflexivity.
  - split; simpl; rewrite map_app; simpl.
    + apply NoDup_app; [assumption | repeat constructor; simpl; tauto |].
      intros a Ha [<-|[]]. apply Hvis in Ha. unfold name_of in Ha. simpl in Ha. congruence.
    + intros n Hn. rewrite mem_add. apply in_app_or in Hn as [Hn|[<-|[]]].
      * now rewrite (Hvis n Hn).
      * rewrite String.eqb_refl. apply orb_true_r.
    + intros Hin. apply in_app_or in Hin as [Hin|[Heq|[]]]; [tauto|].
      unfold name_of in Heq. simpl in Heq. congruence.
Qed.

Lemma visit_all_inv current depth score nbrs st :
  bfs_inv st ->
  bfs_inv (fold_left (visit_neighbor g entity current depth score) nbrs st).
Proof.
  revert st. induction nbrs as [|n nbrs IH]; intros st Hst; simpl; [assumption|].
  apply IH. now apply visit_neighbor_inv.
Qed.

Lemma bfs_body_inv st : bfs_inv st -> bfs_inv (bfs_body g entity max_depth st).
Proof.
  intros Hst. unfold bfs_body.
  destruct (queue st) as [|[[current depth] score] rest]; [assumption|].
  assert (Hpop : bfs_inv {| related := related st; visited := visited st; queue := rest |})
    by (destruct Hst; now split).
  destruct (max_depth <=? depth); [assumption|]. now apply visit_all_inv.
Qed.

Lemma bfs_loop_inv fuel st :
  bfs_inv st -> bfs_inv (bfs_loop fuel g entity max_depth max_results st).
Proof.
  revert st. induction fuel as [|fuel IH]; intros st Hst; simpl; [assumption|].
  destruct (bfs_continue max_results st); [|assumption].
  apply IH. now apply bfs_body_inv.
Qed.

(** *** Termination *)

Definition unvisited (vis : PySet.t) : nat :=
  length (filter (fun n => negb (PySet.mem n vis)) (all_neighbors g)).

Lemma filter_add_le (vis : PySet.t) (n : string) (l : list string) :
  length (filter (fun x => negb (PySet.mem x (PySet.add vis n))) l)
  <= length (filter (fun x => negb (PySet.mem x vis)) l).
Proof.
  induction l as [|x l IH]; simpl; [lia|].
  rewrite mem_add. destruct (PySet.mem x vis); simpl; [lia|].
  destruct (String.eqb x n); simpl; lia.
Qed.

Lemma filter_add_lt (vis : PySet.t) (n : string) (l : list string) :
  In n l -> PySet.mem n vis = false ->
  length (filter (fun x => negb (PySet.mem x (PySet.add vis n))) l)
  < length (filter (fun x => negb (PySet.mem x vis)) l).
Proof.
  intros Hin Hmem. induction l as [|x l IH]; simpl; [destruct Hin|].
  destruct Hin as [->|Hin].
  - rewrite mem_add, Hmem, String.eqb_refl. simpl.
    pose proof (filter_add_le vis n l). lia.
  - specialize (IH Hin). rewrite mem_add.
    destruct (PySet.mem x vis); simpl; [lia|].
    destruct (String.eqb x n); simpl; lia.
Qed.

Lemma neighbors_in_all (current n : string) :
  In n (Nx.neighbors g current) -> In n (all_neighbors g).
Proof.
  unfold Nx.neighbors, OrderedDict.get_default, all_neighbors.
  destruct (OrderedDict.get (Nx.g_adj g) current) as [nbrs|] eqn:Hget; [|intros []].
  intros Hin. apply get_In in Hget as [k Hk].
  apply in_flat_map. exists (k, nbrs). now split.
Qed.

Lemma visit_neighbor_measure current depth score st neighbor :
  In neighbor (all_neighbors g) ->
  bfs_measure g (visit_neighbor g entity current depth score st neighbor)
  <= bfs_measure g st.
Proof.
  intros Hin. unfold visit_neighbor, bfs_measure.
  destruct (PySet.mem neighbor (visited st)) eqn:Hmem; [lia|]. simpl.
  rewrite length_app. simpl.
  pose proof (filter_add_lt (visited st) neighbor (all_neighbors g) Hin Hmem). lia.
Qed.

Lemma visit_all_measure current depth score nbrs st :
  (forall n, In n nbrs -> In n (all_neighbors g)) ->
  bfs_measure g (fold_left (visit_neighbor g entity current depth score) nbrs st)
  <= bfs_measure g st.
Proof.
  revert st. induction nbrs as [|n nbrs IH]; intros st Hall; simpl; [lia|].
  etransitivity; [apply IH; intros; apply Hall; now right|].
  apply visit_neighbor_measure. apply Hall. now left.
Qed.

Lemma bfs_body_measure st :
  bfs_continue max_results st = true ->
  bfs_measure g (bfs_body g entity max_depth st) < bfs_measure g st.
Proof.
  unfold bfs_continue, bfs_body.
  destruct (queue st) as [|[[current depth] score] rest] eqn:Hq; [discriminate|].
  intros _.
  assert (Hpop : bfs_measure g {| related := related st; visited := visited st; queue := rest |}
                 < bfs_measure g st)
    by (unfold bfs_measure; simpl; rewrite Hq; simpl; lia).
  destruct (max_depth <=? depth); [assumption|].
  eapply Nat.le_lt_trans; [|exact Hpop].
  apply visit_all_measure. intros n. apply neighbors_in_all.
Qed.

Lemma bfs_loop_exits fuel st :
  bfs_measure g st <= fuel ->
  bfs_continue max_results (bfs_loop fuel g entity max_depth max_results st) = false.
Proof.
  revert st. induction fuel as [|fuel IH]; intros st Hm; simpl.
  - unfold bfs_continue. unfold bfs_measure in Hm.
    destruct (queue st); [reflexivity | simpl in Hm; lia].
  - destruct (bfs_continue max_results st) eqn:Hc; [|assumption].
    apply IH. pose proof (bfs_body_measure st Hc). lia.
Qed.

Lemma bfs_loop_run fuel st :
  bfs_continue max_results (bfs_loop fuel g entity max_depth max_results st) = false ->
  bfs_while g entity max_depth max_results st
            (bfs_loop fuel g entity max_depth max_results st).
Proof.
  revert st. induction fuel as [|fuel IH]; intros st; simpl.
  - intros Hc. now apply bfs_exit.
  - destruct (bfs_continue max_results st) eqn:Hc.
    + intros Hfin. apply bfs_turn; [assumption | now apply IH].
    + intros _. now apply bfs_exit.
Qed.

End Traversal.

(** C2.  [get_related_entities(entity, D, M)] is the outcome of a run of
    the traversal loop that reaches the loop's own exit; the list it
    returns never holds the seed entity, holds no entity twice, has at most
    [M] items, and is sorted by non-increasing score. *)
Theorem get_related_entities_contract (kg : LegalKnowledgeGraph) (entity : string)
  (D M : nat) :
  (Nx.has_node (graph kg) entity = false /\ get_related_entities kg entity D M = []
   \/ exists final,
        bfs_while (graph kg) entity D M (bfs_init entity) final
        /\ get_related_entities kg entity D M
           = firstn M (sort_desc score_of (related final)))
  /\ ~ In entity (map name_of (get_related_entities kg entity D M))
  /\ NoDup (map name_of (get_related_entities kg entity D M))
  /\ length (get_related_entities kg entity D M) <= M
  /\ StronglySorted (fun a b => (score_of b <= score_of a)%Q)
                    (get_related_entities kg entity D M).
Proof.
  unfold get_related_entities.
  destruct (Nx.has_node (graph kg) entity) eqn:Hnode; simpl.
  2:{ repeat split; try (left; now split); try constructor; simpl; tauto || lia. }
  set (st0 := bfs_init entity).
  set (final := bfs_loop (bfs_measure (graph kg) st0) (graph kg) entity D M st0).
  assert (Hinv : bfs_inv entity final) by (apply bfs_loop_inv, bfs_inv_init).
  assert (Hperm : Permutation (map name_of (related final))
                              (map name_of (sort_desc score_of (related final))))
    by (apply Permutation_map, sort_desc_perm).
  split; [|split; [|split; [|split]]].
  - right. exists final. split; [|reflexivity].
    apply bfs_loop_run. apply bfs_loop_exits. lia.
  - intros Hin. rewrite <- firstn_map in Hin. apply In_firstn in Hin.
    apply (Permutation_in _ (Permutation_sym Hperm)) in Hin.
    now apply (inv_seed Hinv).
  - rewrite <- firstn_map. apply firstn_NoDup.
    eapply Permutation_NoDup; [exact Hperm | apply (inv_nodup Hinv)].
  - rewrite length_firstn. lia.
  - apply firstn_strongly_sorted. apply (sort_desc_sorted score_of).
Qed.

(* ================================================================== *)
(** * The claims *)

Section BuilderClaims.
Context {E : Env}.
Import OrderedDict.



(** C4, as amended.  The type of a node of the built graph is the last
    type, in the order of [all_entities.items()], whose collected set
    holds the identifier: each [add_node] of the node loop overwrites the
    type, and the edge phases that follow leave it as the node loop set
    it. *)
Theorem node_type_is_last_collected (kg : LegalKnowledgeGraph)
  (cases_data : list case_data) (e t : string) :
  last_type (all_entities (collect_entities (entity_types kg) cases_data)) e = Some t ->
  Nx.node_type_opt (graph (build_graph kg cases_data)) e = Some t
  /\ Nx.node_type_opt (graph (build_graph kg cases_data)) e
     = Nx.node_type_opt
         (add_entity_nodes (graph kg)
            (all_entities (collect_entities (entity_types kg) cases_data))) e.
Proof.
  intros Hlast. unfold build_graph. simpl.
  rewrite node_type_add_similarity, node_type_add_case_relationships.
  split; [|reflexivity].
  rewrite node_type_add_entity_nodes.
  eapply later_type_settled; [exact Hlast | reflexivity].
Qed.

End BuilderClaims.



(** C4: a run.  In the theft corpus the judge is collected under one type
    only, and the node has it. *)
Lemma node_type_witness :
  last_type (all_entities (collect_entities (E := py) (entity_types Examples.fresh_kg)
                                            Examples.theft_corpus)) "สมชาย"
  = Some "judge"
  /\ Nx.node_type_opt (graph Examples.theft_kg) "สมชาย" = Some "judge".
Proof.
  assert (Hl : last_type (all_entities (collect_entities (E := py)
                 (entity_types Examples.fresh_kg) Examples.theft_corpus)) "สมชาย"
               = Some "judge") by (vm_compute; reflexivity).
  split; [exact Hl|].
  exact (proj1 (node_type_is_last_collected (E := py) Examples.fresh_kg
                  Examples.theft_corpus "สมชาย" Hl)).
Defined.

(** C4 fails as stated: the labour case yields the identifier first as a
    case type and then as a legal concept; the node loop sets the type to
    [case_type] and then changes it, and the built graph records
    [legal_concept]. *)
Lemma first_seen_type_is_overwritten :
  first_seen_type (E := py) Examples.labour_corpus "แรงงาน" = Some "case_type"
  /\ Nx.node_type_opt
       (add_entity_nodes Nx.empty
          (firstn 2 (all_entities (collect_entities (E := py)
                       (entity_types Examples.fresh_kg) Examples.labour_corpus))))
       "แรงงาน" = Some "case_type"
  /\ Nx.node_type_opt
       (graph (build_graph (E := py) Examples.fresh_kg Examples.labour_corpus))
       "แรงงาน" = Some "legal_concept".
Proof. vm_compute. repeat split. Qed.

(* ================================================================== *)
(** * The retriever *)

Section RetrieverFacts.
Context {E : Env}.

Lemma In_sort_desc {A : Type} (key : A -> Q) (x : A) (l : list A) :
  In x l -> In x (sort_desc key l).
Proof. intros Hin. eapply Permutation_in; [apply sort_desc_perm | exact Hin]. Qed.

(** A candidate with a fresh, non-empty decision id and a numeric
    similarity is enhanced and appended. *)
Lemma enhance_one_appends kg query depth cw results seen r s :
  truthy (r_decision_id r) = true ->
  PySet.mem (r_decision_id r) seen = false ->
  r_similarity r = Some (PyNum s) ->
  exists e,
    enhance_one kg query depth cw (results, seen) r
    = Return (results ++ [e], PySet.add seen (r_decision_id r))
    /\ r_decision_id e = r_decision_id r.
Proof.
  intros Hid Hseen Hsim. unfold enhance_one. rewrite Hid, Hseen, Hsim. simpl.
  eexists. split; reflexivity.
Qed.

Lemma append_additional_keeps (l : list result) (acc : list result * PySet.t) (x : result) :
  In x (fst acc) -> In x (fst (fold_left append_additional l acc)).
Proof.
  revert acc. induction l as [|a l IH]; intros acc Hx; simpl; [assumption|].
  apply IH. unfold append_additional. destruct acc as [res sn].
  destruct (negb _); simpl in *; [apply in_or_app; now left | assumption].
Qed.

(** Retrieval over one such candidate: the enhanced candidate, then the
    graph discoveries, sorted. *)
Lemma retrieve_single kg query depth cw r s :
  truthy (r_decision_id r) = true ->
  r_similarity r = Some (PyNum s) ->
  exists e,
    retrieve_with_graph_context kg query [r] depth cw
    = Return (sort_desc sort_key
                (fst (fold_left append_additional
                        (_find_additional_relevant_cases kg query [r_decision_id r] 5)
                        ([e], [r_decision_id r]))))
    /\ r_decision_id e = r_decision_id r.
Proof.
  intros Hid Hsim.
  destruct (enhance_one_appends kg query depth cw [] [] r Hid eq_refl Hsim) as [e [He Hide]].
  exists e. split; [|assumption].
  unfold retrieve_with_graph_context, enhance_all. unfold PySet.t in *. rewrite He.
  unfold bind. cbn [fst map app]. rewrite Hide.
  change (PySet.add [] (r_decision_id r)) with [r_decision_id r].
  assert (Hpair : forall p : list result * list string,
             (let '(enhanced_results, _) := p in
              Return (sort_desc sort_key enhanced_results))
             = Return (sort_desc sort_key (fst p)))
    by (intros [a b]; reflexivity).
  apply Hpair.
Qed.

End RetrieverFacts.

(** C1 at a failing input.  The graph is built from the theft corpus;
    whatever the communities, the traversal depth and the blend weight,
    retrieval for the query "ลักทรัพย์" with the first theft case as the only
    vector candidate returns the fourth case as a graph discovery with
    graph relevance 3/2 and enhanced score 21/20, both above 1. *)
Theorem graph_discovery_scores_exceed_one (comms : dict Z (list string)) (depth : nat)
  (context_weight : Q) :
  exists results r relevance enhanced,
    retrieve_with_graph_context (E := py)
      (Examples.with_communities Examples.theft_kg comms) "ลักทรัพย์"
      [Examples.candidate "101/2566" (Some (PyNum 0.9%Q))] depth context_weight
    = Return results
    /\ In r results
    /\ r_decision_id r = "104/2566"
    /\ r_source r = "graph_discovery"
    /\ r_graph_relevance r = Some relevance
    /\ r_enhanced_similarity r = Some enhanced
    /\ (relevance == 3 # 2)%Q /\ (enhanced == 21 # 20)%Q
    /\ (1 < relevance)%Q /\ (1 < enhanced)%Q.
Proof.
  set (kg := Examples.with_communities Examples.theft_kg comms).
  set (c := Examples.candidate "101/2566" (Some (PyNum 0.9%Q))).
  destruct (@retrieve_single py kg "ลักทรัพย์" depth context_weight c 0.9%Q eq_refl eq_refl)
    as [e [Hret _]].
  rewrite Hret.
  assert (Hadd : _find_additional_relevant_cases (E := py) kg "ลักทรัพย์" [r_decision_id c] 5
                 = [case_info "ลักทรัพย์" "104/2566" (3 # 2)%Q;
                    case_info "ลักทรัพย์" "102/2566" 1%Q;
                    case_info "ลักทรัพย์" "103/2566" 1%Q])
    by (vm_compute; reflexivity).
  rewrite Hadd.
  eexists. exists (case_info "ลักทรัพย์" "104/2566" (3 # 2)%Q), (3 # 2)%Q, ((3 # 2) * 0.7)%Q.
  split; [reflexivity|]. split.
  - apply In_sort_desc.
    apply (append_additional_keeps
             [case_info "ลักทรัพย์" "102/2566" 1%Q; case_info "ลักทรัพย์" "103/2566" 1%Q]
             (append_additional ([e], [r_decision_id c])
                                (case_info "ลักทรัพย์" "104/2566" (3 # 2)%Q))).
    vm_compute. right. now left.
  - repeat split; reflexivity.
Qed.

(* ================================================================== *)
(** * The GraphRAG search engine and the snapshot *)

Section EngineClaims.
Context {E : Env}.
Import OrderedDict.

(** C6.  On an initialized engine, when the enhancement call raises,
    [search_with_graphrag] returns the vector candidates it was given, as
    they are, and raises nothing. *)
Theorem graphrag_failure_returns_vector_results (eng : GraphRAGSearchEngine)
  (query : string) (vector_results : list result) (k : nat) (e : exn) :
  _is_loaded eng = true ->
  enhancement_step eng query vector_results = Raise e ->
  search_with_graphrag eng query vector_results k = Return vector_results.
Proof.
  intros Hloaded Hraise. unfold search_with_graphrag.
  rewrite Hloaded, Hraise. reflexivity.
Qed.

(** C7.  With a [pickle] that reads back what it wrote, loading the file
    [save_graph] has just written (from any knowledge-graph object on the
    same folder) succeeds and yields the graph, the communities, the
    entity-type index and the case documents that were saved. *)
Theorem save_then_load_round_trip (kg kg' : LegalKnowledgeGraph) (fs : filesystem)
  (filename : string) :
  (forall d, pickle_load (pickle_dump d) = Some d) ->
  graphs_folder kg' = graphs_folder kg ->
  fst (load_graph kg' (save_graph kg fs filename) filename) = true
  /\ graph (snd (load_graph kg' (save_graph kg fs filename) filename)) = graph kg
  /\ communities (snd (load_graph kg' (save_graph kg fs filename) filename))
     = communities kg
  /\ entity_types (snd (load_graph kg' (save_graph kg fs filename) filename))
     = entity_types kg
  /\ case_documents (snd (load_graph kg' (save_graph kg fs filename) filename))
     = case_documents kg.
Proof.
  intros Hpickle Hfolder. unfold load_graph, save_graph, fs_write.
  rewrite Hfolder, String.eqb_refl, Hpickle. simpl. repeat split.
Qed.

(** *** The builder on received records *)

Lemma sections_loaded (sections : dict string (list string)) (entities : dict string PySet.t) :
  fold_left
    (fun so_far '(law_type, l) =>
       entities <- so_far ;;
       match l with
       | None => Raise null_is_not_iterable
       | Some l =>
           Return
             (fold_left
                (fun entities section =>
                   if truthy section
                   then dd_add entities "law_section" (law_type ++ " " ++ section)
                   else entities)
                l entities)
       end)
    (map (fun '(law_type, l) => (law_type, Some l)) sections) (Return entities)
  = Return
      (fold_left
         (fun entities '(law_type, l) =>
            fold_left
              (fun entities section =>
                 if truthy section
                 then dd_add entities "law_section" (law_type ++ " " ++ section)
                 else entities)
              l entities)
         sections entities).
Proof.
  revert entities. induction sections as [|[law_type l] sections IH]; intros entities;
    [reflexivity|].
  cbn [map fold_left bind]. apply IH.
Qed.

(** On a record with a dict of lists the two readings of
    [extract_entities] agree. *)
Lemma extract_entities_as_record (c : case_data) :
  extract_entities_record (as_record c) = Return (extract_entities c).
Proof.
  unfold extract_entities_record, extract_entities, as_record, loaded_sections.
  cbv zeta.
  cbn [cr_decision_id cr_judges cr_case_type cr_related_sections cr_summary cr_full_text].
  rewrite sections_loaded. reflexivity.
Qed.

Lemma collect_as_record (st : collected) (c : case_data) :
  collect_record (Return st) (as_record c) = Return (collect_case st c).
Proof.
  unfold collect_record, collect_case. cbn [bind]. cbv zeta.
  rewrite extract_entities_as_record.
  cbn [as_record cr_decision_id cr_summary cr_full_text bind].
  now destruct (truthy (cd_decision_id c)).
Qed.

Lemma collect_as_records (cases : list case_data) (st : collected) :
  fold_left collect_record (map as_record cases) (Return st)
  = Return (fold_left collect_case cases st).
Proof.
  revert st. induction cases as [|c cases IH]; intros st; [reflexivity|].
  cbn [map fold_left]. rewrite collect_as_record. apply IH.
Qed.

(** [_add_similarity_relationships] reads the decision ids only. *)
Lemma selected_ids (keep : string -> bool) (cases : list case_data) :
  map cd_decision_id (filter (fun c => keep (cd_decision_id c)) cases)
  = filter keep (map cd_decision_id cases).
Proof.
  induction cases as [|c cases IH]; [reflexivity|]. cbn [filter map].
  destruct (keep (cd_decision_id c)); cbn [map]; now rewrite IH.
Qed.

Lemma similarity_reads_ids (g : Nx.Graph) (documents : dict string string)
  (cases cases' : list case_data) :
  map cd_decision_id cases = map cd_decision_id cases' ->
  _add_similarity_relationships g documents cases
  = _add_similarity_relationships g documents cases'.
Proof.
  intros Hids. unfold _add_similarity_relationships. cbv zeta.
  set (keep := fun id => truthy id && contains documents id).
  change (filter (fun c => truthy (cd_decision_id c) && contains documents (cd_decision_id c))
                 cases)
    with (filter (fun c => keep (cd_decision_id c)) cases).
  change (filter (fun c => truthy (cd_decision_id c) && contains documents (cd_decision_id c))
                 cases')
    with (filter (fun c => keep (cd_decision_id c)) cases').
  assert (Hdocs : forall l : list case_data,
            map (fun c => get_default documents (cd_decision_id c) "") l
            = map (fun id => get_default documents id "") (map cd_decision_id l))
    by (intros l; now rewrite map_map).
  rewrite !Hdocs, !selected_ids, Hids. reflexivity.
Qed.

(** On records with dicts of lists, the build is [build_graph]. *)
Lemma build_graph_as_records (kg : LegalKnowledgeGraph) (cases : list case_data) :
  build_graph_records kg (map as_record cases) = Return (build_graph kg cases).
Proof.
  unfold build_graph_records, collect_records, build_graph, collect_entities.
  rewrite collect_as_records. cbn [bind]. cbv zeta.
  rewrite (@similarity_reads_ids _ _ (map id_only (map as_record cases)) cases);
    [reflexivity|].
  rewrite !map_map. apply map_ext. reflexivity.
Qed.

(** What the builder can raise. *)
Definition builder_error (e : exn) : Prop :=
  e = null_has_no_items \/ e = null_is_not_iterable.

Lemma extract_entities_record_raises (c : case_record) (e : exn) :
  extract_entities_record c = Raise e -> builder_error e.
Proof.
  unfold extract_entities_record. cbv zeta.
  destruct (cr_related_sections c) as [sections|]; [|intros [= <-]; now left].
  match goal with
  | |- bind (fold_left ?f sections (Return ?e0)) _ = _ -> _ =>
      assert (Hfold : forall so_far,
                (forall e', so_far = Raise e' -> builder_error e') ->
                forall e', fold_left f sections so_far = Raise e' -> builder_error e')
  end.
  { induction sections as [|[law_type l] sections IH]; intros so_far Hso e' He';
      [now apply Hso|].
    cbn [fold_left] in He'. revert He'. apply IH.
    intros e''. destruct so_far as [entities|e0]; cbn [bind].
    - destruct l; [discriminate | intros [= <-]; now right].
    - apply Hso. }
  match goal with
  | |- bind ?m _ = _ -> _ => destruct m as [entities|e0] eqn:Hm; cbn [bind]
  end; [discriminate|].
  intros [= <-]. eapply Hfold; [|exact Hm]. discriminate.
Qed.

Lemma collect_record_raises (so_far : outcome collected) (c : case_record) :
  (forall e, so_far = Raise e -> builder_error e) ->
  forall e, collect_record so_far c = Raise e -> builder_error e.
Proof.
  intros Hso e. unfold collect_record. destruct so_far as [st|e0]; cbn [bind];
    [|apply Hso].
  destruct (negb (truthy (cr_decision_id c))); [discriminate|].
  destruct (extract_entities_record c) as [entities|e0] eqn:Hx; cbn [bind]; [discriminate|].
  intros [= <-]. now apply (extract_entities_record_raises c).
Qed.

Lemma build_graph_records_raises (kg : LegalKnowledgeGraph) (cases : list case_record)
  (e : exn) :
  build_graph_records kg cases = Raise e -> builder_error e.
Proof.
  unfold build_graph_records, collect_records.
  match goal with
  | |- bind ?m _ = _ -> _ =>
      assert (Hm : forall e', m = Raise e' -> builder_error e')
  end.
  { apply (fold_left_inv (fun o => forall e', o = Raise e' -> builder_error e'));
      [discriminate|].
    intros so_far c _ Hso. now apply collect_record_raises. }
  match goal with
  | |- bind ?m _ = _ -> _ => destruct m as [st|e0]; cbn [bind]
  end; [discriminate|].
  intros [= <-]. now apply Hm.
Qed.

Lemma collect_raise_stays (cases : list case_record) (e : exn) :
  fold_left collect_record cases (Raise e) = Raise e.
Proof. induction cases as [|c cases IH]; [reflexivity | exact IH]. Qed.

(** A record with a decision id and [related_sections] null stops the build. *)
Lemma build_graph_records_null (kg : LegalKnowledgeGraph) (cases : list case_record)
  (c : case_record) :
  In c cases ->
  truthy (cr_decision_id c) = true ->
  cr_related_sections c = None ->
  exists e, build_graph_records kg cases = Raise e.
Proof.
  intros Hin Hid Hnull. unfold build_graph_records, collect_records.
  match goal with
  | |- exists e, bind (fold_left collect_record cases ?o) _ = _ =>
      assert (Hfold : forall so_far, exists e, fold_left collect_record cases so_far = Raise e)
  end.
  { induction cases as [|c0 cases IH]; [destruct Hin|]. intros so_far. cbn [fold_left].
    destruct Hin as [->|Hin]; [|now apply IH].
    assert (Hc : exists e, collect_record so_far c = Raise e).
    { unfold collect_record. destruct so_far as [st|e0]; cbn [bind]; [|now exists e0].
      rewrite Hid. cbn [negb]. unfold extract_entities_record. cbv zeta. rewrite Hnull.
      cbn [bind]. now exists null_has_no_items. }
    destruct Hc as [e ->]. exists e. apply collect_raise_stays. }
  match goal with
  | |- exists e, bind (fold_left collect_record cases ?o) _ = _ =>
      destruct (Hfold o) as [e ->]
  end.
  now exists e.
Qed.

Lemma build_graph_records_folder (kg kg' : LegalKnowledgeGraph) (cases : list case_record) :
  build_graph_records kg cases = Return kg' -> graphs_folder kg' = graphs_folder kg.
Proof.
  unfold build_graph_records. destruct (collect_records _ _); cbn [bind]; [|discriminate].
  now intros [= <-].
Qed.

Lemma detect_communities_folder (kg : LegalKnowledgeGraph) :
  graphs_folder (detect_communities kg) = graphs_folder kg.
Proof. unfold detect_communities. now destruct (best_partition (graph kg)). Qed.

(** *** [load_or_build_graph] when no snapshot loads *)

Lemma load_or_build_empty (eng : GraphRAGSearchEngine) (fs : filesystem)
  (write_error : string -> option string) (cases_data : option (list case_record))
  (kg : LegalKnowledgeGraph) :
  knowledge_graph (initialize eng) = Some kg ->
  fst (load_graph kg fs default_filename) = false ->
  cases_data = None \/ cases_data = Some [] ->
  load_or_build_graph eng fs write_error cases_data = Raise no_cases_error.
Proof.
  intros Hkg Hload Hc.
  assert (Hinit : (if negb (_is_loaded eng) then initialize eng else eng) = initialize eng)
    by (unfold initialize; now destruct (_is_loaded eng)).
  assert (Hsame : load_graph kg fs default_filename = (false, kg)).
  { unfold load_graph in *. destruct (fs _) as [content|]; [|reflexivity].
    destruct (pickle_load content); [discriminate Hload | reflexivity]. }
  unfold load_or_build_graph. rewrite Hinit, Hkg, Hsame. simpl.
  now destruct Hc as [-> | ->].
Qed.

Lemma load_or_build_rebuild (eng : GraphRAGSearchEngine) (fs : filesystem)
  (write_error : string -> option string) (cases : list case_record)
  (kg : LegalKnowledgeGraph) :
  knowledge_graph (initialize eng) = Some kg ->
  fst (load_graph kg fs default_filename) = false ->
  cases <> [] ->
  load_or_build_graph eng fs write_error (Some cases)
  = (built <- build_graph_records kg cases ;;
     saved <- save_graph_to_disk write_error (detect_communities built) fs default_filename ;;
     Return ({| knowledge_graph := Some (detect_communities built); _is_loaded := true |},
             saved)).
Proof.
  intros Hkg Hload Hne.
  assert (Hinit : (if negb (_is_loaded eng) then initialize eng else eng) = initialize eng)
    by (unfold initialize; now destruct (_is_loaded eng)).
  assert (Hflag : _is_loaded (initialize eng) = true)
    by (unfold initialize; now destruct (_is_loaded eng) eqn:Hl).
  assert (Hsame : load_graph kg fs default_filename = (false, kg)).
  { unfold load_graph in *. destruct (fs _) as [content|]; [|reflexivity].
    destruct (pickle_load content); [discriminate Hload | reflexivity]. }
  unfold load_or_build_graph. rewrite Hinit, Hkg, Hsame, Hflag. cbn [negb].
  destruct cases; [contradiction | reflexivity].
Qed.

(** What a rebuild can raise: the builder's two errors, or the [OSError]
    of the write. *)
Lemma rebuild_raises (write_error : string -> option string) (fs : filesystem)
  (cases : list case_record) (kg : LegalKnowledgeGraph) (e : exn) :
  (built <- build_graph_records kg cases ;;
   saved <- save_graph_to_disk write_error (detect_communities built) fs default_filename ;;
   Return ({| knowledge_graph := Some (detect_communities built); _is_loaded := true |},
           saved)) = Raise e ->
  builder_error e
  \/ exists msg, write_error (path_join (graphs_folder kg) default_filename) = Some msg
                 /\ e = OSError msg.
Proof.
  destruct (build_graph_records kg cases) as [built|e0] eqn:Hb; cbn [bind].
  - unfold save_graph_to_disk. cbv zeta.
    rewrite detect_communities_folder, (build_graph_records_folder _ _ Hb).
    destruct (write_error _) as [msg|]; cbn [bind]; [|discriminate].
    intros [= <-]. right. now exists msg.
  - intros [= <-]. left. now apply (build_graph_records_raises kg cases).
Qed.

(** C8.  When the engine's knowledge graph cannot load a snapshot (the
    file is missing or unreadable), [load_or_build_graph] raises the
    configuration error, the [ValueError] of the source, exactly when no
    cases are supplied.  With cases whose [related_sections] are dicts of
    lists and a disk that takes the write, it returns with the graph built
    from them, its communities detected, and the snapshot saved.  Anything
    else it raises is an error of the rebuild, which it does not handle:
    the builder's [AttributeError] or [TypeError] on a null under
    [related_sections], or the [OSError] of the write; and a case with a
    decision id and [related_sections] null always makes it raise. *)
Theorem load_or_build_config_error_iff_no_cases (eng : GraphRAGSearchEngine)
  (fs : filesystem) (write_error : string -> option string)
  (cases_data : option (list case_record)) (kg : LegalKnowledgeGraph) :
  knowledge_graph (initialize eng) = Some kg ->
  fst (load_graph kg fs default_filename) = false ->
  (load_or_build_graph eng fs write_error cases_data = Raise no_cases_error
   <-> (cases_data = None \/ cases_data = Some []))
  /\ (forall cases, cases_data = Some (map as_record cases) -> cases <> [] ->
      write_error (path_join (graphs_folder kg) default_filename) = None ->
      load_or_build_graph eng fs write_error cases_data
      = Return ({| knowledge_graph := Some (detect_communities (build_graph kg cases));
                   _is_loaded := true |},
                save_graph (detect_communities (build_graph kg cases)) fs default_filename))
  /\ (forall e, load_or_build_graph eng fs write_error cases_data = Raise e ->
      e = no_cases_error
      \/ e = null_has_no_items
      \/ e = null_is_not_iterable
      \/ exists msg, write_error (path_join (graphs_folder kg) default_filename) = Some msg
                     /\ e = OSError msg)
  /\ (forall cases c, cases_data = Some cases -> In c cases ->
      truthy (cr_decision_id c) = true -> cr_related_sections c = None ->
      exists e, load_or_build_graph eng fs write_error cases_data = Raise e
                /\ e <> no_cases_error).
Proof.
  intros Hkg Hload.
  assert (Hraise : forall e, load_or_build_graph eng fs write_error cases_data = Raise e ->
            (e = no_cases_error /\ (cases_data = None \/ cases_data = Some []))
            \/ ((builder_error e
                 \/ exists msg,
                      write_error (path_join (graphs_folder kg) default_filename) = Some msg
                      /\ e = OSError msg)
                /\ exists cases, cases_data = Some cases /\ cases <> [])).
  { intros e. destruct cases_data as [[|c cases]|].
    - rewrite (@load_or_build_empty eng fs write_error (Some []) kg Hkg Hload) by now right.
      intros [= <-]. left. split; [reflexivity | now right].
    - rewrite (@load_or_build_rebuild eng fs write_error (c :: cases) kg Hkg Hload)
        by discriminate.
      intros He. right. split; [now apply (rebuild_raises _ _ _ _ He)|].
      exists (c :: cases). split; [reflexivity | discriminate].
    - rewrite (@load_or_build_empty eng fs write_error None kg Hkg Hload) by now left.
      intros [= <-]. left. split; [reflexivity | now left]. }
  split; [|split; [|split]].
  - split.
    + intros He. destruct (Hraise _ He) as [[_ Hc]|[[[Hb|Hb]|[msg [_ Hb]]] _]];
        [assumption | discriminate Hb | discriminate Hb | discriminate Hb].
    + now apply (@load_or_build_empty eng fs write_error cases_data kg Hkg Hload).
  - intros cases -> Hne Hwrite.
    rewrite (@load_or_build_rebuild eng fs write_error (map as_record cases) kg Hkg Hload)
      by (destruct cases; [contradiction | discriminate]).
    rewrite build_graph_as_records. cbn [bind]. unfold save_graph_to_disk. cbv zeta.
    assert (Hfolder : graphs_folder (detect_communities (build_graph kg cases))
                      = graphs_folder kg)
      by (now rewrite detect_communities_folder).
    rewrite Hfolder, Hwrite. reflexivity.
  - intros e He. destruct (Hraise _ He) as [[-> _]|[[[Hb|Hb]|Hb] _]]; tauto.
  - intros cases c -> Hin Hid Hnull.
    assert (Hne : cases <> []) by (intros ->; destruct Hin).
    rewrite (@load_or_build_rebuild eng fs write_error cases kg Hkg Hload Hne).
    destruct (@build_graph_records_null kg cases c Hin Hid Hnull) as [e He].
    rewrite He. cbn [bind]. exists e. split; [reflexivity|].
    destruct (build_graph_records_raises _ _ He) as [-> | ->]; discriminate.
Qed.

End EngineClaims.

(** C6: a run.  A candidate whose similarity is [None] makes the blend
    raise; the candidates come back untouched. *)
Lemma graphrag_failure_witness :
  search_with_graphrag (E := py) Examples.theft_engine "ลักทรัพย์"
    [Examples.candidate "101/2566" (Some PyNone)] 5
  = Return [Examples.candidate "101/2566" (Some PyNone)].
Proof.
  apply (@graphrag_failure_returns_vector_results py Examples.theft_engine "ลักทรัพย์"
           [Examples.candidate "101/2566" (Some PyNone)] 5
           (TypeError "unsupported operand type(s) for *: 'float' and 'NoneType'")).
  - reflexivity.
  - vm_compute. reflexivity.
Defined.

(** C7: a run.  A graph with one weighted edge and one community of
    three entities is saved and loaded into a fresh object. *)
Lemma round_trip_witness :
  graph (snd (load_graph (E := py) Examples.fresh_kg
                (save_graph (E := py) Examples.small_kg Examples.no_files default_filename)
                default_filename))
  = graph Examples.small_kg
  /\ communities (snd (load_graph (E := py) Examples.fresh_kg
                (save_graph (E := py) Examples.small_kg Examples.no_files default_filename)
                default_filename))
     = communities Examples.small_kg.
Proof.
  destruct (@save_then_load_round_trip py Examples.small_kg Examples.fresh_kg
              Examples.no_files default_filename (fun d => eq_refl) eq_refl)
    as [_ [Hg [Hc _]]].
  split; [exact Hg | exact Hc].
Defined.

(** C8: a run.  No snapshot on disk and no cases: the configuration error. *)
Lemma load_or_build_witness :
  load_or_build_graph (E := py) new_engine Examples.no_files Examples.writable None
  = Raise no_cases_error.
Proof.
  destruct (@load_or_build_config_error_iff_no_cases py new_engine Examples.no_files
              Examples.writable None Examples.fresh_kg eq_refl eq_refl) as [[_ Hnone] _].
  apply Hnone. now left.
Defined.

(** C8: a supplied corpus does not rule out an error.  No snapshot on
    disk, a disk that takes every write, and one case whose
    [related_sections] is null: the rebuild raises [AttributeError]. *)
Lemma rebuild_raises_on_null_sections :
  load_or_build_graph (E := py) new_engine Examples.no_files Examples.writable
    (Some [Examples.null_sections_case])
  = Raise null_has_no_items.
Proof. vm_compute. reflexivity. Qed.

(* ================================================================== *)
(** * The traversal cut-off *)

(** C9.  On the theft graph, from the concept "ลักทรัพย์" with depth 2: with
    [max_results = 4] the loop stops after the seed's four neighbours, so
    the fourth case, two hops away through the judge, is left out although
    the same traversal with room for ten results scores it 3/2, above the
    score 1 of a case that is returned. *)
Theorem traversal_cutoff_omits_higher_score :
  exists (kg : LegalKnowledgeGraph) (seed via omitted kept : string)
         (D M : nat) (kept_type omitted_type : string) (kept_score omitted_score : Q),
    Nx.has_node (graph kg) seed = true
    /\ Nx.get_edge_data (graph kg) seed via <> None
    /\ Nx.get_edge_data (graph kg) via omitted <> None
    /\ 2 <= D
    /\ In (kept, kept_type, kept_score) (get_related_entities kg seed D M)
    /\ ~ In omitted (map name_of (get_related_entities kg seed D M))
    /\ In (omitted, omitted_type, omitted_score) (get_related_entities kg seed D 10)
    /\ (kept_score < omitted_score)%Q
    /\ length (get_related_entities kg seed D M) = M.
Proof.
  exists Examples.theft_kg, "ลักทรัพย์", "สมชาย", "104/2566", "101/2566", 2, 4,
         "case", "case", 1%Q, (3 # 2)%Q.
  split; [vm_compute; reflexivity|].
  split; [vm_compute; discriminate|].
  split; [vm_compute; discriminate|].
  split; [lia|].
  split; [vm_compute; right; now left|].
  split.
  - vm_compute. intros [H|[H|[H|[H|[]]]]]; discriminate.
  - split; [vm_compute; right; now left|].
    split; [reflexivity | vm_compute; reflexivity].
Qed.

(* ================================================================== *)
(** * The traditional searches and the router *)

Section SearchClaims.
Context {E : Env}.

(** What [scan] returns was held already or is the hit of a matching
    chunk. *)
Lemma scan_hits (matches : metadata -> string -> bool) (k : nat)
  (items : list (metadata * string)) (results : list result) (seen : PySet.t) (r : result) :
  In r (scan matches k items results seen) ->
  In r results
  \/ exists m text, In (m, text) items /\ matches m text = true /\ r = hit text m.
Proof.
  revert results seen. induction items as [|[m text] items IH]; intros results seen; simpl.
  - now left.
  - destruct (matches m text) eqn:Hm.
    + destruct (PySet.mem (m_decision_id m) seen).
      * intros Hin. destruct (IH _ _ Hin) as [H|[m' [t' [H1 H2]]]]; [now left|].
        right. exists m', t'. split; [now right | assumption].
      * assert (Hnew : In r (results ++ [hit text m]) ->
                       In r results
                       \/ exists m' t', ((m, text) = (m', t') \/ In (m', t') items)
                                        /\ matches m' t' = true /\ r = hit t' m').
        { intros Hin. apply in_app_or in Hin as [Hin|[<-|[]]]; [now left|].
          right. exists m, text. repeat split; [now left | assumption]. }
        destruct (k <=? length (results ++ [hit text m])); [exact Hnew|].
        intros Hin. destruct (IH _ _ Hin) as [H|[m' [t' [H1 H2]]]].
        -- now apply Hnew.
        -- right. exists m', t'. split; [now right | assumption].
    + intros Hin. destruct (IH _ _ Hin) as [H|[m' [t' [H1 H2]]]]; [now left|].
      right. exists m', t'. split; [now right | assumption].
Qed.

(** Without a matching chunk [scan] adds nothing. *)
Lemma scan_no_match (matches : metadata -> string -> bool) (k : nat)
  (items : list (metadata * string)) (results : list result) (seen : PySet.t) :
  (forall m text, In (m, text) items -> matches m text = false) ->
  scan matches k items results seen = results.
Proof.
  revert results seen. induction items as [|[m text] items IH]; intros results seen Hno;
    simpl; [reflexivity|].
  rewrite (Hno m text) by now left. apply IH. intros m' t' Hin. apply Hno. now right.
Qed.

(** *** Case numbers *)

Lemma replace_keeps_digit (a b c : ascii) :
  is_separator a = true -> is_separator b = true ->
  is_ascii_digit (if Ascii.eqb c a then b else c) = is_ascii_digit c.
Proof.
  intros Ha Hb. destruct (Ascii.eqb_spec c a) as [->|_]; [|reflexivity].
  unfold is_separator in *.
  apply orb_true_iff in Ha as [Ha|Ha]; apply orb_true_iff in Hb as [Hb|Hb];
    apply Ascii.eqb_eq in Ha, Hb; subst; reflexivity.
Qed.

Lemma replace_keeps_separator (a b c : ascii) :
  is_separator a = true -> is_separator b = true ->
  is_separator (if Ascii.eqb c a then b else c) = is_separator c.
Proof.
  intros Ha Hb. destruct (Ascii.eqb_spec c a) as [->|_]; [|reflexivity]. congruence.
Qed.

Lemma replace_keeps_all_digits (a b : ascii) (s : string) :
  is_separator a = true -> is_separator b = true ->
  all_digits (str_replace a b s) = all_digits s.
Proof.
  intros Ha Hb. induction s as [|c s IH]; simpl; [reflexivity|].
  now rewrite replace_keeps_digit, IH.
Qed.

Lemma replace_keeps_truthy (a b : ascii) (s : string) :
  truthy (str_replace a b s) = truthy s.
Proof. now destruct s. Qed.

Lemma replace_keeps_number (a b : ascii) (s : string) :
  is_separator a = true -> is_separator b = true ->
  digits_then_number (str_replace a b s) = digits_then_number s.
Proof.
  intros Ha Hb. induction s as [|c s IH]; simpl; [reflexivity|].
  rewrite replace_keeps_digit, replace_keeps_separator, replace_keeps_truthy,
    replace_keeps_all_digits, IH by assumption.
  reflexivity.
Qed.

Lemma replace_keeps_bare (a b : ascii) (s : string) :
  is_separator a = true -> is_separator b = true ->
  bare_case_number (str_replace a b s) = bare_case_number s.
Proof.
  intros Ha Hb. destruct s as [|c s]; simpl; [reflexivity|].
  now rewrite replace_keeps_digit, replace_keeps_number.
Qed.

Lemma case_number_matches_bare (clean : string) (m : metadata) :
  case_number_matches clean m = true ->
  bare_case_number clean = bare_case_number (m_decision_id m).
Proof.
  unfold case_number_matches. intros Hm.
  apply orb_true_iff in Hm as [Hm|Hm]; [apply orb_true_iff in Hm as [Hm|Hm]|];
    apply String.eqb_eq in Hm; rewrite <- Hm; [reflexivity| |];
    symmetry; now apply replace_keeps_bare.
Qed.

(** C10, as amended.  The case-number step compares the whole stripped
    query with each decision id, up to the exchange of [/] and [-]; so
    when every decision id is a bare case number and the stripped query is
    not one (a case number with text around it), the lookup finds nothing
    and [_combined_search] is what its later steps return. *)
Theorem case_number_with_text_falls_through (sm : SearchManager) (query : string)
  (case_type judge_name : option string) (k : nat) :
  (forall m, In m (metadatas (traditional_engine sm)) ->
             bare_case_number (m_decision_id m) = true) ->
  bare_case_number (str_strip query) = false ->
  search_by_case_number (traditional_engine sm) query k = []
  /\ _combined_search sm query case_type judge_name k
     = judge_steps sm query case_type judge_name k.
Proof.
  intros Hids Hquery.
  assert (Hnone : search_by_case_number (traditional_engine sm) query k = []).
  { unfold search_by_case_number. apply scan_no_match. intros m text Hin.
    destruct (case_number_matches (str_strip query) m) eqn:Hm; [|reflexivity].
    apply case_number_matches_bare in Hm. apply in_combine_l in Hin.
    rewrite (Hids m Hin) in Hm. congruence. }
  split; [assumption|].
  unfold _combined_search. rewrite Hnone. now destruct (re_search _ query).
Qed.

(** *** Judges *)

Lemma judge_ground_overlaps (eng : TraditionalSearchEngine) (name : string) (m : metadata) :
  judge_ground (find_best_match name (flat_map m_judges (metadatas eng)) 0.5%Q) m = true ->
  judge_overlaps name m.
Proof.
  unfold judge_ground, judge_overlaps. intros Hg.
  apply existsb_exists in Hg as [judge [Hin Hmem]].
  exists judge. split; [assumption|].
  apply mem_In in Hmem. unfold find_best_match in Hmem.
  now apply filter_In in Hmem as [_ Hov].
Qed.

Lemma normalized_ground_overlaps (name : string) (m : metadata) :
  normalized_ground (normalize_judge_name name) m = true -> stored_name_overlaps name m.
Proof.
  unfold normalized_ground, stored_name_overlaps. intros Hg.
  apply existsb_exists in Hg as [jn [Hin Hov]]. now exists jn.
Qed.

(** Every result of [search_by_judge] is the hit of a chunk kept on one of
    its three grounds. *)
Lemma search_by_judge_grounds (eng : TraditionalSearchEngine) (name : string) (k : nat)
  (r : result) :
  In r (search_by_judge eng name k) ->
  exists m text,
    In (m, text) (combine (metadatas eng) (docs eng))
    /\ r = hit text m
    /\ (judge_overlaps name m \/ stored_name_overlaps name m \/ text_mentions name text).
Proof.
  unfold search_by_judge. intros Hin.
  apply scan_hits in Hin as [[]|[m [text [Hitem [Hmatch Hr]]]]].
  exists m, text. split; [assumption|]. split; [assumption|].
  apply orb_true_iff in Hmatch as [Hmatch|Htext].
  - apply orb_true_iff in Hmatch as [Hj|Hn].
    + left. now apply judge_ground_overlaps with (eng := eng).
    + right. left. now apply normalized_ground_overlaps.
  - right. right. exact Htext.
Qed.

(** C5, as amended.  When the case-number step produced nothing and
    [_combined_search] answers from the judge search for [name], what it
    returns is [search_by_judge name], and every case in it comes from a
    chunk kept on one of three grounds: a judge of the chunk overlaps the
    name (normalized containment either way, or a ratio of at least 0.5),
    a stored normalized judge name contains or is contained in the
    normalized name, or the text of the chunk mentions the name. *)
Theorem judge_route_grounds (sm : SearchManager) (query : string)
  (case_type judge_name : option string) (k : nat) (name : string) :
  no_case_number_match sm query k ->
  routes_to_judge_search sm query judge_name k name ->
  _combined_search sm query case_type judge_name k
  = Return (search_by_judge (traditional_engine sm) name k)
  /\ forall r,
       In r (search_by_judge (traditional_engine sm) name k) ->
       exists m text,
         In (m, text) (combine (metadatas (traditional_engine sm))
                               (docs (traditional_engine sm)))
         /\ r = hit text m
         /\ (judge_overlaps name m \/ stored_name_overlaps name m
             \/ text_mentions name text).
Proof.
  intros Hno Hroute. split; [|intros r; apply search_by_judge_grounds].
  assert (Hstep : _combined_search sm query case_type judge_name k
                  = judge_steps sm query case_type judge_name k).
  { unfold _combined_search. destruct Hno as [-> | ->]; [reflexivity|].
    now destruct (re_search _ query). }
  rewrite Hstep. unfold judge_steps.
  destruct Hroute as [name Hgiven Hfound | groups Hfilter Hsearch Hfound].
  - rewrite Hgiven.
    destruct (search_by_judge (traditional_engine sm) name k); [contradiction | reflexivity].
  - assert (Hquery :
      match re_search "ผู้พิพากษา\s*(\w+)" query with
      | Some groups0 =>
          match search_by_judge (traditional_engine sm) (nth 1 groups0 "") k with
          | [] => case_type_steps sm query case_type k
          | (_ :: _) as results => Return results
          end
      | None => case_type_steps sm query case_type k
      end = Return (search_by_judge (traditional_engine sm) (nth 1 groups "") k)).
    { rewrite Hsearch.
      destruct (search_by_judge (traditional_engine sm) (nth 1 groups "") k);
        [contradiction | reflexivity]. }
    destruct Hfilter as [-> | [name' [-> Hempty]]]; [exact Hquery|].
    rewrite Hempty. exact Hquery.
Qed.

End SearchClaims.

(** C10: a run.  The only decision id is the bare "123/2566"; the query
    names it inside a sentence, and the lookup finds nothing. *)
Lemma case_number_with_text_witness :
  search_by_case_number (E := py)
    (traditional_engine (Examples.manager ["ผิดสัญญา"] [Examples.bare_meta]))
    "คดี 123/2566" 5 = [].
Proof.
  refine (proj1 (@case_number_with_text_falls_through py
                   (Examples.manager ["ผิดสัญญา"] [Examples.bare_meta])
                   "คดี 123/2566" None None 5 _ _)).
  - intros m [<-|[]]. reflexivity.
  - reflexivity.
Defined.

(** C10 fails as stated: a decision id may itself carry text.  The query
    "ฎีกาที่ 123/2566" holds a case-number pattern with text before it, and
    the lookup returns the case whose decision id is that very string; the
    router returns it at once. *)
Lemma case_number_with_text_can_hit :
  PyModel.search "\d+/\d+" "ฎีกาที่ 123/2566" = Some ["123/2566"]
  /\ search_by_case_number (E := py)
       (traditional_engine (Examples.manager ["ผิดสัญญา"] [Examples.prefixed_meta]))
       "ฎีกาที่ 123/2566" 5
     = [hit (E := py) "ผิดสัญญา" Examples.prefixed_meta]
  /\ _combined_search (E := py) (Examples.manager ["ผิดสัญญา"] [Examples.prefixed_meta])
       "ฎีกาที่ 123/2566" None None 5
     = Return [hit (E := py) "ผิดสัญญา" Examples.prefixed_meta].
Proof. vm_compute. repeat split. Qed.

(** C5: a run.  The query "ผู้พิพากษา สมชาย" has no case number and no
    filter; the router answers from the judge search for "สมชาย". *)
Lemma judge_route_witness :
  _combined_search (E := py)
    (Examples.manager [Examples.witness_text] [Examples.witness_meta])
    "ผู้พิพากษา สมชาย" None None 5
  = Return (search_by_judge (E := py)
              (traditional_engine
                 (Examples.manager [Examples.witness_text] [Examples.witness_meta]))
              "สมชาย" 5).
Proof.
  refine (proj1 (@judge_route_grounds py
                   (Examples.manager [Examples.witness_text] [Examples.witness_meta])
                   "ผู้พิพากษา สมชาย" None None 5 "สมชาย" _ _)).
  - left. vm_compute. reflexivity.
  - apply (@route_by_query py
             (Examples.manager [Examples.witness_text] [Examples.witness_meta])
             "ผู้พิพากษา สมชาย" None 5 ["ผู้พิพากษา สมชาย"; "สมชาย"]).
    + left. reflexivity.
    + vm_compute. reflexivity.
    + vm_compute. discriminate.
Defined.

(** C5 fails as stated: for the query "ผู้พิพากษา สมชาย" the router returns
    case 77/2560, which lists no judge at all; it is kept because its
    text mentions the name. *)
Lemma judge_search_returns_text_mention :
  _combined_search (E := py)
    (Examples.manager [Examples.witness_text] [Examples.witness_meta])
    "ผู้พิพากษา สมชาย" None None 5
  = Return [hit (E := py) Examples.witness_text Examples.witness_meta]
  /\ r_decision_id (hit (E := py) Examples.witness_text Examples.witness_meta) = "77/2560"
  /\ m_judges Examples.witness_meta = []
  /\ ~ judge_overlaps (E := py) "สมชาย" Examples.witness_meta
  /\ text_mentions (E := py) "สมชาย" Examples.witness_text.
Proof.
  split; [vm_compute; reflexivity|]. split; [reflexivity|]. split; [reflexivity|].
  split; [|vm_compute; reflexivity].
  intros [judge [Hin _]]. exact Hin.
Qed.

(* ================================================================== *)
(** * Further properties of the builder *)

Section WeightFacts.
Context {E : Env}.
Import OrderedDict.

Lemma positive_empty : positive_weights Nx.empty.
Proof. intros x y d w Hd. discriminate Hd. Qed.

Lemma positive_add_node g n ty :
  good g -> positive_weights g -> positive_weights (Nx.add_node g n ty).
Proof.
  intros Hg Hpos x y d w Hd. apply (Hpos x y d w).
  rewrite get_edge_data_adjacency in *.
  now rewrite adjacency_add_node in Hd by apply (good_wf Hg).
Qed.

Lemma positive_add_edge g u v rel w :
  good g -> positive_weights g ->
  (forall q, w = Some q -> (0 < q)%Q) ->
  positive_weights (Nx.add_edge g u v rel w).
Proof.
  intros Hg Hpos Hw x y d q Hd Hq.
  rewrite get_edge_data_add_edge in Hd by apply (good_wf Hg).
  destruct (pair_eqb x y u v); [|now apply (Hpos x y d q)].
  injection Hd as <-. unfold new_attr in Hq. simpl in Hq.
  destruct w as [q'|]; [injection Hq as <-; now apply Hw|].
  destruct (Nx.get_edge_data g u v) as [d'|] eqn:Hd'; [|discriminate Hq].
  now apply (Hpos u v d' q).
Qed.

Lemma weight_or_0_nonneg g x y : positive_weights g -> (0 <= weight_or_0 g x y)%Q.
Proof.
  intros Hpos. unfold weight_or_0.
  destruct (Nx.get_edge_data g x y) as [[r [w|]]|] eqn:Hd; try apply Qle_refl.
  apply Qlt_le_weak. now apply (Hpos x y _ w Hd).
Qed.

Lemma edge_weight_or_1_positive g x y : positive_weights g -> (0 < edge_weight_or_1 g x y)%Q.
Proof.
  intros Hpos. unfold edge_weight_or_1.
  destruct (Nx.get_edge_data g x y) as [[r [w|]]|] eqn:Hd; try reflexivity.
  now apply (Hpos x y _ w Hd).
Qed.

(** Both properties together, as the loops of the builder keep them. *)
Definition sound (g : Nx.Graph) : Prop := good g /\ positive_weights g.

Lemma sound_add_node g n ty : sound g -> sound (Nx.add_node g n ty).
Proof. intros [Hg Hp]. split; [now apply good_add_node | now apply positive_add_node]. Qed.

Lemma sound_add_edge g u v rel w :
  sound g -> (forall q, w = Some q -> (0 < q)%Q) -> sound (Nx.add_edge g u v rel w).
Proof. intros [Hg Hp] Hw. split; [now apply good_add_edge | now apply positive_add_edge]. Qed.

Lemma sound_plain_edge g u v rel : sound g -> sound (Nx.add_edge g u v rel None).
Proof. intros Hs. apply sound_add_edge; [assumption | discriminate]. Qed.

Lemma sound_add_contains g case_id entities :
  sound g -> sound (add_contains g case_id entities).
Proof.
  intros Hs. unfold add_contains.
  apply fold_left_inv; [assumption|]. intros g0 [ty s] _ H0.
  apply fold_left_inv; [assumption|]. intros g1 e _ Hg1.
  destruct (negb _); [now apply sound_plain_edge | assumption].
Qed.

Lemma sound_add_handles g entities : sound g -> sound (add_handles g entities).
Proof.
  intros Hs. unfold add_handles. destruct (_ && _); [|assumption].
  apply fold_left_inv; [assumption|]. intros g0 j _ H0.
  apply fold_left_inv; [assumption|]. intros g2 c _ Hg2. now apply sound_plain_edge.
Qed.

Lemma sound_add_deals_with g entities : sound g -> sound (add_deals_with g entities).
Proof.
  intros Hs. unfold add_deals_with. destruct (_ && _); [|assumption].
  apply fold_left_inv; [assumption|]. intros g0 j _ H0.
  apply fold_left_inv; [assumption|]. intros g3 c _ Hg3.
  apply sound_add_edge; [assumption|]. intros q [= <-].
  apply Qlt_le_trans with (y := 1%Q); [reflexivity|].
  rewrite <- (Qplus_0_l 1) at 1. apply Qplus_le_compat; [|apply Qle_refl].
  apply weight_or_0_nonneg. apply Hg3.
Qed.

Lemma sound_add_case g case_id entities : sound g -> sound (add_case g case_id entities).
Proof.
  intros Hs. unfold add_case.
  now apply sound_add_deals_with, sound_add_handles, sound_add_contains.
Qed.

Lemma sound_build_graph (emb folder : string) (cases_data : list case_data) :
  sound (graph (build_graph (new_knowledge_graph emb folder) cases_data)).
Proof.
  unfold build_graph. simpl.
  set (st := collect_entities _ cases_data).
  assert (H1 : sound (add_entity_nodes Nx.empty (all_entities st))).
  { unfold add_entity_nodes.
    apply fold_left_inv; [split; [apply good_empty | apply positive_empty]|].
    intros g [ty s] _ Hg. apply fold_left_inv; [assumption|].
    intros g' e _ Hg'. now apply sound_add_node. }
  assert (H2 : sound (_add_case_relationships (add_entity_nodes Nx.empty (all_entities st))
                                             (case_entities st))).
  { unfold _add_case_relationships. apply fold_left_inv; [assumption|].
    intros g [case_id entities] _ Hg. now apply sound_add_case. }
  unfold _add_similarity_relationships.
  destruct (_ <? 2); [assumption|].
  destruct (tfidf_cosine_similarity _) as [m|]; [|assumption].
  apply fold_left_inv; [assumption|]. intros g [i id1] _ Hg.
  apply fold_left_inv; [assumption|]. intros g' [j id2] _ Hg'.
  destruct ((i <? j) && qltb 0.3%Q (matrix_at m i j)) eqn:Hc; [|assumption].
  apply sound_add_edge; [assumption|]. intros q [= <-].
  apply andb_true_iff in Hc as [_ Hc]. apply qltb_true_lt in Hc.
  eapply Qlt_trans; [|exact Hc]. reflexivity.
Qed.

(** X1.  Every weight stored in a graph built from a fresh knowledge graph
    is positive: a [deals_with] weight is a prior weight plus one, a
    [similar_to] weight is above the threshold 0.3; and the weight the
    traversal reads on any pair (1.0 when none is stored) is positive. *)
Theorem built_graph_weights_positive (emb folder : string) (cases_data : list case_data) :
  positive_weights (graph (build_graph (new_knowledge_graph emb folder) cases_data))
  /\ forall x y,
       (0 < edge_weight_or_1
              (graph (build_graph (new_knowledge_graph emb folder) cases_data)) x y)%Q.
Proof.
  pose proof (sound_build_graph emb folder cases_data) as [_ Hp].
  split; [assumption|]. intros x y. now apply edge_weight_or_1_positive.
Qed.

End WeightFacts.

(* ================================================================== *)
(** * Further properties of the traversal *)

Section TraversalFacts.
Variable g : Nx.Graph.
Variable entity : string.
Variable max_depth max_results : nat.
Hypothesis Hpos : positive_weights g.

(** What the loop keeps true of the scores and types it records. *)
Record bfs_scored (st : bfs_state) : Prop := {
  scored_related : forall n t s,
    In (n, t, s) (related st) ->
    t = Nx.node_type g n "unknown" /\ (0 < s)%Q /\ In n (all_neighbors g);
  scored_queue : forall n d s, In (n, d, s) (queue st) -> (0 < s)%Q
}.

Lemma Q_of_nat_succ_positive (d : nat) : (0 < Q_of_nat (d + 1))%Q.
Proof. unfold Q_of_nat, Qlt. simpl. lia. Qed.

Lemma neighbor_score_positive current neighbor depth score :
  (0 < score)%Q ->
  (0 < score * (edge_weight_or_1 g current neighbor / Q_of_nat (depth + 1)))%Q.
Proof.
  intros Hs. apply Qmult_lt_0_compat; [assumption|].
  unfold Qdiv. apply Qmult_lt_0_compat.
  - now apply edge_weight_or_1_positive.
  - apply Qinv_lt_0_compat, Q_of_nat_succ_positive.
Qed.

Lemma visit_neighbor_scored current depth score st neighbor :
  (0 < score)%Q -> In neighbor (all_neighbors g) ->
  bfs_scored st -> bfs_scored (visit_neighbor g entity current depth score st neighbor).
Proof.
  intros Hs Hin [Hrel Hq]. unfold visit_neighbor.
  destruct (PySet.mem neighbor (visited st)); [now split|].
  split; simpl.
  - intros n t s Hn. destruct (negb (String.eqb neighbor entity)); [|now apply Hrel].
    apply in_app_or in Hn as [Hn|[[= <- <- <-]|[]]]; [now apply Hrel|].
    split; [reflexivity|]. split; [now apply neighbor_score_positive | assumption].
  - intros n d s Hn. apply in_app_or in Hn as [Hn|[[= <- <- <-]|[]]]; [now apply (Hq n d)|].
    now apply neighbor_score_positive.
Qed.

Lemma bfs_body_scored st : bfs_scored st -> bfs_scored (bfs_body g entity max_depth st).
Proof.
  intros Hst. unfold bfs_body.
  destruct (queue st) as [|[[current depth] score] rest] eqn:Hqueue; [assumption|].
  assert (Hscore : (0 < score)%Q)
    by (apply (scored_queue Hst current depth); rewrite Hqueue; now left).
  assert (Hpop : bfs_scored {| related := related st; visited := visited st; queue := rest |}).
  { destruct Hst as [Hrel Hq]. split; simpl; [assumption|].
    intros n d s Hn. apply (Hq n d). rewrite Hqueue. now right. }
  destruct (max_depth <=? depth); [assumption|].
  apply fold_left_inv; [assumption|].
  intros st' n Hn Hst'. apply visit_neighbor_scored; try assumption.
  now apply neighbors_in_all with (current := current).
Qed.

Lemma bfs_loop_scored fuel st :
  bfs_scored st -> bfs_scored (bfs_loop fuel g entity max_depth max_results st).
Proof.
  revert st. induction fuel as [|fuel IH]; intros st Hst; simpl; [assumption|].
  destruct (bfs_continue max_results st); [|assumption].
  apply IH. now apply bfs_body_scored.
Qed.

Lemma bfs_init_scored : bfs_scored (bfs_init entity).
Proof.
  split; simpl; [intros n t s []|].
  intros n d s [[= <- <- <-]|[]]. reflexivity.
Qed.

End TraversalFacts.

Lemma get_related_entities_scored (kg : LegalKnowledgeGraph) (entity : string)
  (D M : nat) (n t : string) (s : Q) :
  positive_weights (graph kg) ->
  In (n, t, s) (get_related_entities kg entity D M) ->
  t = Nx.node_type (graph kg) n "unknown"
  /\ (0 < s)%Q
  /\ In n (all_neighbors (graph kg)).
Proof.
  intros Hpos Hin. unfold get_related_entities in Hin.
  destruct (Nx.has_node (graph kg) entity); cbn [negb] in Hin; [|contradiction].
  apply In_firstn in Hin.
  apply (Permutation_in _ (Permutation_sym (sort_desc_perm score_of _))) in Hin.
  revert Hin. apply scored_related.
  apply bfs_loop_scored; [assumption|]. apply bfs_init_scored.
Qed.

(** X2.  In a graph whose stored weights are positive, every triple
    [get_related_entities] returns carries the type recorded on the node
    (["unknown"] when none is), a positive score, and the name of a node
    that is a neighbour of some node of the graph. *)
Theorem related_entities_typed_and_positive (kg : LegalKnowledgeGraph) (entity : string)
  (D M : nat) (n t : string) (s : Q) :
  positive_weights (graph kg) ->
  In (n, t, s) (get_related_entities kg entity D M) ->
  t = Nx.node_type (graph kg) n "unknown"
  /\ (0 < s)%Q
  /\ In n (all_neighbors (graph kg)).
Proof. apply get_related_entities_scored. Qed.

(** A run on the theft graph: the fourth case, found from the concept. *)
Lemma related_entities_witness :
  "case" = Nx.node_type (graph Examples.theft_kg) "104/2566" "unknown"
  /\ (0 < 3 # 2)%Q
  /\ In "104/2566" (all_neighbors (graph Examples.theft_kg)).
Proof.
  apply (@related_entities_typed_and_positive Examples.theft_kg "ลักทรัพย์" 2 10
           "104/2566" "case" (3 # 2)%Q).
  - apply (@sound_build_graph py "data/embeddings" "data/graphs" Examples.theft_corpus).
  - vm_compute. right. now left.
Defined.

(** X3.  With [max_depth = 0] nothing is expanded, and with
    [max_results = 0] the loop is never entered: both calls return the
    empty list, for every graph and entity. *)
Theorem related_entities_empty_at_zero (kg : LegalKnowledgeGraph) (entity : string)
  (D M : nat) :
  get_related_entities kg entity 0 M = []
  /\ get_related_entities kg entity D 0 = [].
Proof.
  unfold get_related_entities.
  destruct (Nx.has_node (graph kg) entity); simpl; [|now split].
  split.
  - unfold bfs_measure. simpl.
    destruct M as [|M]; [now rewrite firstn_nil || reflexivity|].
    simpl.
    destruct (length _) as [|fuel]; reflexivity.
  - reflexivity.
Qed.

(* ================================================================== *)
(** * Further properties of the retriever *)

Section RetrieverBounds.
Context {E : Env}.

Lemma qmin_le_r (a b : Q) : (qmin a b <= b)%Q.
Proof.
  unfold qmin, qleb. destruct (Qle_bool a b) eqn:Hc; [|apply Qle_refl].
  now apply Qle_bool_iff.
Qed.

Lemma qmin_nonneg (a b : Q) : (0 <= a)%Q -> (0 <= b)%Q -> (0 <= qmin a b)%Q.
Proof. intros Ha Hb. unfold qmin. now destruct (qleb a b). Qed.

Lemma Q_of_nat_nonneg (n : nat) : (0 <= Q_of_nat n)%Q.
Proof. unfold Q_of_nat, Qle. simpl. lia. Qed.

Lemma matching_sum_nonneg (query_terms : PySet.t) (l : list entity_info) (acc : Q) :
  (forall ei, In ei l -> (0 <= ei_relevance_score ei)%Q) ->
  (0 <= acc)%Q ->
  (0 <= fold_left
          (fun score entity_info =>
             if existsb (fun term => str_in term (str_lower (ei_entity entity_info)))
                        query_terms
             then (score + ei_relevance_score entity_info * 0.5)%Q else score)
          l acc)%Q.
Proof.
  revert acc. induction l as [|ei l IH]; intros acc Hl Hacc; simpl; [assumption|].
  apply IH; [intros; apply Hl; now right|].
  destruct (existsb _ _); [|assumption].
  assert (H0 := Hl ei (or_introl eq_refl)). lra.
Qed.

Lemma graph_relevance_in_unit (case_id query : string) (context : graph_context) :
  (forall ei, In ei (related_entities context) -> (0 <= ei_relevance_score ei)%Q) ->
  (0 <= _calculate_graph_relevance case_id query context
   /\ _calculate_graph_relevance case_id query context <= 1)%Q.
Proof.
  intros Hscores. unfold _calculate_graph_relevance. split; [|apply qmin_le_r].
  apply qmin_nonneg; [|lra].
  pose proof (matching_sum_nonneg (PySet.update [] (str_split (str_lower query)))
                (related_entities context) Hscores (Qle_refl 0)) as Hsum.
  assert (H1 : (0 <= qmin (Q_of_nat (length (community_members context)) * 0.1) 0.3)%Q).
  { apply qmin_nonneg; [|lra].
    pose proof (Q_of_nat_nonneg (length (community_members context))). lra. }
  assert (H2 : (0 <= qmin (Q_of_nat (length (similar_cases context)) * 0.05) 0.2)%Q).
  { apply qmin_nonneg; [|lra].
    pose proof (Q_of_nat_nonneg (length (similar_cases context))). lra. }
  lra.
Qed.

(** X4.  The graph-relevance score is at most 1 for every context and
    query, and at least 0 when no related entity of the context has a
    negative relevance score. *)
Theorem calculate_graph_relevance_bounds (case_id query : string) (context : graph_context) :
  (_calculate_graph_relevance case_id query context <= 1)%Q
  /\ ((forall ei, In ei (related_entities context) -> (0 <= ei_relevance_score ei)%Q) ->
      (0 <= _calculate_graph_relevance case_id query context)%Q).
Proof.
  split.
  - unfold _calculate_graph_relevance. apply qmin_le_r.
  - intros Hscores. now apply graph_relevance_in_unit.
Qed.

(** The related entities of a context are the triples of the traversal,
    in its order. *)
Lemma categorize_related (l : list (string * string * Q)) (context : graph_context) :
  related_entities (fold_left categorize l context)
  = related_entities context
    ++ map (fun x => {| ei_entity := fst (fst x); ei_type := snd (fst x);
                        ei_relevance_score := snd x |}) l.
Proof.
  revert context. induction l as [|[[n t] s] l IH]; intros context; simpl.
  - now rewrite app_nil_r.
  - rewrite IH. simpl. now rewrite <- app_assoc.
Qed.

Lemma case_graph_context_scores (kg : LegalKnowledgeGraph) (case_id : string) (depth : nat)
  (ei : entity_info) :
  positive_weights (graph kg) ->
  In ei (related_entities (_get_case_graph_context kg case_id depth)) ->
  (0 <= ei_relevance_score ei)%Q.
Proof.
  intros Hpos. unfold _get_case_graph_context.
  destruct (Nx.has_node (graph kg) case_id); cbn [negb]; [|intros []].
  cbn [related_entities]. rewrite categorize_related. simpl.
  intros Hin. apply in_map_iff in Hin as [[[n t] s] [<- Hin]]. simpl.
  apply Qlt_le_weak.
  now apply (get_related_entities_scored kg case_id depth 20 n t s Hpos Hin).
Qed.

(** What the two loops of the retriever keep true of the results held so
    far: decision ids are distinct and marked as seen, and a result that
    carries a graph context has both scores within [0, 1]. *)
Record retrieved (acc : list result * PySet.t) : Prop := {
  ret_nodup : NoDup (map r_decision_id (fst acc));
  ret_seen : forall id, In id (map r_decision_id (fst acc)) -> PySet.mem id (snd acc) = true;
  ret_scores : forall r, In r (fst acc) -> r_graph_context r <> None -> scores_in_unit r
}.

Lemma retrieved_append (results : list result) (seen : PySet.t) (r : result) :
  retrieved (results, seen) ->
  PySet.mem (r_decision_id r) seen = false ->
  (r_graph_context r <> None -> scores_in_unit r) ->
  retrieved (results ++ [r], PySet.add seen (r_decision_id r)).
Proof.
  intros [Hnd Hseen Hsc] Hfresh Hr. simpl in *. split; simpl.
  - rewrite map_app. simpl. apply NoDup_app; [assumption | repeat constructor; simpl; tauto|].
    intros id Hid [<-|[]]. apply Hseen in Hid. congruence.
  - intros id. rewrite map_app. simpl. rewrite mem_add. intros Hid.
    apply in_app_or in Hid as [Hid|[<-|[]]].
    + now rewrite (Hseen id Hid).
    + rewrite String.eqb_refl. apply orb_true_r.
  - intros r' Hin. apply in_app_or in Hin as [Hin|[<-|[]]]; [now apply Hsc | assumption].
Qed.

Lemma enhance_one_retrieved kg query depth cw acc r acc' :
  positive_weights (graph kg) ->
  (0 <= cw /\ cw <= 1)%Q ->
  similarity_in_unit r ->
  retrieved acc ->
  enhance_one kg query depth cw acc r = Return acc' ->
  retrieved acc'.
Proof.
  intros Hpos Hcw Hsim Hacc. unfold enhance_one. destruct acc as [results seen].
  destruct (negb (truthy (r_decision_id r)) || PySet.mem (r_decision_id r) seen) eqn:Hskip.
  - now intros [= <-].
  - apply orb_false_iff in Hskip as [_ Hfresh].
    pose proof (graph_relevance_in_unit (r_decision_id r) query
                  (_get_case_graph_context kg (r_decision_id r) depth)
                  (fun ei => case_graph_context_scores kg (r_decision_id r) depth ei Hpos))
      as Hg.
    set (relevance := _calculate_graph_relevance _ _ _) in *.
    unfold similarity_in_unit in Hsim.
    assert (Hnum : exists s, as_number (or_default (r_similarity r) (PyNum 0.5%Q)) = Return s
                             /\ (0 <= s /\ s <= 1)%Q).
    { destruct (r_similarity r) as [[s| |]|]; try contradiction.
      - now exists s.
      - exists 0.5%Q. split; [reflexivity | lra]. }
    destruct Hnum as [s [-> Hs]]. simpl. intros [= <-].
    match goal with
    | |- retrieved (_ ++ [?e], _) => apply (@retrieved_append results seen e Hacc Hfresh)
    end.
    intros _. exists relevance, ((1 - cw) * s + cw * relevance)%Q. simpl.
    split; [reflexivity|]. split; [reflexivity|]. split; [assumption|]. nra.
Qed.

Lemma enhance_all_retrieved kg query depth cw vector_results acc acc' :
  positive_weights (graph kg) ->
  (0 <= cw /\ cw <= 1)%Q ->
  (forall r, In r vector_results -> similarity_in_unit r) ->
  retrieved acc ->
  enhance_all kg query depth cw vector_results acc = Return acc' ->
  retrieved acc'.
Proof.
  intros Hpos Hcw. revert acc.
  induction vector_results as [|r rest IH]; intros acc Hsim Hacc; simpl.
  - now intros [= <-].
  - destruct (enhance_one kg query depth cw acc r) as [acc1|e] eqn:Hone; simpl;
      [|discriminate].
    apply IH; [intros; apply Hsim; now right|].
    eapply enhance_one_retrieved; eauto. apply Hsim. now left.
Qed.

Lemma append_additional_retrieved (l : list result) (acc : list result * PySet.t) :
  (forall r, In r l -> r_graph_context r = None) ->
  retrieved acc -> retrieved (fold_left append_additional l acc).
Proof.
  intros Hl Hacc. apply fold_left_inv; [assumption|].
  intros [results seen] r Hin Hst. unfold append_additional.
  destruct (negb (PySet.mem (r_decision_id r) seen)) eqn:Hfresh; [|assumption].
  apply retrieved_append; [assumption | now apply negb_true_iff in Hfresh |].
  intros Hctx. now rewrite (Hl r Hin) in Hctx.
Qed.

Lemma additional_cases_have_no_context kg query existing max_results r :
  In r (_find_additional_relevant_cases kg query existing max_results) ->
  r_graph_context r = None.
Proof.
  unfold _find_additional_relevant_cases.
  apply (fold_left_inv (fun l => In r l -> r_graph_context r = None)); [intros []|].
  intros l entity _ Hl. destruct (Nx.has_node (graph kg) entity); [|assumption].
  apply (fold_left_inv (fun l => In r l -> r_graph_context r = None)); [assumption|].
  intros l' [[n t] s] _ Hl'. destruct (_ && _); [|assumption].
  intros Hin. apply in_app_or in Hin as [Hin|[<-|[]]]; [now apply Hl' | reflexivity].
Qed.

Lemma retrieve_retrieved kg query vector_results depth cw results :
  positive_weights (graph kg) ->
  (0 <= cw /\ cw <= 1)%Q ->
  (forall r, In r vector_results -> similarity_in_unit r) ->
  retrieve_with_graph_context kg query vector_results depth cw = Return results ->
  exists acc, retrieved acc /\ results = sort_desc sort_key (fst acc).
Proof.
  intros Hpos Hcw Hsim. unfold retrieve_with_graph_context.
  destruct vector_results as [|r0 rest] eqn:Hvr.
  - intros [= <-]. exists ([], []). split; [|reflexivity].
    split; simpl; [constructor | intros ? [] | intros ? []].
  - rewrite <- Hvr in *.
    destruct (enhance_all kg query depth cw vector_results ([], [])) as [acc|e] eqn:Hall;
      simpl; [|discriminate].
    assert (Hacc : retrieved acc).
    { eapply enhance_all_retrieved; eauto.
      split; simpl; [constructor | intros ? [] | intros ? []]. }
    pose proof (append_additional_retrieved
                  (_find_additional_relevant_cases kg query (map r_decision_id (fst acc)) 5)
                  (fun r => additional_cases_have_no_context kg query _ 5 r) Hacc) as Hfin.
    destruct (fold_left append_additional _ acc) as [final seen] eqn:Hfold.
    intros [= <-]. exists (final, seen). now split.
Qed.

(** X5.  When the stored weights are positive, the blend weight is in
    [0, 1] and every candidate carries a similarity in [0, 1], each result
    of [retrieve_with_graph_context] that carries a graph context (the
    enhanced vector candidates) has its graph relevance and its enhanced
    similarity within [0, 1]. *)
Theorem enhanced_candidates_scores_in_unit kg query vector_results depth cw results r :
  positive_weights (graph kg) ->
  (0 <= cw /\ cw <= 1)%Q ->
  (forall c, In c vector_results -> similarity_in_unit c) ->
  retrieve_with_graph_context kg query vector_results depth cw = Return results ->
  In r results ->
  r_graph_context r <> None ->
  scores_in_unit r.
Proof.
  intros Hpos Hcw Hsim Hret Hin Hctx.
  destruct (retrieve_retrieved kg query vector_results depth Hpos Hcw Hsim Hret)
    as [acc [Hacc ->]].
  apply (ret_scores Hacc); [|assumption].
  eapply Permutation_in; [apply Permutation_sym, sort_desc_perm | exact Hin].
Qed.

(** X6.  Under the same conditions the results of
    [retrieve_with_graph_context] carry pairwise distinct decision ids and
    are sorted by non-increasing sort key (the enhanced similarity). *)
Theorem retrieval_results_distinct_and_sorted kg query vector_results depth cw results :
  positive_weights (graph kg) ->
  (0 <= cw /\ cw <= 1)%Q ->
  (forall c, In c vector_results -> similarity_in_unit c) ->
  retrieve_with_graph_context kg query vector_results depth cw = Return results ->
  NoDup (map r_decision_id results)
  /\ StronglySorted (fun a b => (sort_key b <= sort_key a)%Q) results.
Proof.
  intros Hpos Hcw Hsim Hret.
  destruct (retrieve_retrieved kg query vector_results depth Hpos Hcw Hsim Hret)
    as [acc [Hacc ->]].
  split; [|apply (sort_desc_sorted sort_key)].
  eapply Permutation_NoDup; [|apply (ret_nodup Hacc)].
  apply Permutation_map, sort_desc_perm.
Qed.

End RetrieverBounds.

Lemma small_kg_sound : sound (graph Examples.small_kg).
Proof.
  apply sound_add_edge.
  - repeat apply sound_add_node. split; [apply good_empty | apply positive_empty].
  - intros q [= <-]. reflexivity.
Qed.

Lemma unit_candidate (id : string) (c : result) :
  In c [Examples.candidate id (Some (PyNum 0.9%Q))] -> similarity_in_unit c.
Proof. intros [<-|[]]. unfold similarity_in_unit. simpl. lra. Qed.

(** A run of the relevance score on a context with one related judge. *)
Lemma calculate_graph_relevance_witness :
  (0 <= _calculate_graph_relevance (E := py) "9/2560" "สมชาย"
          {| related_entities :=
               [{| ei_entity := "สมชาย"; ei_type := "judge"; ei_relevance_score := 1%Q |}];
             community_members := []; similar_cases := [];
             related_judges := []; related_concepts := [] |})%Q.
Proof.
  apply (proj2 (@calculate_graph_relevance_bounds py "9/2560" "สมชาย" _)).
  intros ei [<-|[]]. simpl. lra.
Defined.

(** A run of the retriever on the small graph: the candidate comes back
    enhanced, with both scores in [0, 1]. *)
Lemma enhanced_candidates_witness :
  exists results r,
    retrieve_with_graph_context (E := py) Examples.small_kg "มรดก"
      [Examples.candidate "9/2560" (Some (PyNum 0.9%Q))] 2 0.3%Q = Return results
    /\ In r results
    /\ scores_in_unit r.
Proof.
  assert (Hrun : exists results r,
            retrieve_with_graph_context (E := py) Examples.small_kg "มรดก"
              [Examples.candidate "9/2560" (Some (PyNum 0.9%Q))] 2 0.3%Q = Return results
            /\ In r results /\ r_graph_context r <> None).
  { vm_compute. eexists. eexists. split; [reflexivity|].
    split; [left; reflexivity | discriminate]. }
  destruct Hrun as [results [r [Hret [Hin Hctx]]]].
  exists results, r. split; [exact Hret|]. split; [exact Hin|].
  apply (@enhanced_candidates_scores_in_unit py Examples.small_kg "มรดก"
           [Examples.candidate "9/2560" (Some (PyNum 0.9%Q))] 2 0.3%Q results r);
    try assumption.
  - apply small_kg_sound.
  - lra.
  - apply unit_candidate.
Defined.

Lemma retrieval_results_witness :
  exists results,
    retrieve_with_graph_context (E := py) Examples.small_kg "มรดก"
      [Examples.candidate "9/2560" (Some (PyNum 0.9%Q))] 2 0.3%Q = Return results
    /\ NoDup (map r_decision_id results).
Proof.
  assert (Hrun : exists results,
            retrieve_with_graph_context (E := py) Examples.small_kg "มรดก"
              [Examples.candidate "9/2560" (Some (PyNum 0.9%Q))] 2 0.3%Q = Return results).
  { vm_compute. eexists. reflexivity. }
  destruct Hrun as [results Hret].
  exists results. split; [exact Hret|].
  refine (proj1 (@retrieval_results_distinct_and_sorted py Examples.small_kg "มรดก"
           [Examples.candidate "9/2560" (Some (PyNum 0.9%Q))] 2 0.3%Q results _ _ _ Hret)).
  - apply small_kg_sound.
  - lra.
  - apply unit_candidate.
Defined.

(* ================================================================== *)
(** * Communities *)

Section DictEntries.
Context {K V : Type} `{EqKey K}.
Import OrderedDict.

Lemma get_In_key (d : dict K V) k v : get d k = Some v -> In (k, v) d.
Proof.
  induction d as [|[k0 v0] d IH]; simpl; [discriminate|].
  destruct (keqb_spec k0 k) as [->|_].
  - intros [= ->]. now left.
  - intros Hg. right. now apply IH.
Qed.

(** An entry of [d[k] = v] is the new one or was in [d]. *)
Lemma In_set (d : dict K V) k v k' v' :
  In (k', v') (set d k v) -> (k' = k /\ v' = v) \/ In (k', v') d.
Proof.
  induction d as [|[k0 v0] d IH]; simpl.
  - intros [[= <- <-]|[]]. now left.
  - destruct (keqb_spec k0 k) as [->|_]; simpl.
    + intros [[= <- <-]|Hin]; [now left | right; now right].
    + intros [Heq|Hin]; [right; now left|].
      destruct (IH Hin) as [Hnew|Hold]; [now left | right; now right].
Qed.

Lemma keys_set_In_gen (d : dict K V) k v x :
  In x (keys (set d k v)) -> x = k \/ In x (keys d).
Proof.
  unfold keys. intros Hin. apply in_map_iff in Hin as [[k' v'] [<- Hin]].
  apply In_set in Hin as [[-> _]|Hin]; [now left|].
  right. apply in_map_iff. now exists (k', v').
Qed.

Lemma keys_set_NoDup_gen (d : dict K V) k v : NoDup (keys d) -> NoDup (keys (set d k v)).
Proof.
  induction d as [|[k0 v0] d IH]; simpl; intros Hnd.
  - repeat constructor. simpl. tauto.
  - inversion Hnd as [|? ? Hnotin Hnd']; subst.
    destruct (keqb_spec k0 k) as [->|Hneq]; simpl; [now constructor|].
    constructor; [|now apply IH].
    intros Hin. apply keys_set_In_gen in Hin as [->|Hin]; tauto.
Qed.

(** Under distinct keys an entry is what [get] finds. *)
Lemma NoDup_keys_functional (d : list (K * V)) k v v' :
  NoDup (map fst d) -> In (k, v) d -> In (k, v') d -> v = v'.
Proof.
  induction d as [|[k0 v0] d IH]; simpl; [tauto|].
  intros Hnd. inversion Hnd as [|? ? Hnotin Hnd']; subst.
  intros [[= -> ->]|H1] [[= <-]|H2]; try reflexivity.
  - exfalso. apply Hnotin. apply in_map_iff. now exists (k, v').
  - subst. exfalso. apply Hnotin. apply in_map_iff. now exists (k0, v).
  - now apply IH.
Qed.

End DictEntries.

Section Communities.
Context {E : Env}.
Import OrderedDict.

(** The grouping loop of [detect_communities]. *)
Definition group_by_community (partition : list (string * Z)) (d0 : dict Z (list string))
  : dict Z (list string) :=
  fold_left
    (fun d '(node, community_id) =>
       set d community_id (get_default d community_id [] ++ [node]))
    partition d0.

Lemma group_members (partition : list (string * Z)) (d0 : dict Z (list string)) :
  NoDup (keys d0) ->
  NoDup (keys (group_by_community partition d0))
  /\ forall cid nodes n,
       In (cid, nodes) (group_by_community partition d0) -> In n nodes ->
       In (n, cid) partition
       \/ exists nodes0, In (cid, nodes0) d0 /\ In n nodes0.
Proof.
  revert d0. induction partition as [|[node c] partition IH]; intros d0 Hnd; simpl.
  - split; [assumption|]. intros cid nodes n Hin Hn. right. now exists nodes.
  - destruct (IH (set d0 c (get_default d0 c [] ++ [node])) (keys_set_NoDup_gen _ c _ Hnd))
      as [Hnd' Hmem].
    split; [assumption|]. intros cid nodes n Hin Hn.
    destruct (Hmem cid nodes n Hin Hn) as [Hp|[nodes0 [Hin0 Hn0]]]; [left; now right|].
    apply In_set in Hin0 as [[-> ->]|Hold]; [|right; now exists nodes0].
    apply in_app_or in Hn0 as [Hn0|[<-|[]]]; [|left; now left].
    right. exists (get_default d0 c []). split; [|assumption].
    unfold get_default in *. destruct (get d0 c) as [old|] eqn:Hget; [|destruct Hn0].
    now apply get_In_key.
Qed.

(** X7.  When Louvain answers with a partition that lists each node once,
    every community [detect_communities] retains has at least three
    members, each member is a node the partition puts in that community,
    and no entity belongs to two retained communities. *)
Theorem detect_communities_retained (kg : LegalKnowledgeGraph)
  (partition : list (string * Z)) (c1 c2 : Z) (nodes1 nodes2 : list string) (n : string) :
  best_partition (graph kg) = Some partition ->
  NoDup (map fst partition) ->
  In (c1, nodes1) (communities (detect_communities kg)) ->
  In (c2, nodes2) (communities (detect_communities kg)) ->
  In n nodes1 ->
  In n nodes2 ->
  3 <= length nodes1
  /\ In (n, c1) partition
  /\ c1 = c2
  /\ nodes1 = nodes2.
Proof.
  intros Hpart Hnd H1 H2 Hn1 Hn2. unfold detect_communities in *. rewrite Hpart in *.
  cbn [communities] in H1, H2.
  apply filter_In in H1 as [H1 Hsize]. apply filter_In in H2 as [H2 _].
  apply Nat.leb_le in Hsize.
  destruct (@group_members partition [] (NoDup_nil _)) as [Hkeys Hmem].
  fold (group_by_community partition []) in H1, H2.
  assert (Hp1 : In (n, c1) partition)
    by (destruct (Hmem c1 nodes1 n H1 Hn1) as [Hp|[? [[] _]]]; assumption).
  assert (Hp2 : In (n, c2) partition)
    by (destruct (Hmem c2 nodes2 n H2 Hn2) as [Hp|[? [[] _]]]; assumption).
  assert (Hc : c1 = c2) by (eapply NoDup_keys_functional; eauto).
  subst c2. repeat split; try assumption.
  eapply NoDup_keys_functional; eauto.
Qed.

(** X8.  The community context of an entity never holds the entity itself,
    has at most 20 members, and is drawn from one retained community that
    holds the entity. *)
Theorem community_context_contract (kg : LegalKnowledgeGraph) (entity : string) :
  ~ In entity (get_community_context kg entity)
  /\ length (get_community_context kg entity) <= 20
  /\ (get_community_context kg entity = []
      \/ exists cid nodes,
           In (cid, nodes) (communities kg)
           /\ In entity nodes
           /\ forall m, In m (get_community_context kg entity) -> In m nodes).
Proof.
  unfold get_community_context.
  destruct (negb (Nx.has_node (graph kg) entity)); [simpl; repeat split; auto; lia|].
  match goal with
  | |- context [find ?p (communities kg)] =>
      destruct (find p (communities kg)) as [[cid nodes]|] eqn:Hfind
  end; [|simpl; repeat split; auto; lia].
  apply find_some in Hfind as [Hin Hmem]. apply mem_In in Hmem.
  split; [|split].
  - intros Hself. apply In_firstn, filter_In in Hself as [_ Hneq].
    now rewrite String.eqb_refl in Hneq.
  - rewrite length_firstn. lia.
  - right. exists cid, nodes. split; [assumption|]. split; [assumption|].
    intros m Hm. now apply In_firstn, filter_In in Hm as [Hm _].
Qed.

End Communities.

(** A run: the partition of [py_louvain] over the theft graph retains the
    community of the three theft cases. *)
Lemma detect_communities_witness :
  3 <= length ["101/2566"; "102/2566"; "103/2566"]
  /\ In ("102/2566", 0%Z)
        [("101/2566", 0%Z); ("102/2566", 0%Z); ("สมชาย", 1%Z); ("103/2566", 0%Z)]
  /\ 0%Z = 0%Z
  /\ ["101/2566"; "102/2566"; "103/2566"] = ["101/2566"; "102/2566"; "103/2566"].
Proof.
  apply (@detect_communities_retained py_louvain Examples.theft_kg
           [("101/2566", 0%Z); ("102/2566", 0%Z); ("สมชาย", 1%Z); ("103/2566", 0%Z)]
           0%Z 0%Z ["101/2566"; "102/2566"; "103/2566"]
           ["101/2566"; "102/2566"; "103/2566"] "102/2566").
  - reflexivity.
  - repeat constructor; simpl; intuition discriminate.
  - vm_compute. now left.
  - vm_compute. now left.
  - simpl. tauto.
  - simpl. tauto.
Defined.

(* ================================================================== *)
(** * The traditional searches *)

Section ScanFacts.
Context {E : Env}.
Variable matches : metadata -> string -> bool.
Variable k : nat.

Lemma scan_extends (items : list (metadata * string)) (results : list result)
  (seen : PySet.t) :
  exists suffix, scan matches k items results seen = results ++ suffix.
Proof.
  revert results seen. induction items as [|[m text] items IH]; intros results seen; simpl.
  - exists []. now rewrite app_nil_r.
  - destruct (matches m text); [|apply IH].
    destruct (PySet.mem (m_decision_id m) seen); [apply IH|].
    destruct (k <=? length (results ++ [hit text m])); [now exists [hit text m]|].
    destruct (IH (results ++ [hit text m]) (PySet.add seen (m_decision_id m)))
      as [suffix ->].
    exists (hit text m :: suffix). now rewrite <- app_assoc.
Qed.

Lemma scan_finds (items : list (metadata * string)) (m : metadata) (text : string) :
  In (m, text) items -> matches m text = true -> scan matches k items [] [] <> [].
Proof.
  induction items as [|[m0 t0] items IH]; simpl; [tauto|].
  intros Hin Hm. destruct (matches m0 t0) eqn:Hm0.
  - destruct (k <=? 1); [discriminate|].
    destruct (scan_extends items [hit t0 m0] (PySet.add [] (m_decision_id m0)))
      as [suffix ->].
    discriminate.
  - destruct Hin as [[= -> ->]|Hin]; [congruence | now apply IH].
Qed.

Lemma scan_length (items : list (metadata * string)) (results : list result)
  (seen : PySet.t) :
  length results < k \/ results = [] ->
  length (scan matches k items results seen) <= Nat.max k 1.
Proof.
  revert results seen. induction items as [|[m text] items IH]; intros results seen Hlen;
    simpl.
  - destruct Hlen as [Hlen| ->]; simpl; lia.
  - destruct (matches m text); [|now apply IH].
    destruct (PySet.mem (m_decision_id m) seen); [now apply IH|].
    destruct (Nat.leb_spec k (length (results ++ [hit text m]))) as [Hbreak|Hmore].
    + rewrite length_app. simpl. destruct Hlen as [Hlen| ->]; simpl; lia.
    + apply IH. now left.
Qed.

Lemma scan_distinct (items : list (metadata * string)) (results : list result)
  (seen : PySet.t) :
  NoDup (map r_decision_id results) ->
  (forall id, In id (map r_decision_id results) -> PySet.mem id seen = true) ->
  NoDup (map r_decision_id (scan matches k items results seen)).
Proof.
  revert results seen. induction items as [|[m text] items IH]; intros results seen Hnd Hseen;
    simpl; [assumption|].
  destruct (matches m text); [|now apply IH].
  destruct (PySet.mem (m_decision_id m) seen) eqn:Hmem; [now apply IH|].
  assert (Hnd' : NoDup (map r_decision_id (results ++ [hit text m]))).
  { rewrite map_app. simpl. apply NoDup_app; [assumption | repeat constructor; simpl; tauto|].
    intros id Hid [<-|[]]. apply Hseen in Hid. congruence. }
  destruct (k <=? length (results ++ [hit text m])); [assumption|].
  apply IH; [assumption|].
  intros id Hid. rewrite mem_add. rewrite map_app in Hid. simpl in Hid.
  apply in_app_or in Hid as [Hid|[<-|[]]].
  - now rewrite (Hseen id Hid).
  - rewrite String.eqb_refl. apply orb_true_r.
Qed.

(** What every search built on [scan] guarantees. *)
Lemma scan_contract (items : list (metadata * string)) :
  NoDup (map r_decision_id (scan matches k items [] []))
  /\ length (scan matches k items [] []) <= Nat.max k 1
  /\ forall r, In r (scan matches k items [] []) -> r_similarity r = Some (PyNum 1%Q).
Proof.
  split; [|split].
  - apply scan_distinct; [constructor | intros id []].
  - apply scan_length. now right.
  - intros r Hin. apply scan_hits in Hin as [[]|[m [text [_ [_ ->]]]]]. reflexivity.
Qed.

End ScanFacts.

Section SearchFacts.
Context {E : Env}.

(** X9.  Each of the three traditional searches returns no case twice,
    returns at most [max k 1] results (the count is tested after a result
    is appended, so a call with [k = 0] still returns one), and gives every
    result the similarity 1.0. *)
Theorem traditional_searches_contract (eng : TraditionalSearchEngine) (q : string)
  (k : nat) :
  (NoDup (map r_decision_id (search_by_case_number eng q k))
   /\ length (search_by_case_number eng q k) <= Nat.max k 1
   /\ forall r, In r (search_by_case_number eng q k) -> r_similarity r = Some (PyNum 1%Q))
  /\ (NoDup (map r_decision_id (search_by_judge eng q k))
      /\ length (search_by_judge eng q k) <= Nat.max k 1
      /\ forall r, In r (search_by_judge eng q k) -> r_similarity r = Some (PyNum 1%Q))
  /\ (NoDup (map r_decision_id (search_by_case_type eng q k))
      /\ length (search_by_case_type eng q k) <= Nat.max k 1
      /\ forall r, In r (search_by_case_type eng q k) -> r_similarity r = Some (PyNum 1%Q)).
Proof.
  unfold search_by_case_number, search_by_judge, search_by_case_type.
  repeat split; try apply scan_contract.
Qed.

(** X10.  Every result of [search_by_case_number] carries a decision id that
    is the stripped query, or the stripped query with [/] written [-], or
    with [-] written [/]. *)
Theorem case_number_results_match (eng : TraditionalSearchEngine) (q : string) (k : nat)
  (r : result) :
  In r (search_by_case_number eng q k) ->
  r_decision_id r = str_strip q
  \/ r_decision_id r = str_replace slash dash (str_strip q)
  \/ r_decision_id r = str_replace dash slash (str_strip q).
Proof.
  unfold search_by_case_number. intros Hin.
  apply scan_hits in Hin as [[]|[m [text [_ [Hm ->]]]]]. simpl.
  unfold case_number_matches in Hm.
  apply orb_true_iff in Hm as [Hm|Hm]; [apply orb_true_iff in Hm as [Hm|Hm]|];
    apply String.eqb_eq in Hm; auto.
Qed.

(** X11.  When some chunk carries the stripped query as its decision id,
    [search_by_case_number] finds it, and [_combined_search], given a
    query in which the case-number pattern matches, returns the result of
    that lookup without trying any later step. *)
Theorem exact_case_number_wins (sm : SearchManager) (query : string)
  (case_type judge_name : option string) (k : nat) (m : metadata) (text : string)
  (groups : list string) :
  In (m, text) (combine (metadatas (traditional_engine sm)) (docs (traditional_engine sm))) ->
  m_decision_id m = str_strip query ->
  re_search "\d+/\d+" query = Some groups ->
  search_by_case_number (traditional_engine sm) query k <> []
  /\ _combined_search sm query case_type judge_name k
     = Return (search_by_case_number (traditional_engine sm) query k).
Proof.
  intros Hin Hid Hre.
  assert (Hfound : search_by_case_number (traditional_engine sm) query k <> []).
  { unfold search_by_case_number. apply (scan_finds _ k _ m text Hin).
    unfold case_number_matches. now rewrite Hid, String.eqb_refl. }
  split; [assumption|].
  unfold _combined_search. rewrite Hre.
  destruct (search_by_case_number (traditional_engine sm) query k); [contradiction|reflexivity].
Qed.

(** X12.  Every result of [search_by_case_type] is the hit of a chunk whose
    case type (the empty string when the key is absent) is the requested
    one. *)
Theorem case_type_results_match (eng : TraditionalSearchEngine) (case_type : string)
  (k : nat) (r : result) :
  In r (search_by_case_type eng case_type k) ->
  exists m text,
    In (m, text) (combine (metadatas eng) (docs eng))
    /\ r = hit text m
    /\ or_default (m_case_type m) "" = case_type.
Proof.
  unfold search_by_case_type. intros Hin.
  apply scan_hits in Hin as [[]|[m [text [Hitem [Hm ->]]]]].
  exists m, text. repeat split; [assumption|]. now apply String.eqb_eq.
Qed.

End SearchFacts.

(** Runs on the chunk whose decision id is the bare "123/2566". *)
Lemma case_number_results_witness :
  r_decision_id (hit (E := py) "ผิดสัญญา" Examples.bare_meta) = PyModel.strip " 123-2566 "
  \/ r_decision_id (hit (E := py) "ผิดสัญญา" Examples.bare_meta)
     = str_replace slash dash (PyModel.strip " 123-2566 ")
  \/ r_decision_id (hit (E := py) "ผิดสัญญา" Examples.bare_meta)
     = str_replace dash slash (PyModel.strip " 123-2566 ").
Proof.
  apply (@case_number_results_match py
           (traditional_engine (Examples.manager ["ผิดสัญญา"] [Examples.bare_meta]))
           " 123-2566 " 5 (hit (E := py) "ผิดสัญญา" Examples.bare_meta)).
  vm_compute. now left.
Defined.

Lemma exact_case_number_witness :
  _combined_search (E := py) (Examples.manager ["ผิดสัญญา"] [Examples.bare_meta])
    "123/2566" (Some "อาญา") None 5
  = Return (search_by_case_number (E := py)
              (traditional_engine (Examples.manager ["ผิดสัญญา"] [Examples.bare_meta]))
              "123/2566" 5).
Proof.
  refine (proj2 (@exact_case_number_wins py
                   (Examples.manager ["ผิดสัญญา"] [Examples.bare_meta]) "123/2566"
                   (Some "อาญา") None 5 Examples.bare_meta "ผิดสัญญา" ["123/2566"] _ _ _)).
  - now left.
  - vm_compute. reflexivity.
  - vm_compute. reflexivity.
Defined.

Lemma case_type_results_witness :
  exists m text,
    In (m, text) (combine [Examples.bare_meta] ["ผิดสัญญา"])
    /\ hit (E := py) "ผิดสัญญา" Examples.bare_meta = hit (E := py) text m
    /\ or_default (m_case_type m) "" = "แพ่ง".
Proof.
  apply (@case_type_results_match py
           (traditional_engine (Examples.manager ["ผิดสัญญา"] [Examples.bare_meta]))
           "แพ่ง" 5 (hit (E := py) "ผิดสัญญา" Examples.bare_meta)).
  vm_compute. now left.
Defined.

(* ================================================================== *)
(** * The builder: which records and identifiers enter the graph *)

Lemma fold_left_filter {A B : Type} (f : A -> B -> A) (p : B -> bool) (l : list B) (a : A) :
  (forall a b, p b = false -> f a b = a) ->
  fold_left f l a = fold_left f (filter p l) a.
Proof.
  intros Hskip. revert a. induction l as [|b l IH]; intros a; simpl; [reflexivity|].
  destruct (p b) eqn:Hp; simpl; [apply IH|]. rewrite Hskip by assumption. apply IH.
Qed.

Lemma filter_filter_implied {A : Type} (p q : A -> bool) (l : list A) :
  (forall a, q a = true -> p a = true) -> filter q (filter p l) = filter q l.
Proof.
  intros Himp. induction l as [|a l IH]; simpl; [reflexivity|].
  destruct (p a) eqn:Hp; simpl.
  - now rewrite IH.
  - destruct (q a) eqn:Hq; [|assumption]. apply Himp in Hq. congruence.
Qed.

Lemma mem_update (s : PySet.t) (xs : list string) (x : string) :
  PySet.mem x (PySet.update s xs) = PySet.mem x s || PySet.mem x xs.
Proof.
  unfold PySet.update. revert s. induction xs as [|y xs IH]; intros s; simpl.
  - now rewrite orb_false_r.
  - rewrite IH, mem_add. unfold PySet.mem. simpl.
    now rewrite orb_assoc.
Qed.

Section BuilderInputs.
Context {E : Env}.
Import OrderedDict.

Definition has_id (c : case_data) : bool := truthy (cd_decision_id c).

Lemma collect_entities_filter (types0 : dict string PySet.t) (cases_data : list case_data) :
  collect_entities types0 cases_data = collect_entities types0 (filter has_id cases_data).
Proof.
  unfold collect_entities. apply fold_left_filter.
  intros st c Hc. unfold collect_case. unfold has_id in Hc. now rewrite Hc.
Qed.

(** X13.  A record with an empty decision id takes no part in the build:
    [build_graph] over a corpus is [build_graph] over its records that
    have a decision id. *)
Theorem build_graph_ignores_empty_ids (kg : LegalKnowledgeGraph)
  (cases_data : list case_data) :
  build_graph kg cases_data
  = build_graph kg (filter (fun c => truthy (cd_decision_id c)) cases_data).
Proof.
  unfold build_graph. fold has_id. rewrite <- collect_entities_filter.
  unfold _add_similarity_relationships.
  rewrite (filter_filter_implied has_id); [reflexivity|].
  intros c Hc. now apply andb_true_iff in Hc as [Hc _].
Qed.

(** *** Every case with a decision id becomes a node *)

Lemma get_dd_add (d : dict string PySet.t) (k k' x : string) :
  get (dd_add d k x) k'
  = if String.eqb k k' then Some (PySet.add (get_default d k []) x) else get d k'.
Proof. unfold dd_add. now rewrite get_set. Qed.

Lemma get_dd_update (d : dict string PySet.t) (k k' : string) (xs : list string) :
  get (dd_update d k xs) k'
  = if String.eqb k k' then Some (PySet.update (get_default d k []) xs) else get d k'.
Proof. unfold dd_update. now rewrite get_set. Qed.

(** The [case] key of [extract_entities]. *)
Lemma extract_entities_case_key (c : case_data) :
  get (extract_entities c) "case"
  = if truthy (cd_decision_id c) then Some [cd_decision_id c] else None.
Proof.
  unfold extract_entities.
  set (e0 := if truthy (cd_decision_id c) then dd_add [] "case" (cd_decision_id c) else []).
  set (v := if truthy (cd_decision_id c) then Some [cd_decision_id c] else None).
  assert (H0 : get e0 "case" = v) by (unfold e0, v; now destruct (truthy (cd_decision_id c))).
  set (e1 := fold_left _ (cd_judges c) e0).
  assert (H1 : get e1 "case" = v).
  { unfold e1. apply fold_left_inv; [assumption|]. intros d j _ Hd.
    destruct (_ && _); [|assumption]. now rewrite get_dd_add. }
  set (e2 := if truthy (cd_case_type c) && negb (String.eqb (cd_case_type c) "ไม่ระบุ")
             then dd_add e1 "case_type" (cd_case_type c) else e1).
  assert (H2 : get e2 "case" = v)
    by (unfold e2; destruct (_ && _); [now rewrite get_dd_add | assumption]).
  set (e3 := fold_left _ (cd_related_sections c) e2).
  assert (H3 : get e3 "case" = v).
  { unfold e3. apply fold_left_inv; [assumption|]. intros d [law sections] _ Hd.
    apply fold_left_inv; [assumption|]. intros d' section _ Hd'.
    destruct (truthy section); [now rewrite get_dd_add | assumption]. }
  destruct (truthy (str_or (cd_summary c) (cd_full_text c))); [|assumption].
  now rewrite get_dd_update.
Qed.

(** X14.  For a record with a non-empty decision id, [extract_entities]
    yields exactly one [case] entity, the decision id; for a record
    without one it yields no [case] key at all. *)
Theorem extract_entities_case (c : case_data) :
  (truthy (cd_decision_id c) = true ->
   get (extract_entities c) "case" = Some [cd_decision_id c])
  /\ (truthy (cd_decision_id c) = false -> get (extract_entities c) "case" = None).
Proof. rewrite extract_entities_case_key. split; intros ->; reflexivity. Qed.

(** The identifier [x] was collected under type [t]. *)
Definition collected_under (all : dict string PySet.t) (t x : string) : Prop :=
  PySet.mem x (get_default all t []) = true.

Lemma collected_update (all : dict string PySet.t) (t t' x : string) (xs : list string) :
  collected_under all t x -> collected_under (dd_update all t' xs) t x.
Proof.
  unfold collected_under, get_default. rewrite get_dd_update.
  destruct (String.eqb_spec t' t) as [->|_]; [|tauto].
  intros Hm. rewrite mem_update. unfold get_default. now rewrite Hm.
Qed.

Lemma collected_new (all : dict string PySet.t) (t x : string) (xs : list string) :
  In x xs -> collected_under (dd_update all t xs) t x.
Proof.
  intros Hin. unfold collected_under, get_default. rewrite get_dd_update, String.eqb_refl.
  rewrite mem_update. apply mem_In in Hin. rewrite Hin. apply orb_true_r.
Qed.

Lemma collected_fold (entities all : dict string PySet.t) (t x : string) :
  collected_under all t x
  \/ (exists s, In (t, s) entities /\ In x s) ->
  collected_under
    (fold_left (fun d '(entity_type, entity_set) => dd_update d entity_type entity_set)
               entities all) t x.
Proof.
  revert all. induction entities as [|[t0 s0] entities IH]; intros all; simpl.
  - intros [H|[s [[] _]]]. assumption.
  - intros [H|[s [[[= -> ->]|Hin] Hx]]]; apply IH.
    + left. now apply collected_update.
    + left. now apply collected_new.
    + right. now exists s.
Qed.

Lemma collect_case_keeps (st : collected) (c : case_data) (t x : string) :
  collected_under (all_entities st) t x ->
  collected_under (all_entities (collect_case st c)) t x.
Proof.
  intros H. unfold collect_case. destruct (negb _); [assumption|]. simpl.
  apply collected_fold. now left.
Qed.

Lemma collect_case_adds (st : collected) (c : case_data) :
  truthy (cd_decision_id c) = true ->
  collected_under (all_entities (collect_case st c)) "case" (cd_decision_id c)
  /\ contains (coll_documents (collect_case st c)) (cd_decision_id c) = true.
Proof.
  intros Hid. unfold collect_case. rewrite Hid. simpl. split.
  - apply collected_fold. right. exists [cd_decision_id c]. split; [|now left].
    apply get_In_key. now rewrite extract_entities_case_key, Hid.
  - rewrite contains_set, String.eqb_refl. reflexivity.
Qed.

Lemma collect_entities_holds (types0 : dict string PySet.t) (cases_data : list case_data)
  (c : case_data) :
  In c cases_data -> truthy (cd_decision_id c) = true ->
  collected_under (all_entities (collect_entities types0 cases_data)) "case"
                  (cd_decision_id c)
  /\ contains (coll_documents (collect_entities types0 cases_data)) (cd_decision_id c) = true.
Proof.
  intros Hin Hid. unfold collect_entities.
  set (st0 := {| all_entities := []; case_entities := []; coll_documents := [];
                 coll_entity_types := types0 |}).
  generalize st0. clear st0.
  induction cases_data as [|c0 rest IH]; intros st0; [destruct Hin|].
  simpl. destruct Hin as [->|Hin]; [|now apply IH].
  destruct (collect_case_adds st0 c Hid) as [Hall Hdoc].
  clear IH. revert Hall Hdoc. generalize (collect_case st0 c). clear st0.
  induction rest as [|c1 rest IH]; intros st Hall Hdoc; simpl; [now split|].
  apply IH.
  - now apply collect_case_keeps.
  - unfold collect_case. destruct (negb _); [assumption|]. simpl.
    rewrite contains_set, Hdoc. apply orb_true_r.
Qed.

Lemma add_entity_nodes_has (all : dict string PySet.t) (g : Nx.Graph) (t x : string) :
  Nx.has_node g x = true \/ collected_under all t x ->
  Nx.has_node (add_entity_nodes g all) x = true.
Proof.
  unfold add_entity_nodes. revert g.
  induction all as [|[t0 s0] all IH]; intros g; simpl.
  - intros [H|H]; [assumption | discriminate H].
  - assert (Hset : forall s g', Nx.has_node g' x = true \/ In x s ->
                     Nx.has_node (fold_left (fun g1 e => Nx.add_node g1 e t0) s g') x = true).
    { induction s as [|e s IHs]; intros g' Hor; simpl.
      - destruct Hor as [H|[]]. exact H.
      - apply IHs. destruct Hor as [H|[->|H]].
        + left. rewrite has_node_add_node, H. apply orb_true_r.
        + left. rewrite has_node_add_node, String.eqb_refl. reflexivity.
        + now right. }
    intros [H|H]; apply IH.
    + left. apply Hset. now left.
    + unfold collected_under, get_default in H. simpl in H.
      destruct (String.eqb_spec t0 t) as [->|Hneq].
      * left. apply Hset. right. now apply mem_In.
      * right. exact H.
Qed.

Lemma has_node_add_edge_keeps g u v rel w x :
  Nx.has_node g x = true -> Nx.has_node (Nx.add_edge g u v rel w) x = true.
Proof. intros H. now rewrite has_node_add_edge, H. Qed.

Lemma has_node_build_edges (g : Nx.Graph) (ce : dict string (dict string PySet.t))
  (documents : dict string string) (cases_data : list case_data) (x : string) :
  Nx.has_node g x = true ->
  Nx.has_node (_add_similarity_relationships (_add_case_relationships g ce)
                                             documents cases_data) x = true.
Proof.
  intros Hx.
  assert (H1 : Nx.has_node (_add_case_relationships g ce) x = true).
  { unfold _add_case_relationships. apply fold_left_inv; [assumption|].
    intros g0 [case_id entities] _ H0. unfold add_case, add_deals_with, add_handles,
      add_contains.
    assert (Ha : Nx.has_node
                   (fold_left
                      (fun g1 '(_, entity_set) =>
                         fold_left (fun g2 entity =>
                                      if negb (String.eqb entity case_id)
                                      then Nx.add_edge g2 case_id entity "contains" None
                                      else g2) entity_set g1) entities g0) x = true).
    { apply fold_left_inv; [assumption|]. intros g1 [ty s] _ Hg1.
      apply fold_left_inv; [assumption|]. intros g2 e _ Hg2.
      destruct (negb _); [now apply has_node_add_edge_keeps | assumption]. }
    match goal with
    | |- Nx.has_node (if ?c then _ else ?gb) x = true =>
        assert (Hb : Nx.has_node gb x = true)
    end.
    { destruct (_ && _); [|assumption].
      apply fold_left_inv; [assumption|]. intros g1 j _ Hg1.
      apply fold_left_inv; [assumption|]. intros g2 ct _ Hg2.
      now apply has_node_add_edge_keeps. }
    destruct (contains entities "judge" && contains entities "legal_concept"); [|assumption].
    apply fold_left_inv; [assumption|]. intros g1 j _ Hg1.
    apply fold_left_inv; [assumption|]. intros g2 cpt _ Hg2.
    now apply has_node_add_edge_keeps. }
  unfold _add_similarity_relationships.
  destruct (_ <? 2); [assumption|].
  destruct (tfidf_cosine_similarity _); [|assumption].
  apply fold_left_inv; [assumption|]. intros g1 [i id1] _ Hg1.
  apply fold_left_inv; [assumption|]. intros g2 [j id2] _ Hg2.
  destruct (_ && _); [now apply has_node_add_edge_keeps | assumption].
Qed.

(** A case with a decision id is a node and has a document. *)
Lemma build_graph_has_case (kg : LegalKnowledgeGraph) (cases_data : list case_data)
  (c : case_data) :
  In c cases_data ->
  truthy (cd_decision_id c) = true ->
  Nx.has_node (graph (build_graph kg cases_data)) (cd_decision_id c) = true
  /\ contains (case_documents (build_graph kg cases_data)) (cd_decision_id c) = true.
Proof.
  intros Hin Hid.
  destruct (collect_entities_holds (entity_types kg) cases_data c Hin Hid) as [Hall Hdoc].
  unfold build_graph. simpl. split; [|assumption].
  apply has_node_build_edges. apply add_entity_nodes_has with (t := "case"). now right.
Qed.

(** X15.  Every record of the corpus with a non-empty decision id is a node
    of the built graph, and its text is recorded among the case
    documents. *)
Theorem case_ids_become_nodes (kg : LegalKnowledgeGraph) (cases_data : list case_data)
  (c : case_data) :
  In c cases_data ->
  truthy (cd_decision_id c) = true ->
  Nx.has_node (graph (build_graph kg cases_data)) (cd_decision_id c) = true
  /\ contains (case_documents (build_graph kg cases_data)) (cd_decision_id c) = true.
Proof. apply build_graph_has_case. Qed.

End BuilderInputs.

Lemma case_ids_witness :
  Nx.has_node (graph Examples.theft_kg) "104/2566" = true
  /\ OrderedDict.contains (case_documents Examples.theft_kg) "104/2566" = true.
Proof.
  apply (@case_ids_become_nodes py Examples.fresh_kg Examples.theft_corpus
           (Examples.mk_case "104/2566" ["สมชาย"] "" "test document")).
  - simpl. tauto.
  - reflexivity.
Defined.

(* ================================================================== *)
(** * The engine, the manager and the recommendations *)

Section EngineFacts.
Context {E : Env}.

(** X16.  A snapshot that loads wins over the supplied corpus:
    [load_or_build_graph] then returns with the loaded knowledge graph,
    builds nothing, writes nothing, and raises nothing even when no cases
    are supplied. *)
Theorem loaded_snapshot_is_used (eng : GraphRAGSearchEngine) (fs : filesystem)
  (write_error : string -> option string) (cases_data : option (list case_record))
  (kg kg' : LegalKnowledgeGraph) :
  knowledge_graph (initialize eng) = Some kg ->
  load_graph kg fs default_filename = (true, kg') ->
  load_or_build_graph eng fs write_error cases_data
  = Return ({| knowledge_graph := Some kg'; _is_loaded := true |}, fs).
Proof.
  intros Hkg Hload. unfold load_or_build_graph.
  assert (Hinit : (if negb (_is_loaded eng) then initialize eng else eng) = initialize eng)
    by (unfold initialize; now destruct (_is_loaded eng)).
  assert (Hflag : _is_loaded (initialize eng) = true)
    by (unfold initialize; now destruct (_is_loaded eng) eqn:Hl).
  now rewrite Hinit, Hkg, Hload, Hflag.
Qed.

(** What the loop of [_convert_metadata_to_cases] keeps true. *)
Record converted (metadatas : list metadata) (acc : list case_record * PySet.t) : Prop := {
  conv_nodup : NoDup (map cr_decision_id (fst acc));
  conv_seen : forall id, PySet.mem id (snd acc) = true <-> In id (map cr_decision_id (fst acc));
  conv_from : forall c, In c (fst acc) ->
    truthy (cr_decision_id c) = true
    /\ exists m, In m metadatas
                 /\ cr_decision_id c = m_decision_id m
                 /\ cr_summary c = m_full_summary m
                 /\ cr_judges c = m_judges m
                 /\ cr_related_sections c = m_related_sections m
}.

Lemma convert_step_converted (metadatas : list metadata) (acc : list case_record * PySet.t)
  (meta : metadata) :
  In meta metadatas -> converted metadatas acc -> converted metadatas (convert_step acc meta).
Proof.
  intros Hin [Hnd Hseen Hfrom]. unfold convert_step. destruct acc as [cases seen].
  simpl in *.
  destruct (truthy (m_decision_id meta) && negb (PySet.mem (m_decision_id meta) seen))
    eqn:Hc; [|now split].
  apply andb_true_iff in Hc as [Hid Hfresh]. apply negb_true_iff in Hfresh.
  split; simpl.
  - rewrite map_app. simpl. apply NoDup_app; [assumption | repeat constructor; simpl; tauto|].
    intros id Hid' [<-|[]]. apply Hseen in Hid'. congruence.
  - intros id. rewrite mem_add, map_app, in_app_iff, orb_true_iff, Hseen. simpl.
    rewrite String.eqb_eq. intuition.
  - intros c Hc. apply in_app_or in Hc as [Hc|[<-|[]]]; [now apply Hfrom|].
    simpl. split; [assumption|]. exists meta. now repeat split.
Qed.

Lemma convert_keeps_ids (metadatas : list metadata) (acc : list case_record * PySet.t)
  (id : string) :
  In id (map cr_decision_id (fst acc)) ->
  In id (map cr_decision_id (fst (fold_left convert_step metadatas acc))).
Proof.
  revert acc. induction metadatas as [|m rest IH]; intros acc Hin; simpl; [assumption|].
  apply IH. unfold convert_step. destruct acc as [cases seen].
  destruct (_ && _); [|assumption]. simpl. rewrite map_app. apply in_or_app. now left.
Qed.

Lemma convert_step_seen (acc : list case_record * PySet.t) (meta : metadata) :
  (forall id, PySet.mem id (snd acc) = true -> In id (map cr_decision_id (fst acc))) ->
  forall id, PySet.mem id (snd (convert_step acc meta)) = true ->
             In id (map cr_decision_id (fst (convert_step acc meta))).
Proof.
  intros Hseen id. unfold convert_step. destruct acc as [cases seen].
  destruct (_ && _); [|apply Hseen]. simpl in *.
  rewrite mem_add, map_app. intros Hm. apply in_or_app.
  apply orb_true_iff in Hm as [Hm|Hm]; [left; now apply Hseen|].
  right. apply String.eqb_eq in Hm. subst. now left.
Qed.

Lemma convert_covers (m : metadata) (l : list metadata) (acc : list case_record * PySet.t) :
  truthy (m_decision_id m) = true ->
  (forall id, PySet.mem id (snd acc) = true -> In id (map cr_decision_id (fst acc))) ->
  In m l ->
  In (m_decision_id m) (map cr_decision_id (fst (fold_left convert_step l acc))).
Proof.
  intros Hid. revert acc. induction l as [|m0 rest IH]; intros acc Hseen Hin;
    [destruct Hin|]. simpl. destruct Hin as [->|Hrest].
  - apply convert_keeps_ids. unfold convert_step. destruct acc as [cases seen].
    rewrite Hid. simpl in *.
    destruct (PySet.mem (m_decision_id m) seen) eqn:Hmem; simpl.
    + now apply Hseen.
    + rewrite map_app. apply in_or_app. right. now left.
  - apply IH; [|assumption]. now apply convert_step_seen.
Qed.

(** X17.  [_convert_metadata_to_cases] yields one case per distinct
    non-empty decision id: the decision ids of its output are pairwise
    distinct and non-empty, each output case takes its id, summary, judges
    and related sections (null included) from a chunk of the input, and
    every non-empty decision id of the input appears in the output. *)
Theorem convert_metadata_contract (metadatas : list metadata) :
  NoDup (map cr_decision_id (_convert_metadata_to_cases metadatas))
  /\ (forall c, In c (_convert_metadata_to_cases metadatas) ->
        truthy (cr_decision_id c) = true
        /\ exists m, In m metadatas
                     /\ cr_decision_id c = m_decision_id m
                     /\ cr_summary c = m_full_summary m
                     /\ cr_judges c = m_judges m
                     /\ cr_related_sections c = m_related_sections m)
  /\ (forall m, In m metadatas -> truthy (m_decision_id m) = true ->
        In (m_decision_id m) (map cr_decision_id (_convert_metadata_to_cases metadatas))).
Proof.
  unfold _convert_metadata_to_cases.
  assert (Hconv : converted metadatas (fold_left convert_step metadatas ([], []))).
  { apply fold_left_inv.
    - split; simpl; [constructor | intros id; split; [discriminate | intros []] | intros c []].
    - intros acc m Hin Hacc. now apply convert_step_converted. }
  split; [apply (conv_nodup Hconv)|]. split; [apply (conv_from Hconv)|].
  intros m Hin Hid. apply convert_covers; [assumption | discriminate | assumption].
Qed.

End EngineFacts.

(** A run: the snapshot of the small graph is on disk; it is loaded, and
    the missing corpus is no error. *)
Lemma loaded_snapshot_witness :
  load_or_build_graph (E := py) new_engine
    (save_graph (E := py) Examples.small_kg Examples.no_files default_filename)
    Examples.writable None
  = Return ({| knowledge_graph := Some Examples.small_kg; _is_loaded := true |},
            save_graph (E := py) Examples.small_kg Examples.no_files default_filename).
Proof.
  apply (@loaded_snapshot_is_used py new_engine
           (save_graph (E := py) Examples.small_kg Examples.no_files default_filename)
           Examples.writable None Examples.fresh_kg Examples.small_kg).
  - reflexivity.
  - vm_compute. reflexivity.
Defined.

Section RecommendationFacts.

Lemma related_names_distinct (kg : LegalKnowledgeGraph) (entity : string) (D M : nat) :
  NoDup (map name_of (get_related_entities kg entity D M))
  /\ ~ In entity (map name_of (get_related_entities kg entity D M)).
Proof.
  unfold get_related_entities.
  destruct (Nx.has_node (graph kg) entity); cbn [negb]; [|split; [constructor | intros []]].
  set (final := bfs_loop _ (graph kg) entity D M (bfs_init entity)).
  assert (Hinv : bfs_inv entity final) by (apply bfs_loop_inv, bfs_inv_init).
  assert (Hperm : Permutation (map name_of (related final))
                              (map name_of (sort_desc score_of (related final))))
    by (apply Permutation_map, sort_desc_perm).
  split.
  - rewrite <- firstn_map. apply firstn_NoDup.
    eapply Permutation_NoDup; [exact Hperm | apply (inv_nodup Hinv)].
  - intros Hin. rewrite <- firstn_map in Hin. apply In_firstn in Hin.
    apply (Permutation_in _ (Permutation_sym Hperm)) in Hin.
    now apply (inv_seed Hinv).
Qed.

Lemma filter_keeps_distinct {A B : Type} (key : A -> B) (keep : A -> bool) :
  forall xs : list A, NoDup (map key xs) -> NoDup (map key (filter keep xs)).
Proof.
  intros xs. induction xs as [|x xs IH]; intros Hdistinct; [constructor|].
  cbn [map] in Hdistinct. apply NoDup_cons_iff in Hdistinct as [Hfresh Hrest].
  cbn [filter]. destruct (keep x); [|now apply IH].
  cbn [map]. apply NoDup_cons; [|now apply IH].
  rewrite in_map_iff. intros [y [Hy Hin]]. apply filter_In in Hin as [Hin _].
  apply Hfresh. rewrite in_map_iff. now exists y.
Qed.

(** X18.  [get_entity_recommendations] recommends cases only: every entry
    has type [case], none is the entity asked about, no case is
    recommended twice, and there are at most 15 entries. *)
Theorem entity_recommendations_contract (kg : LegalKnowledgeGraph) (entity : string) :
  (forall rec, In rec (get_entity_recommendations kg entity) ->
               rec_type rec = "case" /\ rec_entity rec <> entity)
  /\ NoDup (map rec_entity (get_entity_recommendations kg entity))
  /\ length (get_entity_recommendations kg entity) <= 15.
Proof.
  unfold get_entity_recommendations.
  destruct (negb (Nx.has_node (graph kg) entity));
    [split; [intros ? []|split; [constructor | simpl; lia]]|].
  destruct (related_names_distinct kg entity 2 15) as [Hnd Hseed].
  set (found := get_related_entities kg entity 2 15) in *.
  set (is_case := fun '(_, rel_type, _) => String.eqb rel_type "case").
  split; [|split].
  - intros rec Hin. apply in_map_iff in Hin as [[[n t] s] [<- Hin]].
    apply filter_In in Hin as [Hin Hcase]. simpl. split; [now apply String.eqb_eq|].
    intros ->. apply Hseed. apply in_map_iff. now exists (entity, t, s).
  - rewrite map_map. rewrite (map_ext _ name_of).
    + now apply filter_keeps_distinct.
    + intros [[n t] s]. reflexivity.
  - rewrite length_map.
    assert (Hlen : length found <= 15).
    { unfold found, get_related_entities.
      destruct (negb _); [simpl; lia|]. rewrite length_firstn. lia. }
    pose proof (filter_length_le is_case found). lia.
Qed.

End RecommendationFacts.

(* ================================================================== *)
(** * Text utilities *)

Lemma prefix_refl (s : string) : String.prefix s s = true.
Proof.
  induction s as [|c s IH]; simpl; [reflexivity|].
  destruct (ascii_dec c c); [assumption | contradiction].
Qed.

Lemma str_in_refl (s : string) : str_in s s = true.
Proof. destruct s; [reflexivity|]. cbn [str_in]. rewrite prefix_refl. reflexivity. Qed.

Lemma str_in_empty (s : string) : str_in "" s = true.
Proof. now destruct s. Qed.

Section TextFacts.
Context {E : Env}.

(** X19.  [find_best_match] returns candidates only, in their order; it
    keeps, at every threshold, each candidate whose normalized name is the
    normalized query; and when the query normalizes to the empty string
    (a bare title such as "นาย"), it returns every candidate. *)
Theorem find_best_match_contract (query : string) (candidates : list string)
  (threshold : Q) :
  (forall c, In c (find_best_match query candidates threshold) -> In c candidates)
  /\ (forall c, In c candidates ->
        normalize_judge_name c = normalize_judge_name query ->
        In c (find_best_match query candidates threshold))
  /\ (normalize_judge_name query = "" ->
      find_best_match query candidates threshold = candidates).
Proof.
  unfold find_best_match. split; [|split].
  - intros c Hin. now apply filter_In in Hin as [Hin _].
  - intros c Hin Heq. apply filter_In. split; [assumption|].
    unfold name_overlaps. now rewrite Heq, str_in_refl.
  - intros Hempty. rewrite Hempty.
    induction candidates as [|c l IH]; simpl; [reflexivity|].
    unfold name_overlaps at 1. rewrite str_in_empty. simpl. now rewrite IH.
Qed.

Lemma cp_length_app (a b : string) : cp_length (a ++ b) = cp_length a + cp_length b.
Proof. induction a as [|c a IH]; simpl; [reflexivity|]. rewrite IH. lia. Qed.

Lemma cp_length_take (n : nat) (s : string) : cp_length (cp_take n s) <= n.
Proof.
  revert n. induction s as [|c s IH]; intros n; simpl; [lia|].
  destruct (is_continuation c) eqn:Hc; simpl.
  - rewrite Hc. apply IH.
  - destruct n as [|n]; simpl; [lia|]. rewrite Hc. specialize (IH n). lia.
Qed.

Lemma cp_rfind_from_bound (ch : ascii) (s : string) (i last : Z) :
  (last < i)%Z ->
  (cp_rfind_from ch s i last < i + Z.of_nat (cp_length s))%Z
  \/ (cp_length s = 0 /\ cp_rfind_from ch s i last = last).
Proof.
  revert i last. induction s as [|c s IH]; intros i last Hlast; simpl; [right; now split|].
  destruct (is_continuation c).
  - destruct (IH i last Hlast) as [H|[H0 H1]]; [left; lia | right; now split].
  - left.
    assert (Hnext : ((if Ascii.eqb c ch then i else last) < i + 1)%Z)
      by (destruct (Ascii.eqb c ch); lia).
    destruct (IH (i + 1)%Z _ Hnext) as [H|[H0 H1]]; [lia|].
    rewrite H1. destruct (Ascii.eqb c ch); lia.
Qed.

Lemma cp_rfind_bound (ch : ascii) (s : string) : (cp_rfind ch s <= Z.of_nat (cp_length s))%Z.
Proof.
  unfold cp_rfind.
  destruct (@cp_rfind_from_bound ch s 0%Z (-1)%Z ltac:(lia)) as [H|[H0 H1]]; lia.
Qed.

(** X20.  [truncate_text] returns a text within the display limit as it is,
    and otherwise a text of at most [MAX_DISPLAY_LENGTH + 3] characters:
    a prefix of the input followed by three dots. *)
Theorem truncate_text_bound (text : string) :
  (cp_length text <= MAX_DISPLAY_LENGTH -> truncate_text text = text)
  /\ cp_length (truncate_text text) <= MAX_DISPLAY_LENGTH + 3
  /\ (MAX_DISPLAY_LENGTH < cp_length text ->
      exists n, truncate_text text = (cp_take n text ++ "...")%string
                /\ n <= MAX_DISPLAY_LENGTH).
Proof.
  unfold truncate_text.
  destruct (Nat.leb_spec (cp_length text) MAX_DISPLAY_LENGTH) as [Hshort|Hlong].
  - split; [reflexivity|]. split; lia.
  - split; [lia|].
    set (truncated := cp_take MAX_DISPLAY_LENGTH text).
    set (cut_point := Z.max (cp_rfind " " truncated) (cp_rfind "." truncated)).
    assert (Hcut : (cut_point <= Z.of_nat MAX_DISPLAY_LENGTH)%Z).
    { pose proof (cp_rfind_bound " " truncated). pose proof (cp_rfind_bound "." truncated).
      pose proof (cp_length_take MAX_DISPLAY_LENGTH text). unfold cut_point, truncated in *.
      lia. }
    assert (Hn : exists n,
               (if (4 * Z.of_nat MAX_DISPLAY_LENGTH <? 5 * cut_point)%Z
                then cp_take (Z.to_nat cut_point) text else truncated) = cp_take n text
               /\ n <= MAX_DISPLAY_LENGTH).
    { destruct (_ <? _)%Z.
      - exists (Z.to_nat cut_point). split; [reflexivity | lia].
      - exists MAX_DISPLAY_LENGTH. split; [reflexivity | lia]. }
    destruct Hn as [n [-> Hle]].
    split.
    + rewrite cp_length_app. pose proof (cp_length_take n text). simpl. lia.
    + intros _. now exists n.
Qed.

End TextFacts.

Lemma truncate_text_witness :
  truncate_text (E := py) "ผิดสัญญา" = "ผิดสัญญา".
Proof.
  apply (proj1 (@truncate_text_bound py "ผิดสัญญา")). vm_compute. lia.
Defined.

(* ================================================================== *)
(** * Graph discovery, the case-type merge and the engine's fallback *)

Section DiscoveryFacts.
Context {E : Env}.

(** What [_find_additional_relevant_cases] has collected so far. *)
Definition discovered (kg : LegalKnowledgeGraph) (query : string)
  (existing : list string) (max_results : nat) (l : list result) : Prop :=
  length l <= max_results
  /\ forall r, In r l ->
       ~ In (r_decision_id r) existing
       /\ exists entity score,
            In entity (_extract_query_entities query)
            /\ Nx.has_node (graph kg) entity = true
            /\ In (r_decision_id r, "case", score) (get_related_entities kg entity 2 10)
            /\ r = case_info entity (r_decision_id r) score.

(** X21.  [_find_additional_relevant_cases] returns at most [max_results]
    entries; each one is the [graph_discovery] entry of a node of type
    [case] that the traversal reached from an entity of the query, and
    none has a decision id of [existing_case_ids]. *)
Theorem additional_cases_contract (kg : LegalKnowledgeGraph) (query : string)
  (existing : list string) (max_results : nat) :
  length (_find_additional_relevant_cases kg query existing max_results) <= max_results
  /\ forall r, In r (_find_additional_relevant_cases kg query existing max_results) ->
       r_source r = "graph_discovery"
       /\ ~ In (r_decision_id r) existing
       /\ exists entity score,
            In entity (_extract_query_entities query)
            /\ Nx.has_node (graph kg) entity = true
            /\ In (r_decision_id r, "case", score) (get_related_entities kg entity 2 10)
            /\ r = case_info entity (r_decision_id r) score.
Proof.
  assert (H : discovered kg query existing max_results
                (_find_additional_relevant_cases kg query existing max_results)).
  { unfold _find_additional_relevant_cases.
    apply (fold_left_inv (discovered kg query existing max_results)).
    - split; [simpl; lia | intros r []].
    - intros l entity Hentity Hl.
      destruct (Nx.has_node (graph kg) entity) eqn:Hnode; [|assumption].
      apply (fold_left_inv (discovered kg query existing max_results)); [assumption|].
      intros l' [[n t] s] Hin [Hlen Hall].
      destruct (String.eqb_spec t "case") as [->|_]; cbn [andb]; [|now split].
      destruct (PySet.mem n existing) eqn:Hmem; cbn [negb andb]; [now split|].
      destruct (Nat.ltb_spec (length l') max_results) as [Hlt|_]; [|now split].
      split.
      + rewrite length_app. simpl. lia.
      + intros r Hr. apply in_app_or in Hr as [Hr|[<-|[]]]; [now apply Hall|].
        split.
        * simpl. intros Hex. apply mem_In in Hex. congruence.
        * exists entity, s. simpl. repeat split; assumption. }
  destruct H as [Hlen Hall]. split; [assumption|].
  intros r Hr. destruct (Hall r Hr) as [Hex [entity [score [H1 [H2 [H3 H4]]]]]].
  split; [rewrite H4; reflexivity|]. split; [assumption|].
  now exists entity, score.
Qed.

End DiscoveryFacts.

Section MergeFacts.
Context {E : Env}.

Definition ids (l : list result) : list string := map r_decision_id l.

Lemma merge_fold (l results : list result) (seen : PySet.t) :
  (forall id, PySet.mem id seen = true <-> In id (ids results)) ->
  NoDup (ids results) ->
  exists extra seen',
    fold_left merge_step l (results, seen) = (results ++ extra, seen')
    /\ (forall id, PySet.mem id seen' = true <-> In id (ids (results ++ extra)))
    /\ NoDup (ids (results ++ extra))
    /\ (forall r, In r extra -> In r l /\ ~ In (r_decision_id r) (ids results))
    /\ (forall r, In r l -> In (r_decision_id r) (ids (results ++ extra))).
Proof.
  revert results seen. induction l as [|r l IH]; intros results seen Hseen Hnd.
  - exists [], seen. rewrite app_nil_r. simpl. repeat split; try tauto; apply Hseen.
  - cbn [fold_left merge_step].
    destruct (PySet.mem (r_decision_id r) seen) eqn:Hmem; cbn [negb].
    + destruct (IH results seen Hseen Hnd) as [extra [seen' [Hf [Hs [Hn [Hex Hall]]]]]].
      exists extra, seen'. repeat split; try assumption; try apply Hs.
      * right. now apply Hex.
      * now apply Hex.
      * intros r' [<-|Hin]; [|now apply Hall].
        unfold ids. rewrite map_app. apply in_or_app. left. now apply Hseen.
    + assert (Hfresh : ~ In (r_decision_id r) (ids results)).
      { intros Hin. apply Hseen in Hin. congruence. }
      assert (Hseen' : forall id, PySet.mem id (PySet.add seen (r_decision_id r)) = true
                                  <-> In id (ids (results ++ [r]))).
      { intros id. rewrite mem_add. unfold ids. rewrite map_app, in_app_iff. simpl.
        rewrite orb_true_iff, String.eqb_eq, Hseen. unfold ids. intuition. }
      assert (Hnd' : NoDup (ids (results ++ [r]))).
      { unfold ids. rewrite map_app. simpl. apply NoDup_app;
          [assumption | repeat constructor; simpl; tauto|].
        intros id Hid [<-|[]]. now apply Hfresh. }
      destruct (IH (results ++ [r]) _ Hseen' Hnd')
        as [extra [seen' [Hf [Hs [Hn [Hex Hall]]]]]].
      exists (r :: extra), seen'.
      replace (results ++ r :: extra) with ((results ++ [r]) ++ extra)
        by (now rewrite <- app_assoc).
      repeat split; try assumption; try apply Hs.
      * destruct H as [<-|Hin]; [now left | right; now apply Hex].
      * destruct H as [<-|Hin]; [assumption|].
        intros Hid. apply (proj2 (Hex r0 Hin)).
        unfold ids. rewrite map_app. apply in_or_app. now left.
      * intros r' [<-|Hin]; [|now apply Hall].
        unfold ids. rewrite !map_app. apply in_or_app. left. apply in_or_app. right.
        now left.
Qed.

Lemma merge_distinct (l results : list result) (seen : PySet.t) :
  (forall id, PySet.mem id seen = true <-> In id (ids results)) ->
  NoDup (ids (results ++ l)) ->
  exists seen',
    fold_left merge_step l (results, seen) = (results ++ l, seen')
    /\ (forall id, PySet.mem id seen' = true <-> In id (ids (results ++ l))).
Proof.
  revert results seen. induction l as [|r l IH]; intros results seen Hseen Hnd.
  - exists seen. rewrite app_nil_r. simpl. split; [reflexivity | assumption].
  - cbn [fold_left merge_step].
    replace (results ++ r :: l) with ((results ++ [r]) ++ l) in *
      by (now rewrite <- app_assoc).
    assert (Hfresh : ~ In (r_decision_id r) (ids results)).
    { unfold ids in *. rewrite !map_app in Hnd. apply NoDup_app_remove_r in Hnd.
      simpl in Hnd. apply NoDup_remove_2 in Hnd. rewrite app_nil_r in Hnd. exact Hnd. }
    destruct (PySet.mem (r_decision_id r) seen) eqn:Hmem; cbn [negb].
    + exfalso. apply Hfresh. now apply Hseen.
    + apply IH; [|assumption].
      intros id. rewrite mem_add. unfold ids. rewrite map_app, in_app_iff. simpl.
      rewrite orb_true_iff, String.eqb_eq, Hseen. unfold ids. intuition.
Qed.

(** X22.  The case-type step of [_combined_search]: when the caller names a
    case type and the type search has hits, the answer is those hits
    followed by the GraphRAG results whose decision id is new, one entry
    per decision id, cut to [k] entries.  The type hits always come first,
    so when there are [k] of them no GraphRAG result is returned. *)
Theorem case_type_hits_stay_first (sm : SearchManager) (query : string)
  (case_type : option string) (ct : string) (k : nat) (graphrag_results : list result) :
  given case_type = Some ct ->
  search_by_case_type (traditional_engine sm) ct k <> [] ->
  _search_with_graphrag sm query k = Return graphrag_results ->
  exists extra,
    case_type_steps sm query case_type k
    = Return (firstn k (search_by_case_type (traditional_engine sm) ct k ++ extra))
    /\ (forall r, In r extra ->
          In r graphrag_results
          /\ ~ In (r_decision_id r)
                  (ids (search_by_case_type (traditional_engine sm) ct k)))
    /\ NoDup (ids (search_by_case_type (traditional_engine sm) ct k ++ extra))
    /\ (k <= length (search_by_case_type (traditional_engine sm) ct k) ->
        case_type_steps sm query case_type k
        = Return (firstn k (search_by_case_type (traditional_engine sm) ct k))).
Proof.
  intros Hgiven Hhits Hgraph. unfold case_type_steps. cbv zeta. rewrite Hgiven.
  set (hits := search_by_case_type (traditional_engine sm) ct k) in *.
  assert (Hnd : NoDup (ids hits)).
  { unfold hits, search_by_case_type. apply scan_distinct; [constructor | intros id []]. }
  destruct hits as [|h hits'] eqn:Hh; [congruence|].
  cbv match. rewrite <- Hh. rewrite <- Hh in Hnd. rewrite Hgraph. cbn [bind].
  destruct (@merge_distinct hits [] []) as [seen [Hfold Hseen]];
    [intros id; simpl; split; [discriminate | tauto] | simpl; exact Hnd|].
  simpl app in Hfold, Hseen.
  destruct (@merge_fold graphrag_results hits seen Hseen Hnd)
    as [extra [seen' [Hf [_ [Hn [Hex _]]]]]].
  exists extra. unfold PySet.t in *. rewrite Hfold, Hf. cbn [fst].
  split; [reflexivity|]. split; [exact Hex|]. split; [exact Hn|].
  intros Hk. f_equal.
  rewrite firstn_app. replace (k - length hits) with 0 by lia.
  simpl. now rewrite app_nil_r.
Qed.

(** X23.  [extract_case_type] answers with one of eight type names, and only
    when one of its keywords occurs in the lower-cased text; with no
    keyword in the text it answers [None]. *)
Theorem extract_case_type_canonical (text : string) :
  match extract_case_type text with
  | Some case_type =>
      In case_type ["อาญา"; "แพ่ง"; "แรงงาน"; "ภาษี"; "ปกครอง"; "ครอบครัว"; "ล้มละลาย";
                    "ทรัพย์สินทางปัญญา"]
      /\ exists keyword,
           In (keyword, case_type) case_type_mapping
           /\ str_in (str_lower keyword) (str_lower text) = true
  | None =>
      forall keyword case_type,
        In (keyword, case_type) case_type_mapping ->
        str_in (str_lower keyword) (str_lower text) = false
  end.
Proof.
  unfold extract_case_type.
  destruct (find _ case_type_mapping) as [[keyword case_type]|] eqn:Hfind; cbn [option_map snd].
  - apply find_some in Hfind as [Hin Hocc]. split; [|now exists keyword].
    unfold case_type_mapping in Hin. simpl in Hin.
    repeat (destruct Hin as [[= <- <-]|Hin]; [simpl; tauto|]). destruct Hin.
  - intros keyword case_type Hin.
    apply (find_none _ _ Hfind (keyword, case_type) Hin).
Qed.

(** X24.  [search_with_graphrag] raises only when the engine is not
    initialized.  On an initialized engine it always answers: with at most
    [k] enhanced results, or with the vector results as they were given. *)
Theorem search_with_graphrag_answers (eng : GraphRAGSearchEngine) (query : string)
  (vector_results : list result) (k : nat) :
  (_is_loaded eng = false ->
   search_with_graphrag eng query vector_results k = Raise not_initialized)
  /\ (_is_loaded eng = true ->
      exists results,
        search_with_graphrag eng query vector_results k = Return results
        /\ (length results <= k \/ results = vector_results)).
Proof.
  unfold search_with_graphrag. split; intros ->; cbn [negb]; [reflexivity|].
  destruct (enhancement_step eng query vector_results) as [enhanced|e].
  - exists (firstn k enhanced). split; [reflexivity|]. left. rewrite length_firstn. lia.
  - exists vector_results. split; [reflexivity | now right].
Qed.

End MergeFacts.

(** A run: two civil cases are stored and [k = 2]; the answer to a query
    with case type [แพ่ง] is the two type hits. *)
Lemma case_type_hits_witness :
  case_type_steps (E := py)
    (Examples.manager ["ผิดสัญญา"; "ผิดสัญญา"] [Examples.prefixed_meta; Examples.bare_meta])
    "ผิดสัญญา" (Some "แพ่ง") 2
  = Return (firstn 2
              (search_by_case_type (E := py)
                 (traditional_engine
                    (Examples.manager ["ผิดสัญญา"; "ผิดสัญญา"]
                       [Examples.prefixed_meta; Examples.bare_meta])) "แพ่ง" 2)).
Proof.
  destruct (@case_type_hits_stay_first py
              (Examples.manager ["ผิดสัญญา"; "ผิดสัญญา"]
                 [Examples.prefixed_meta; Examples.bare_meta])
              "ผิดสัญญา" (Some "แพ่ง") "แพ่ง" 2 [])
    as [extra [_ [_ [_ H]]]].
  - reflexivity.
  - vm_compute. discriminate.
  - vm_compute. reflexivity.
  - apply H. vm_compute. lia.
Defined.

(* ================================================================== *)
(** * Case types assigned at load time *)

Section DetectFacts.
Context {E : Env}.

Lemma detect_case_type_label (text title : string) :
  In (detect_case_type text title) ["อาญา"; "แพ่ง"; "ปกครอง"; "แรงงาน"; "ไม่ระบุ"].
Proof.
  unfold detect_case_type. cbv zeta.
  repeat match goal with |- context [matches_any ?p ?t] =>
           destruct (matches_any p t); [simpl; tauto|] end.
  simpl. tauto.
Qed.

(** X25.  [detect_case_type] answers with one of five labels; a criminal
    pattern found in the text decides for [อาญา] whatever else the text
    holds; and the answer [แรงงาน] means that no criminal, civil or
    administrative pattern was found. *)
Theorem detect_case_type_labels (text title : string) :
  In (detect_case_type text title) ["อาญา"; "แพ่ง"; "ปกครอง"; "แรงงาน"; "ไม่ระบุ"]
  /\ (matches_any criminal_patterns (str_lower (title ++ " " ++ text)) = true ->
      detect_case_type text title = "อาญา")
  /\ (detect_case_type text title = "แรงงาน" ->
      matches_any criminal_patterns (str_lower (title ++ " " ++ text)) = false
      /\ matches_any civil_patterns (str_lower (title ++ " " ++ text)) = false
      /\ matches_any admin_patterns (str_lower (title ++ " " ++ text)) = false
      /\ matches_any labor_patterns (str_lower (title ++ " " ++ text)) = true).
Proof.
  unfold detect_case_type. cbv zeta.
  destruct (matches_any criminal_patterns _);
    [split; [simpl; tauto | split; [reflexivity | discriminate]]|].
  destruct (matches_any civil_patterns _);
    [split; [simpl; tauto | split; discriminate]|].
  destruct (matches_any admin_patterns _);
    [split; [simpl; tauto | split; discriminate]|].
  destruct (matches_any labor_patterns _);
    split; try (simpl; tauto); split; try discriminate; tauto.
Qed.

(** X26.  In a corpus whose case types were assigned by [detect_case_type],
    as the loader does, [search_by_case_type] finds nothing for a type
    outside the five labels: a search for [ภาษี], [ครอบครัว], [ล้มละลาย] or
    [ทรัพย์สินทางปัญญา], which [extract_case_type] can ask for, is empty. *)
Theorem undetected_types_find_nothing (eng : TraditionalSearchEngine)
  (case_type : string) (k : nat) :
  (forall m, In m (metadatas eng) ->
             exists text title, m_case_type m = Some (detect_case_type text title)) ->
  ~ In case_type ["อาญา"; "แพ่ง"; "ปกครอง"; "แรงงาน"; "ไม่ระบุ"] ->
  search_by_case_type eng case_type k = [].
Proof.
  intros Hloaded Hother. unfold search_by_case_type. apply scan_no_match.
  intros m text Hin. apply in_combine_l in Hin.
  destruct (Hloaded m Hin) as [t [title ->]]. cbn [or_default].
  apply String.eqb_neq. intros <-. apply Hother.
  apply detect_case_type_label.
Qed.

End DetectFacts.

(** A run: one stored chunk, typed [แพ่ง] by [detect_case_type] from its
    title and summary; a search for the type [ภาษี] is empty. *)
Lemma undetected_types_witness :
  search_by_case_type (E := py_alternation)
    {| docs := ["ผิดสัญญา"]; metadatas := [Examples.bare_meta] |} "ภาษี" 5 = [].
Proof.
  apply (@undetected_types_find_nothing py_alternation
           {| docs := ["ผิดสัญญา"]; metadatas := [Examples.bare_meta] |} "ภาษี" 5).
  - intros m [<-|[]]. exists "ผิดสัญญา", "คดีแพ่ง". vm_compute. reflexivity.
  - vm_compute. intuition discriminate.
Defined.

(* ================================================================== *)
(** * Chunking *)

Section ChunkFacts.
Context {E : Env}.
Variable MIN_CHUNK_SIZE : Z.

Definition long_enough (chunk : string) : Prop :=
  (MIN_CHUNK_SIZE <= Z.of_nat (cp_length chunk))%Z.

Lemma chunk_step_progress (text : string) (max_length overlap start : Z)
  (chunks : list string) :
  (0 <= overlap < max_length)%Z ->
  (overlap <= MIN_CHUNK_SIZE)%Z ->
  (0 <= start < Z.of_nat (cp_length text))%Z ->
  match chunk_step MIN_CHUNK_SIZE text max_length overlap start chunks with
  | inl chunks' => Forall long_enough chunks -> Forall long_enough chunks'
  | inr (start', chunks') =>
      (start < start')%Z /\ (Forall long_enough chunks -> Forall long_enough chunks')
  end.
Proof.
  intros Hoverlap Hmin Hstart. unfold chunk_step. cbv zeta.
  set (len := Z.of_nat (cp_length text)) in *.
  set (end0 := Z.min (start + max_length) len).
  set (end_ := if (end0 <? len)%Z then _ else end0).
  assert (Hend : (end_ = end0 \/ start + MIN_CHUNK_SIZE < end_)%Z).
  { unfold end_. destruct (end0 <? len)%Z; [|now left].
    destruct (negb _ && _) eqn:Hc; [|now left].
    right. apply andb_true_iff in Hc as [_ Hc]. now apply Z.ltb_lt in Hc. }
  set (chunk := str_strip (cp_slice text start end_)).
  assert (Hchunks : Forall long_enough chunks ->
                    Forall long_enough
                      (if (MIN_CHUNK_SIZE <=? Z.of_nat (cp_length chunk))%Z
                       then chunks ++ [chunk] else chunks)).
  { intros Hall. destruct (Z.leb_spec MIN_CHUNK_SIZE (Z.of_nat (cp_length chunk)));
      [|assumption].
    apply Forall_app. split; [assumption|]. now repeat constructor. }
  destruct (Z.leb_spec len end_) as [Hbreak|Hmore]; [exact Hchunks|].
  split; [|exact Hchunks].
  destruct Hend as [Hend|Hend]; [|lia].
  rewrite Hend in *. unfold end0 in *. lia.
Qed.

Lemma chunk_loop_terminates (text : string) (max_length overlap : Z) :
  (0 <= overlap < max_length)%Z ->
  (overlap <= MIN_CHUNK_SIZE)%Z ->
  forall (n : nat) (start : Z) (chunks : list string),
    (0 <= start)%Z ->
    (Z.of_nat (cp_length text) - start <= Z.of_nat n)%Z ->
    exists result,
      (forall fuel, n < fuel ->
         chunk_loop MIN_CHUNK_SIZE fuel text max_length overlap start chunks = Some result)
      /\ (Forall long_enough chunks -> Forall long_enough result).
Proof.
  intros Hoverlap Hmin. induction n as [|n IH]; intros start chunks Hstart Hn.
  - exists chunks. split; [|tauto].
    intros [|fuel] Hfuel; [lia|]. cbn [chunk_loop].
    destruct (Z.ltb_spec start (Z.of_nat (cp_length text))); [lia | reflexivity].
  - destruct (Z.ltb_spec start (Z.of_nat (cp_length text))) as [Hlt|Hge].
    + pose proof (@chunk_step_progress text max_length overlap start chunks
                    Hoverlap Hmin (conj Hstart Hlt)) as Hstep.
      destruct (chunk_step MIN_CHUNK_SIZE text max_length overlap start chunks)
        as [chunks'|[start' chunks']] eqn:Hs.
      * exists chunks'. split; [|exact Hstep].
        intros [|fuel] Hfuel; [lia|]. cbn [chunk_loop].
        apply Z.ltb_lt in Hlt. now rewrite Hlt, Hs.
      * destruct Hstep as [Hnext Hall].
        destruct (IH start' chunks') as [result [Hrun Hres]]; [lia | lia|].
        exists result. split; [|tauto].
        intros [|fuel] Hfuel; [lia|]. cbn [chunk_loop].
        apply Z.ltb_lt in Hlt. rewrite Hlt, Hs. apply Hrun. lia.
    + exists chunks. split; [|tauto].
      intros [|fuel] Hfuel; [lia|]. cbn [chunk_loop].
      apply Z.ltb_ge in Hge. now rewrite Hge.
Qed.

(** X27.  With [0 <= overlap < max_length] and [overlap <= MIN_CHUNK_SIZE]
    (the shipped 30, 300 and 80 satisfy both), [chunk_text_with_overlap]
    terminates: the loop ends within one turn per character, with the
    same chunks for every larger bound, and every chunk cut from a text
    longer than [max_length] has at least [MIN_CHUNK_SIZE] characters. *)
Theorem chunking_terminates (text : string) (max_length overlap : Z) :
  (0 <= overlap < max_length)%Z ->
  (overlap <= MIN_CHUNK_SIZE)%Z ->
  exists chunks,
    (forall fuel, cp_length text < fuel ->
       chunk_text_with_overlap MIN_CHUNK_SIZE fuel text max_length overlap = Some chunks)
    /\ ((max_length < Z.of_nat (cp_length text))%Z -> Forall long_enough chunks).
Proof.
  intros Hoverlap Hmin. unfold chunk_text_with_overlap.
  destruct (Z.leb_spec (Z.of_nat (cp_length text)) max_length) as [Hshort|Hlong].
  - exists [text]. split; [reflexivity | lia].
  - destruct (@chunk_loop_terminates text max_length overlap Hoverlap Hmin
                (cp_length text) 0%Z []) as [result [Hrun Hall]]; [lia | lia|].
    exists result. split; [exact Hrun|]. intros _. apply Hall. constructor.
Qed.

(** X28.  With [overlap = max_length] the loop of [chunk_text_with_overlap]
    never ends on a text longer than [max_length] whose first
    [max_length] characters hold no space beyond position
    [MIN_CHUNK_SIZE]: every turn starts again at position 0. *)
Theorem chunking_never_ends (text : string) (max_length : Z) :
  (0 < max_length < Z.of_nat (cp_length text))%Z ->
  (cp_rfind_in " " text 0 max_length <= MIN_CHUNK_SIZE)%Z ->
  forall fuel,
    chunk_text_with_overlap MIN_CHUNK_SIZE fuel text max_length max_length = None.
Proof.
  intros Hlen Hspace fuel. unfold chunk_text_with_overlap.
  destruct (Z.leb_spec (Z.of_nat (cp_length text)) max_length) as [Hshort|_]; [lia|].
  generalize (@nil string) as chunks.
  induction fuel as [|fuel IH]; intros chunks; [reflexivity|].
  cbn [chunk_loop].
  destruct (Z.ltb_spec 0 (Z.of_nat (cp_length text))) as [_|Hneg]; [|lia].
  unfold chunk_step. cbv zeta. rewrite !Z.add_0_l.
  rewrite (Z.min_l max_length) by lia.
  destruct (Z.ltb_spec max_length (Z.of_nat (cp_length text))) as [_|Hge]; [|lia].
  destruct (Z.ltb_spec MIN_CHUNK_SIZE (cp_rfind_in " " text 0 max_length)) as [Hgt|_];
    [lia|].
  rewrite andb_false_r.
  destruct (Z.leb_spec (Z.of_nat (cp_length text)) max_length) as [Hle|_]; [lia|].
  rewrite Z.sub_diag. apply IH.
Qed.

End ChunkFacts.

(** A run with a minimum chunk size of 2: a text of 19 characters cut at
    8 with an overlap of 2. *)
Lemma chunking_terminates_witness :
  exists chunks,
    chunk_text_with_overlap (E := py) 2 20 "aaaa bbbb cccc dddd" 8 2 = Some chunks.
Proof.
  destruct (@chunking_terminates py 2 "aaaa bbbb cccc dddd" 8 2) as [chunks [Hrun _]];
    [lia | lia|].
  exists chunks. apply Hrun. vm_compute. lia.
Defined.

(** A run: ten letters without a space, cut at 4 with an overlap of 4. *)
Lemma chunking_never_ends_witness :
  chunk_text_with_overlap (E := py) 0 1000 "abcdefghij" 4 4 = None.
Proof.
  apply (@chunking_never_ends py 0 "abcdefghij" 4).
  - vm_compute. split; reflexivity.
  - vm_compute. discriminate.
Defined.

(* ================================================================== *)
(** * Start-up of the search manager *)

Section StartUp.
Context {E : Env}.

Lemma detect_communities_graph (kg : LegalKnowledgeGraph) :
  graph (detect_communities kg) = graph kg.
Proof. unfold detect_communities. now destruct (best_partition (graph kg)). Qed.

Lemma convert_nothing (metadatas : list metadata) (acc : list case_record * PySet.t) :
  (forall m, In m metadatas -> truthy (m_decision_id m) = false) ->
  fold_left convert_step metadatas acc = acc.
Proof.
  revert acc. induction metadatas as [|m rest IH]; intros acc Hnone; [reflexivity|].
  cbn [fold_left]. unfold convert_step at 2. destruct acc as [cases seen].
  rewrite (Hnone m) by now left. cbn [andb]. apply IH.
  intros m' Hin. apply Hnone. now right.
Qed.

(** Records whose sections are dicts of lists are typed records. *)
Lemma records_with_sections (cases : list case_record) :
  (forall c, In c cases -> exists s, cr_related_sections c = loaded_sections s) ->
  exists typed, cases = map as_record typed.
Proof.
  induction cases as [|c cases IH]; intros Hall; [now exists []|].
  destruct IH as [typed ->]; [intros c' Hc'; apply Hall; now right|].
  destruct (Hall c (or_introl eq_refl)) as [s Hs].
  exists ({| cd_decision_id := cr_decision_id c; cd_title := cr_title c;
             cd_summary := cr_summary c; cd_full_text := cr_full_text c;
             cd_judges := cr_judges c; cd_case_type := cr_case_type c;
             cd_litigants := cr_litigants c; cd_related_sections := s |} :: typed).
  cbn [map]. f_equal. destruct c. unfold as_record. simpl in *. now rewrite Hs.
Qed.

Lemma converted_cases (metadatas : list metadata) :
  converted metadatas (fold_left convert_step metadatas ([], [])).
Proof.
  apply fold_left_inv.
  - split; simpl; [constructor | intros id; split; [discriminate | intros []] | intros c []].
  - intros acc m Hin Hacc. now apply convert_step_converted.
Qed.

(** X29.  Start-up without a snapshot on disk.  When no stored chunk has a
    decision id, [SearchManager.initialize] fails with the [ValueError] of
    [load_or_build_graph].  When some chunk has one, every chunk's
    [related_sections] is a dict of lists and the disk takes the write, it
    succeeds: the engine is loaded, the decision id of every stored chunk
    that has one is a node of the engine's knowledge graph, and the
    snapshot is written.  It has no handler for the rebuild: when the
    disk refuses the write it raises that [OSError], and when the chunks
    of some case have [related_sections] null it raises as well. *)
Theorem start_up_indexes_every_case (docs : list string) (metadatas : list metadata)
  (fs : filesystem) (write_error : string -> option string) :
  fs (path_join GRAPHS_FOLDER default_filename) = None ->
  ((forall m, In m metadatas -> truthy (m_decision_id m) = false) ->
   SearchManager_initialize docs metadatas fs write_error = Raise no_cases_error)
  /\ ((exists m, In m metadatas /\ truthy (m_decision_id m) = true) ->
      (forall m, In m metadatas -> exists s, m_related_sections m = loaded_sections s) ->
      (write_error (path_join GRAPHS_FOLDER default_filename) = None ->
       exists sm fs' kg,
         SearchManager_initialize docs metadatas fs write_error = Return (sm, fs')
         /\ graphrag_engine sm = {| knowledge_graph := Some kg; _is_loaded := true |}
         /\ (forall m, In m metadatas -> truthy (m_decision_id m) = true ->
                       Nx.has_node (graph kg) (m_decision_id m) = true)
         /\ fs' (path_join GRAPHS_FOLDER default_filename) <> None)
      /\ (forall msg, write_error (path_join GRAPHS_FOLDER default_filename) = Some msg ->
          SearchManager_initialize docs metadatas fs write_error = Raise (OSError msg)))
  /\ (forall m, In m metadatas -> truthy (m_decision_id m) = true ->
      (forall m', In m' metadatas -> m_decision_id m' = m_decision_id m ->
                  m_related_sections m' = None) ->
      exists e, SearchManager_initialize docs metadatas fs write_error = Raise e
                /\ e <> no_cases_error).
Proof.
  intros Hmissing.
  set (kg0 := new_knowledge_graph EMBEDDINGS_FOLDER GRAPHS_FOLDER).
  assert (Hkg : knowledge_graph (initialize (initialize new_engine)) = Some kg0)
    by reflexivity.
  assert (Hload : fst (load_graph kg0 fs default_filename) = false).
  { unfold load_graph, kg0. cbn [new_knowledge_graph graphs_folder]. now rewrite Hmissing. }
  pose proof (converted_cases metadatas) as Hconv.
  assert (Hcover : forall m, In m metadatas -> truthy (m_decision_id m) = true ->
            exists c, In c (_convert_metadata_to_cases metadatas)
                      /\ cr_decision_id c = m_decision_id m).
  { intros m Hin Hid. unfold _convert_metadata_to_cases.
    pose proof (@convert_covers m metadatas ([], []) Hid) as Hc.
    apply in_map_iff in Hc as [c [Hc Hinc]]; [now exists c | discriminate | assumption]. }
  unfold SearchManager_initialize. cbv zeta.
  fold (_convert_metadata_to_cases metadatas) in Hconv.
  split; [|split].
  - intros Hnone.
    rewrite (@load_or_build_empty _ (initialize new_engine) fs write_error
               (Some (_convert_metadata_to_cases metadatas)) kg0 Hkg Hload); [reflexivity|].
    right. unfold _convert_metadata_to_cases. now rewrite convert_nothing.
  - intros [m0 [Hin0 Hid0]] Hsections.
    assert (Hne : _convert_metadata_to_cases metadatas <> []).
    { destruct (Hcover m0 Hin0 Hid0) as [c [Hc _]]. intros Hnil. now rewrite Hnil in Hc. }
    destruct (records_with_sections (_convert_metadata_to_cases metadatas)) as [typed Htyped].
    { intros c Hc. destruct (conv_from Hconv c Hc) as [_ [m [Hm [_ [_ [_ Hs]]]]]].
      rewrite Hs. now apply Hsections. }
    rewrite (@load_or_build_rebuild _ (initialize new_engine) fs write_error
               (_convert_metadata_to_cases metadatas) kg0 Hkg Hload Hne).
    rewrite Htyped in *. rewrite build_graph_as_records. cbn [bind].
    unfold save_graph_to_disk. cbv zeta.
    assert (Hfolder : graphs_folder (detect_communities (build_graph kg0 typed))
                      = GRAPHS_FOLDER)
      by (now rewrite detect_communities_folder).
    rewrite Hfolder. split.
    + intros Hwrite. rewrite Hwrite. cbn [bind fst snd].
      eexists _, _, _. split; [reflexivity|]. cbn [graphrag_engine]. split; [reflexivity|].
      split.
      * intros m Hin Hid. destruct (Hcover m Hin Hid) as [c [Hinc Hc]].
        apply in_map_iff in Hinc as [d [<- Hd]].
        rewrite detect_communities_graph, <- Hc.
        apply build_graph_has_case; [assumption | now rewrite <- Hc in Hid].
      * unfold save_graph, fs_write. rewrite Hfolder, String.eqb_refl. discriminate.
    + intros msg Hwrite. rewrite Hwrite. reflexivity.
  - intros m Hin Hid Hnull.
    destruct (Hcover m Hin Hid) as [c [Hinc Hc]].
    assert (Hne : _convert_metadata_to_cases metadatas <> [])
      by (intros Hnil; now rewrite Hnil in Hinc).
    rewrite (@load_or_build_rebuild _ (initialize new_engine) fs write_error
               (_convert_metadata_to_cases metadatas) kg0 Hkg Hload Hne).
    destruct (conv_from Hconv c Hinc) as [Hidc [m' [Hm' [Hid' [_ [_ Hs]]]]]].
    assert (Hcnull : cr_related_sections c = None).
    { rewrite Hs. apply Hnull; [assumption | congruence]. }
    destruct (@build_graph_records_null _ kg0 _ c Hinc Hidc Hcnull) as [e He].
    rewrite He. cbn [bind]. exists e. split; [reflexivity|].
    destruct (build_graph_records_raises _ _ He) as [-> | ->]; discriminate.
Qed.

End StartUp.

(** A run: one stored civil case, no snapshot on disk, a disk that takes
    the write. *)
Lemma start_up_witness :
  exists sm fs' kg,
    SearchManager_initialize (E := py) ["ผิดสัญญา"] [Examples.bare_meta] Examples.no_files
      Examples.writable
    = Return (sm, fs')
    /\ graphrag_engine sm = {| knowledge_graph := Some kg; _is_loaded := true |}
    /\ (forall m, In m [Examples.bare_meta] -> truthy (m_decision_id m) = true ->
                  Nx.has_node (graph kg) (m_decision_id m) = true)
    /\ fs' (path_join (GRAPHS_FOLDER (Env := py)) default_filename) <> None.
Proof.
  apply (proj2 (@start_up_indexes_every_case py ["ผิดสัญญา"] [Examples.bare_meta]
                  Examples.no_files Examples.writable eq_refl)).
  - exists Examples.bare_meta. split; [now left | reflexivity].
  - intros m [<-|[]]. now exists [].
  - reflexivity.
Defined.
